(** * Heatmap widget: score normalisation, response validation, retrying
      client and refresh cycle.

    Shallow embedding of
      - [src/lib/types/backend.ts]   ([normalizeScore], [getBias],
        [transformBackendResponse], [SCORE_COLORS]),
      - [src/lib/api/client.ts]      ([HeatmapApiClient], [MockApiClient]),
      - [EdgeFinderHeatmap.svelte]   ([onMount], [onDestroy], [loadData],
        [getCellColor], [sortedData]).

    Numbers.  A JavaScript [number] is an IEEE 754 binary64 number.
    [normalizeScore_binary64] is [normalizeScore] on these numbers (the
    primitive floats, whose operations are specified by [SpecFloat]); the
    statements about the bucket of a given score are made on it.  The type
    [number] holds an exact rational or one of [Infinity], [-Infinity],
    [NaN], with exact arithmetic: it is what the records of the declared
    types carry, and [normalizeScore] on it is used for what does not
    depend on rounding (the order of the buckets along the scores, the five
    values, the comparisons of [getBias] with integers).  On a score whose
    quotient falls next to a threshold the two can give neighbouring
    buckets; [normalizeScore_binary64_rounding] shows two such scores.
    Integer counters ([retries], [maxRetries], HTTP status codes, timer
    delays) are in [Z].

    Strings are sequences of bytes.  An object used as a dictionary
    ([Record<string, number>]) is the finite map of its own properties;
    what it inherits from [Object.prototype] is taken into account where
    the code assigns to a property ([assign]) or reads one
    ([read_property]).  The order in which [Object.keys] lists the
    properties is not represented.

    Types.  The functions are given twice where the declared types and the
    values at run time can differ: on the records of the declared types,
    and (module [Runtime]) on decoded payloads, where a missing or
    ill-typed field can make [transformBackendResponse] throw.

    Asynchrony.  A promise is represented by the way it settles.  A call of
    [fetchWithRetry] returns its result together with the trace of its
    requests and delays; the refresh cycle is split at its [await], so that
    other events can take place in between. *)

From Stdlib Require Import QArith Lqa ZArith Lia Ascii String.
From Stdlib Require Import PrimFloat Uint63 SpecFloat FloatOps FloatAxioms.
From stdpp Require Import gmap strings list pretty sorting.
From Equations Require Import Equations.

Local Open Scope Z_scope.

Set Warnings "-register-all,-inexact-float".

(** ** Numbers with exact arithmetic *)

(** The values of a JavaScript number without rounding: a finite value is a
    rational, there is one zero, and no operation overflows. *)
Inductive number : Type :=
| Fin (q : Q)
| PosInf
| NegInf
| NaN.

(** [x - y] *)
Definition num_sub (x y : number) : number :=
  match x, y with
  | NaN, _ | _, NaN => NaN
  | Fin a, Fin b => Fin (a - b)
  | PosInf, PosInf | NegInf, NegInf => NaN
  | PosInf, _ => PosInf
  | NegInf, _ => NegInf
  | Fin _, PosInf => NegInf
  | Fin _, NegInf => PosInf
  end.

(** [x / y]; a zero divisor gives an infinity of the sign of the dividend
    (there being no negative zero), and [0 / 0] is [NaN]. *)
Definition num_div (x y : number) : number :=
  match x, y with
  | NaN, _ | _, NaN => NaN
  | Fin a, Fin b =>
      if Qeq_bool b 0 then
        if Qeq_bool a 0 then NaN
        else if Qle_bool 0 a then PosInf else NegInf
      else Fin (a / b)
  | Fin _, _ => Fin 0
  | PosInf, Fin b => if Qle_bool 0 b then PosInf else NegInf
  | NegInf, Fin b => if Qle_bool 0 b then NegInf else PosInf
  | _, _ => NaN
  end.

(** [x <= y]; every comparison with [NaN] is false. *)
Definition num_leb (x y : number) : bool :=
  match x, y with
  | NaN, _ | _, NaN => false
  | Fin a, Fin b => Qle_bool a b
  | NegInf, _ => true
  | _, PosInf => true
  | _, _ => false
  end.

(** [x >= y] *)
Definition num_geb (x y : number) : bool := num_leb y x.

Declare Scope num_scope.
Delimit Scope num_scope with num.
Bind Scope num_scope with number.
Infix "-" := num_sub : num_scope.
Infix "/" := num_div : num_scope.
Infix "<=?" := num_leb : num_scope.
Infix ">=?" := num_geb : num_scope.

(** Decimal literals of the source, at their decimal value. *)
Definition lit (q : Q) : number := Fin q.

(** ** backend.ts: data types *)

Record Component : Type := mkComponent {
  key : string;
  c_score : number
}.

Record Pillar : Type := mkPillar {
  name : string;
  p_score : number;
  components : list Component
}.

Record HeatmapResponse : Type := mkHeatmapResponse {
  r_asset : string;
  r_score : number;
  scale : number * number;
  pillars : list Pillar;
  as_of : string;
  version : string
}.

Inductive Bias : Type :=
| VeryBullish   (* 'Very Bullish' *)
| Bullish       (* 'Bullish' *)
| Neutral       (* 'Neutral' *)
| Bearish       (* 'Bearish' *)
| VeryBearish.  (* 'Very Bearish' *)

(** [ScoreRange = -2 | -1 | 0 | 1 | 2]: the literals are kept as integers,
    membership in the five values is a theorem below. *)
Definition ScoreRange : Type := Z.

(** ** backend.ts: normalizeScore, getBias *)

(** [normalizeScore] with exact arithmetic; [normalizeScore_binary64] below
    is the function on the numbers that the engine computes with. *)
Definition normalizeScore (score : number) (scale : number * number) : ScoreRange :=
  let '(min, max) := scale in
  let normalized := ((score - min) / (max - min))%num in
  if (normalized <=? lit (1 # 10))%num then -2
  else if (normalized <=? lit (3 # 10))%num then -1
  else if (normalized <=? lit (7 # 10))%num then 0
  else if (normalized <=? lit (9 # 10))%num then 1
  else 2.

Definition getBias (score : number) : Bias :=
  if (score >=? lit 15)%num then VeryBullish
  else if (score >=? lit 8)%num then Bullish
  else if (score >=? lit (-7))%num then Neutral
  else if (score >=? lit (-15))%num then Bearish
  else VeryBearish.

(** The buckets as a function of an exact ratio [t]. *)
Definition bucket (t : Q) : Z :=
  if Qle_bool t (1 # 10) then -2
  else if Qle_bool t (3 # 10) then -1
  else if Qle_bool t (7 # 10) then 0
  else if Qle_bool t (9 # 10) then 1
  else 2.

(** ** backend.ts: transformBackendResponse *)

(** The letters [A]-[Z]. *)
Definition is_upper (c : ascii) : bool :=
  let n := nat_of_ascii c in ((65 <=? n) && (n <=? 90))%nat.

Definition lower_ascii (c : ascii) : ascii :=
  if is_upper c then ascii_of_nat (nat_of_ascii c + 32) else c.

(** [String.prototype.toLowerCase] on the letters [A]-[Z]; every other
    character is left as it is (none of them has a lower-case image among
    the letters of the three pillar labels). *)
Fixpoint toLowerCase (s : string) : string :=
  match s with
  | EmptyString => EmptyString
  | String c s' => String (lower_ascii c) (toLowerCase s')
  end.

(** [Date]: either parsed from a string ([new Date(s)]) or read from the
    clock ([new Date()], the clock value being an input of the model). *)
Inductive Date : Type :=
| DateParse (s : string)
| DateNow (t : Z).

Record HeatmapAsset : Type := mkHeatmapAsset {
  asset : string;
  bias : Bias;
  score : number;
  sentiment : gmap string ScoreRange;
  technical : gmap string ScoreRange;
  economic : gmap string ScoreRange;
  a_lastUpdated : Date
}.

(** The three local objects [sentiment], [technical], [economic] that the
    two nested [forEach] loops write to. *)
Record Records : Type := mkRecords {
  rec_sentiment : gmap string ScoreRange;
  rec_technical : gmap string ScoreRange;
  rec_economic : gmap string ScoreRange
}.

Definition no_records : Records := mkRecords ∅ ∅ ∅.

(** The property names that every object created by [{}] or by
    [JSON.parse] inherits from [Object.prototype] (ECMAScript, 20.1.3 and
    B.2.2): all are functions, except [__proto__], an accessor that gives
    the prototype object. *)
Definition Object_prototype : list string :=
  [ "constructor"; "hasOwnProperty"; "isPrototypeOf"; "propertyIsEnumerable";
    "toLocaleString"; "toString"; "valueOf"; "__proto__";
    "__defineGetter__"; "__defineSetter__"; "__lookupGetter__";
    "__lookupSetter__" ].

(** [object[name] = value] for a number [value], on an object that was
    created by [{}] and has only been written to in this way.  The object
    inherits from [Object.prototype], where [__proto__] is an accessor whose
    setter ignores a value that is neither an object nor [null]: that
    assignment leaves the object as it is.  Every other name of
    [Object.prototype] is a writable data property, so the assignment
    creates or updates an own property, as it does for a name that is not
    inherited. *)
Definition assign (object : gmap string ScoreRange) (name : string)
    (value : ScoreRange) : gmap string ScoreRange :=
  if String.eqb name "__proto__" then object else <[name := value]> object.

(** Body of the inner [forEach]: one component of [pillar]. *)
Definition route_component (response : HeatmapResponse) (pillar : Pillar)
    (acc : Records) (component : Component) : Records :=
  let normalizedScore := normalizeScore (c_score component) (scale response) in
  let label := toLowerCase (name pillar) in
  if String.eqb label "sentiment" then
    mkRecords (assign (rec_sentiment acc) (key component) normalizedScore)
              (rec_technical acc) (rec_economic acc)
  else if String.eqb label "technical" then
    mkRecords (rec_sentiment acc)
              (assign (rec_technical acc) (key component) normalizedScore)
              (rec_economic acc)
  else if String.eqb label "economic" then
    mkRecords (rec_sentiment acc) (rec_technical acc)
              (assign (rec_economic acc) (key component) normalizedScore)
  else acc.

(** Body of the outer [forEach]: all components of one pillar, in order. *)
Definition route_pillar (response : HeatmapResponse) (acc : Records)
    (pillar : Pillar) : Records :=
  fold_left (route_component response pillar) (components pillar) acc.

Definition transformBackendResponse (response : HeatmapResponse) : HeatmapAsset :=
  let recs := fold_left (route_pillar response) (pillars response) no_records in
  {| asset := r_asset response;
     bias := getBias (r_score response);
     score := r_score response;
     sentiment := rec_sentiment recs;
     technical := rec_technical recs;
     economic := rec_economic recs;
     a_lastUpdated := DateParse (as_of response) |}.

(** *** The routing rule in the words of the specification *)

(** Two characters that differ at most by letter case. *)
Definition same_letter (a b : ascii) : Prop :=
  a = b \/
  (exists n, (65 <= n <= 90)%nat /\
     ((a = ascii_of_nat n /\ b = ascii_of_nat (n + 32)) \/
      (b = ascii_of_nat n /\ a = ascii_of_nat (n + 32)))).

(** Case-insensitive match of two strings. *)
Inductive matches_ignoring_case : string -> string -> Prop :=
| mic_nil : matches_ignoring_case EmptyString EmptyString
| mic_cons a b s t :
    same_letter a b -> matches_ignoring_case s t ->
    matches_ignoring_case (String a s) (String b t).

(** The components, in response order, of the pillars that [label] selects. *)
Definition routed (label : string) (response : HeatmapResponse) : list Component :=
  concat (map components
    (filter (fun p => toLowerCase (name p) = label) (pillars response))).

(** The entry for key [k] after the writes for [cs], the last write
    prevailing. *)
Fixpoint last_write (sc : number * number) (cs : list Component) (k : string)
    : option ScoreRange :=
  match cs with
  | [] => None
  | c :: cs' =>
      match last_write sc cs' k with
      | Some v => Some v
      | None => if String.eqb (key c) k
                then Some (normalizeScore (c_score c) sc) else None
      end
  end.

(** A string without upper-case letters. *)
Fixpoint no_upper (s : string) : bool :=
  match s with
  | EmptyString => true
  | String c s' => negb (is_upper c) && no_upper s'
  end.

(** The components whose key an assignment can give an entry to: all but
    those with the key [__proto__]. *)
Definition settable (cs : list Component) : list Component :=
  List.filter (fun c => negb (String.eqb (key c) "__proto__")) cs.

(** One write of the inner loop, on the object it goes to. *)
Definition write (sc : number * number) (m : gmap string ScoreRange)
    (c : Component) : gmap string ScoreRange :=
  assign m (key c) (normalizeScore (c_score c) sc).

(** The object of [acc] that belongs to one of the three labels. *)
Definition field_of (label : string) (acc : Records) : gmap string ScoreRange :=
  if String.eqb label "sentiment" then rec_sentiment acc
  else if String.eqb label "technical" then rec_technical acc
  else rec_economic acc.

Definition labels : list string := ["sentiment"; "technical"; "economic"].

(** A pillar whose name is one of the three labels, up to case. *)
Definition recognised (p : Pillar) : bool :=
  let label := toLowerCase (name p) in
  String.eqb label "sentiment" || String.eqb label "technical"
  || String.eqb label "economic".

(** The response without the pillars that no label selects. *)
Definition only_recognised (response : HeatmapResponse) : HeatmapResponse :=
  {| r_asset := r_asset response; r_score := r_score response;
     scale := scale response;
     pillars := List.filter recognised (pillars response);
     as_of := as_of response; version := version response |}.

(** ** client.ts: values, errors, promises *)

(** A decoded payload, the result of [response.json()]. An object is the
    list of its own properties (one entry per key). *)
Inductive json : Type :=
| JNull
| JBool (b : bool)
| JNumber (n : number)
| JString (s : string)
| JArray (items : list json)
| JObject (fields : list (string * json)).

(** A thrown value: an [Error] instance with its [message] ([TypeError] and
    [SyntaxError] included), or any other value. *)
Inductive exn : Type :=
| Error (message : string)
| NonError.

(** A promise, by the way it settles ([PromiseSettledResult]). *)
Inductive settled (A : Type) : Type :=
| fulfilled (value : A)
| rejected (reason : exn).
Arguments fulfilled {A} value.
Arguments rejected {A} reason.

Definition status {A} (result : settled A) : string :=
  match result with
  | fulfilled _ => "fulfilled"
  | rejected _ => "rejected"
  end.

Definition value {A} (result : settled A) : option A :=
  match result with
  | fulfilled v => Some v
  | rejected _ => None
  end.

(** [await] in a [try] with no handler of its own: the first rejection is
    the result. *)
#[global] Instance settled_ret : MRet settled := fun _ v => fulfilled v.
#[global] Instance settled_bind : MBind settled := fun _ _ k m =>
  match m with
  | fulfilled v => k v
  | rejected e => rejected e
  end.

(** [Promise.allSettled]: one result per promise, at the same position. *)
Definition allSettled {A} (promises : list (settled A)) : list (settled A) :=
  promises.

(** ** client.ts: validateResponse *)

(** [!data] is [negb (truthy data)]. *)
Definition truthy (data : json) : bool :=
  match data with
  | JNull => false
  | JBool b => b
  | JNumber (Fin q) => negb (Qeq_bool q 0)
  | JNumber NaN => false
  | JNumber _ => true
  | JString s => negb (String.eqb s EmptyString)
  | JArray _ | JObject _ => true
  end.

Definition typeof (data : json) : string :=
  match data with
  | JNull | JArray _ | JObject _ => "object"
  | JBool _ => "boolean"
  | JNumber _ => "number"
  | JString _ => "string"
  end.

(** [field in data], applied to objects and arrays only (own properties; the
    prototypes have none of the names asked for here). *)
Definition has_property (field : string) (data : json) : bool :=
  match data with
  | JObject fields => bool_decide (field ∈ fields.*1)
  | JArray items =>
      bool_decide (field ∈ "length" :: (pretty <$> seq 0 (length items)))
  | _ => false
  end.

Fixpoint assoc (field : string) (fields : list (string * json)) : option json :=
  match fields with
  | [] => None
  | (k, v) :: rest => if String.eqb k field then Some v else assoc field rest
  end.

(** [data.field] for a name that is not an array index; [None] is
    [undefined]. *)
Definition get (field : string) (data : json) : option json :=
  match data with
  | JObject fields => assoc field fields
  | _ => None
  end.

Definition isArray (v : option json) : bool :=
  match v with
  | Some (JArray _) => true
  | _ => false
  end.

(** [v.length] of an array. *)
Definition array_length (v : option json) : option nat :=
  match v with
  | Some (JArray items) => Some (length items)
  | _ => None
  end.

Definition required : list string :=
  ["asset"; "score"; "scale"; "pillars"; "as_of"; "version"].

(** The [for (const field of required)] loop. *)
Fixpoint check_required (data : json) (fields : list string) : settled unit :=
  match fields with
  | [] => fulfilled tt
  | field :: rest =>
      if negb (has_property field data)
      then rejected (Error ("Missing required field: " +:+ field))
      else check_required data rest
  end.

Section Validate.

(** The cast [data as HeatmapResponse] has no run-time effect: what comes
    back is [data] itself.  [R] is the type at which the caller reads it:
    [json] with the identity for the value that is there at run time, or
    the record type [HeatmapResponse] with a reading of the payload at the
    declared type. *)
Context {R : Type}.
Variable as_HeatmapResponse : json -> R.

Definition validateResponse (data : json) : settled R :=
  if negb (truthy data) || negb (String.eqb (typeof data) "object") then
    rejected (Error "Invalid response format")
  else
    _ ← check_required data required;
    if negb (isArray (get "pillars" data)) then
      rejected (Error "Pillars must be an array")
    else if negb (isArray (get "scale" data))
            || negb (bool_decide (array_length (get "scale" data) = Some 2%nat)) then
      rejected (Error "Scale must be a tuple of two numbers")
    else
      fulfilled (as_HeatmapResponse data).

End Validate.

(** What the validator lets through. *)
Definition accepted_shape (data : json) : Prop :=
  exists fields, data = JObject fields
    /\ (forall f, f ∈ required -> f ∈ fields.*1)
    /\ (exists items, get "pillars" data = Some (JArray items))
    /\ (exists a b, get "scale" data = Some (JArray [a; b])).

(** The accepted payloads in the words of the specification: key [scale]
    holds exactly two numeric elements. *)
Definition is_number (v : json) : Prop := exists n, v = JNumber n.

Definition specified_shape (data : json) : Prop :=
  exists fields, data = JObject fields
    /\ (forall f, f ∈ required -> f ∈ fields.*1)
    /\ (exists items, get "pillars" data = Some (JArray items))
    /\ (exists a b, get "scale" data = Some (JArray [a; b])
                    /\ is_number a /\ is_number b).

(** Decimal digits, for the index names of an array. *)
Definition is_digit (c : ascii) : bool :=
  let n := nat_of_ascii c in ((48 <=? n) && (n <=? 57))%nat.

Fixpoint ends_with_digit (s : string) : bool :=
  match s with
  | EmptyString => false
  | String c EmptyString => is_digit c
  | String _ s' => ends_with_digit s'
  end.

(** A payload read field by field at the types of [HeatmapResponse]: the
    record that a payload of that shape stands for.  A field that is missing
    or has another type is read as [NaN], the empty string or the empty
    list, which is not what the code makes of it (module [Runtime] follows
    the code on such payloads). *)
Definition as_number (v : option json) : number :=
  match v with Some (JNumber n) => n | _ => NaN end.

Definition as_string (v : option json) : string :=
  match v with Some (JString s) => s | _ => EmptyString end.

Definition as_list (v : option json) : list json :=
  match v with Some (JArray items) => items | _ => [] end.

Definition read_component (v : json) : Component :=
  {| key := as_string (get "key" v); c_score := as_number (get "score" v) |}.

Definition read_pillar (v : json) : Pillar :=
  {| name := as_string (get "name" v);
     p_score := as_number (get "score" v);
     components := map read_component (as_list (get "components" v)) |}.

Definition read_response (data : json) : HeatmapResponse :=
  {| r_asset := as_string (get "asset" data);
     r_score := as_number (get "score" data);
     scale := (as_number (as_list (get "scale" data) !! 0%nat),
               as_number (as_list (get "scale" data) !! 1%nat));
     pillars := map read_pillar (as_list (get "pillars" data));
     as_of := as_string (get "as_of" data);
     version := as_string (get "version" data) |}.

(** ** client.ts: HeatmapApiClient *)

(** The fields of [HeatmapConfig] that the client and the refresh cycle read
    (the others only concern rendering); [None] is an absent field. *)
Record HeatmapConfig : Type := mkHeatmapConfig {
  apiBaseUrl : string;
  cfg_refreshInterval : option Z;
  assets : list string;
  cfg_maxRetries : option Z
}.

Record HeatmapApiClient : Type := mkHeatmapApiClient {
  baseUrl : string;
  maxRetries : Z
}.

(** [s.replace(/\/$/, '')]: one slash at the end of the string is removed. *)
Fixpoint strip_trailing_slash (s : string) : string :=
  match s with
  | EmptyString => EmptyString
  | String c EmptyString => if Ascii.eqb c "/" then EmptyString else s
  | String c s' => String c (strip_trailing_slash s')
  end.

(** [v || d] on an optional integer: [undefined] and [0] are falsy. *)
Definition or_default (v : option Z) (d : Z) : Z :=
  match v with
  | Some n => if n =? 0 then d else n
  | None => d
  end.

Definition new_HeatmapApiClient (config : HeatmapConfig) : HeatmapApiClient :=
  {| baseUrl := strip_trailing_slash (apiBaseUrl config);
     maxRetries := or_default (cfg_maxRetries config) 3 |}.

(** [encodeURIComponent], on a string read as its UTF-8 bytes. *)
Definition unreserved (c : ascii) : bool :=
  let n := nat_of_ascii c in
  ((65 <=? n) && (n <=? 90) || (97 <=? n) && (n <=? 122)
   || (48 <=? n) && (n <=? 57))%nat
  || bool_decide (c ∈ ["-"; "_"; "."; "!"; "~"; "*"; "'"; "("; ")"]%char).

Definition hex_digit (n : nat) : ascii :=
  if (n <? 10)%nat then ascii_of_nat (48 + n) else ascii_of_nat (55 + n).

Fixpoint encodeURIComponent (s : string) : string :=
  match s with
  | EmptyString => EmptyString
  | String c s' =>
      if unreserved c then String c (encodeURIComponent s')
      else
        let n := nat_of_ascii c in
        String "%" (String (hex_digit (n / 16)) (String (hex_digit (n mod 16))
          (encodeURIComponent s')))
  end.

(** What [fetch] resolves to. [body] is the result of [response.json()],
    rejected when the body is not JSON. *)
Record Response : Type := mkResponse {
  r_status : Z;
  statusText : string;
  body : settled json
}.

(** [response.ok] *)
Definition ok (response : Response) : bool :=
  (200 <=? r_status response) && (r_status response <=? 299).

(** What the client does that the outside can see. *)
Inductive event : Type :=
| EvFetch (url : string)
| EvDelay (ms : Z).

Section Client.

Context {R : Type}.
Variable as_HeatmapResponse : json -> R.

(** The network: how the [GET] of [url] settles at the attempt made with
    the given value of [retries]. *)
Variable fetch : string -> Z -> settled Response.

Variable this : HeatmapApiClient.

(** The [try] block of [fetchWithRetry]. *)
Definition attempt (url : string) (retries : Z) : settled R :=
  response ← fetch url retries;
  if negb (ok response) then
    rejected (Error ("HTTP " +:+ pretty (r_status response) +:+ ": "
                     +:+ statusText response))
  else
    data ← body response;
    validateResponse as_HeatmapResponse data.

(** [fetchWithRetry], with the trace of its requests and delays. *)
Equations? fetchWithRetry (url : string) (retries : Z)
    : settled R * list event
    by wf (Z.to_nat (maxRetries this - retries)) lt :=
  fetchWithRetry url retries with attempt url retries => {
    | fulfilled v => (fulfilled v, [EvFetch url]);
    | rejected error with Z_lt_dec retries (maxRetries this) => {
        | left _ =>
            let r := fetchWithRetry url (retries + 1) in
            (r.1, EvFetch url :: EvDelay (2 ^ retries * 1000) :: r.2);
        | right _ => (rejected error, [EvFetch url]) } }.
Proof. lia. Qed.

Definition getHeatmap (asset : string) : settled R * list event :=
  let url := baseUrl this +:+ "/heatmap?asset=" +:+ encodeURIComponent asset in
  fetchWithRetry url 0.

Definition getMultipleHeatmaps (assets : list string)
    : settled (list R) :=
  let promises := map (fun asset => (getHeatmap asset).1) assets in
  let results := allSettled promises in
  fulfilled
    (omap value (filter (fun result => status result = "fulfilled") results)).

End Client.

(** ** backend.ts / client.ts: the ApiClient interface *)

(** [interface ApiClient], at the declared types; a [Promise<T>] is given by
    how it settles. *)
Class ApiClient (C : Type) : Type := {
  api_getHeatmap : C -> string -> settled HeatmapResponse;
  api_getMultipleHeatmaps : C -> list string -> settled (list HeatmapResponse)
}.

(** The real client, over a network and a reading of the cast. *)
Record NetworkClient : Type := mkNetworkClient {
  nc_cast : json -> HeatmapResponse;
  nc_fetch : string -> Z -> settled Response;
  nc_this : HeatmapApiClient
}.

#[export] Instance NetworkClient_ApiClient : ApiClient NetworkClient := {
  api_getHeatmap c asset := (getHeatmap (nc_cast c) (nc_fetch c) (nc_this c) asset).1;
  api_getMultipleHeatmaps c assets :=
    getMultipleHeatmaps (nc_cast c) (nc_fetch c) (nc_this c) assets
}.

(** [class MockApiClient]: the fixture table; [created] is the value of
    [new Date().toISOString()] when the table was built.  The random delay
    before each answer has no effect on the answer.  Its two methods are
    given in [Runtime], on the values they return at run time. *)
Record MockApiClient : Type := mkMockApiClient {
  created : string
}.

Definition int (z : Z) : number := Fin (inject_Z z).

Definition mockData (this : MockApiClient) : list (string * HeatmapResponse) :=
  [ ("USOIL",
     {| r_asset := "USOIL"; r_score := int 13; scale := (int (-24), int 24);
        pillars :=
          [ mkPillar "sentiment" (int 4)
              [ mkComponent "cot" (int 2); mkComponent "retailPos" (int 2) ];
            mkPillar "technical" (int 3)
              [ mkComponent "seasonality" (int 1); mkComponent "trend" (int 2) ];
            mkPillar "economic" (int 6)
              [ mkComponent "gdp" (int 1); mkComponent "mPMI" (int 1);
                mkComponent "sPMI" (int 1); mkComponent "retailSales" (int 1);
                mkComponent "inflation" (int 1);
                mkComponent "employmentChange" (int 1) ] ];
        as_of := created this; version := "2025.08.1" |});
    ("USD",
     {| r_asset := "USD"; r_score := int 10; scale := (int (-24), int 24);
        pillars :=
          [ mkPillar "sentiment" (int 3)
              [ mkComponent "cot" (int 1); mkComponent "retailPos" (int 2) ];
            mkPillar "technical" (int 3)
              [ mkComponent "seasonality" (int 1); mkComponent "trend" (int 2) ];
            mkPillar "economic" (int 4)
              [ mkComponent "gdp" (int 1); mkComponent "mPMI" (int 1);
                mkComponent "sPMI" (int 1); mkComponent "inflation" (int 1) ] ];
        as_of := created this; version := "2025.08.1" |});
    ("EUR",
     {| r_asset := "EUR"; r_score := int (-4); scale := (int (-24), int 24);
        pillars :=
          [ mkPillar "sentiment" (int (-1))
              [ mkComponent "cot" (int (-1)); mkComponent "retailPos" (int 0) ];
            mkPillar "technical" (int (-1))
              [ mkComponent "seasonality" (int (-1)); mkComponent "trend" (int 0) ];
            mkPillar "economic" (int (-2))
              [ mkComponent "gdp" (int (-1)); mkComponent "retailSales" (int (-1)) ] ];
        as_of := created this; version := "2025.08.1" |}) ].

Fixpoint mock_lookup (asset : string) (table : list (string * HeatmapResponse))
    : option HeatmapResponse :=
  match table with
  | [] => None
  | (k, v) :: rest => if String.eqb k asset then Some v else mock_lookup asset rest
  end.

(** ** EdgeFinderHeatmap.svelte: the state and the refresh cycle *)

(** [data] is the array as [loadData] stores it.  When the component
    renders, [$: sortedData = $state.data.sort(...)] sorts this array in
    place; the field still refers to the same array, with the same assets
    ([sortedData] below gives their order). *)
Record HeatmapState : Type := mkHeatmapState {
  data : list HeatmapAsset;
  loading : bool;
  error : option string;
  lastUpdated : option Date
}.

Definition initial_state : HeatmapState :=
  {| data := []; loading := true; error := None; lastUpdated := None |}.

(** [error instanceof Error ? error.message : 'Unknown error'] *)
Definition error_text (e : exn) : string :=
  match e with
  | Error message => message
  | NonError => "Unknown error"
  end.

(** [loadData] up to its [await]: the first [state.update]. *)
Definition loadData_start (s : HeatmapState) : HeatmapState :=
  {| data := data s; loading := true; error := None;
     lastUpdated := lastUpdated s |}.

(** [loadData] after its [await], for responses of the declared type: the
    rest of the [try] block when the batch call fulfilled, the [catch] block
    when it rejected.  Both apply their [state.update] to the state [s]
    current at that time; [now] is the clock.  On responses of the declared
    type the transformer has no failing step; [Runtime.loadData_resume] is
    the same function on the payloads as they are at run time, where it
    has. *)
Definition loadData_resume (outcome : settled (list HeatmapResponse)) (now : Z)
    (s : HeatmapState) : HeatmapState :=
  match outcome with
  | fulfilled responses =>
      let transformedData := map transformBackendResponse responses in
      {| data := transformedData; loading := false; error := error s;
         lastUpdated := Some (DateNow now) |}
  | rejected e =>
      {| data := data s; loading := false; error := Some (error_text e);
         lastUpdated := lastUpdated s |}
  end.

(** One refresh cycle that runs without another one in between. *)
Definition loadData `{ApiClient C} (apiClient : C) (config : HeatmapConfig)
    (now : Z) (s : HeatmapState) : HeatmapState :=
  loadData_resume (api_getMultipleHeatmaps apiClient (assets config)) now
    (loadData_start s).

(** ** EdgeFinderHeatmap.svelte: life cycle and timer *)

Inductive Phase : Type := Created | Mounted | Destroyed.

(** The component with the part of its environment it interacts with:
    [timers] are the interval timers that are set and not cleared,
    [in_flight] counts the calls of [loadData] waiting at their [await]. *)
Record Widget : Type := mkWidget {
  state : HeatmapState;
  refreshInterval : option positive;
  phase : Phase;
  timers : gset positive;
  in_flight : nat
}.

Definition initial_widget : Widget :=
  {| state := initial_state; refreshInterval := None; phase := Created;
     timers := ∅; in_flight := 0 |}.

Inductive Event : Type :=
| EMount                     (* the component is mounted *)
| ETick (id : positive)      (* the interval timer [id] fires *)
| EClick                     (* the refresh or retry button *)
| ESettle (outcome : settled (list HeatmapResponse)) (now : Z)
                             (* a pending batch call settles *)
| EDestroy.                  (* the component is destroyed *)

(** A call of [loadData] runs to its [await]. *)
Definition call_loadData (w : Widget) : Widget :=
  {| state := loadData_start (state w); refreshInterval := refreshInterval w;
     phase := phase w; timers := timers w; in_flight := S (in_flight w) |}.

(** [config.refreshInterval && config.refreshInterval > 0] *)
Definition wants_interval (config : HeatmapConfig) : bool :=
  match cfg_refreshInterval config with
  | Some n => negb (n =? 0) && (0 <? n)
  | None => false
  end.

Definition onMount (config : HeatmapConfig) (w : Widget) : Widget :=
  let w1 := call_loadData w in
  if wants_interval config then
    let id := fresh (timers w1) in
    {| state := state w1; refreshInterval := Some id; phase := Mounted;
       timers := {[id]} ∪ timers w1; in_flight := in_flight w1 |}
  else
    {| state := state w1; refreshInterval := refreshInterval w1;
       phase := Mounted; timers := timers w1; in_flight := in_flight w1 |}.

Definition onDestroy (w : Widget) : Widget :=
  match refreshInterval w with
  | Some id =>
      {| state := state w; refreshInterval := refreshInterval w;
         phase := Destroyed; timers := timers w ∖ {[id]};
         in_flight := in_flight w |}
  | None =>
      {| state := state w; refreshInterval := refreshInterval w;
         phase := Destroyed; timers := timers w; in_flight := in_flight w |}
  end.

(** One event; [None] when the event cannot happen in [w].  In
    [ESettle outcome now] a pending call of [loadData] goes on after its
    [await]: with [fulfilled responses] through the [try] block to its end,
    with [rejected e] into the [catch] block, which is also where an
    exception [e] thrown by a transformation ends.  A click is let
    through in every mounted component: the template offers the Refresh
    button only while [loading] is false and the Retry button only while
    [error] is set, so the runs of the component are among the runs
    described here. *)
Definition step (config : HeatmapConfig) (ev : Event) (w : Widget) : option Widget :=
  match ev with
  | EMount =>
      match phase w with Created => Some (onMount config w) | _ => None end
  | ETick id =>
      if bool_decide (id ∈ timers w) then Some (call_loadData w) else None
  | EClick =>
      match phase w with Mounted => Some (call_loadData w) | _ => None end
  | ESettle outcome now =>
      match in_flight w with
      | O => None
      | S n =>
          Some {| state := loadData_resume outcome now (state w);
                  refreshInterval := refreshInterval w; phase := phase w;
                  timers := timers w; in_flight := n |}
      end
  | EDestroy =>
      match phase w with Mounted => Some (onDestroy w) | _ => None end
  end.

Fixpoint run (config : HeatmapConfig) (evs : list Event) (w : Widget) : option Widget :=
  match evs with
  | [] => Some w
  | ev :: rest =>
      match step config ev w with
      | Some w' => run config rest w'
      | None => None
      end
  end.

(** ** Reading a trace *)

(** The requests of a trace, and their number. *)
Definition requests (tr : list event) : list string :=
  omap (fun ev => match ev with EvFetch url => Some url | EvDelay _ => None end) tr.

Definition attempts (tr : list event) : nat := length (requests tr).

(** The delays of a trace, in order, in milliseconds. *)
Definition delays (tr : list event) : list Z :=
  omap (fun ev => match ev with EvDelay ms => Some ms | EvFetch _ => None end) tr.

(** An endpoint that answers every request with status 500. *)
Definition always_500 : string -> Z -> settled Response :=
  fun _ _ => fulfilled (mkResponse 500 "Internal Server Error" (rejected NonError)).

(** A payload with the six keys whose [scale] holds two strings. *)
Definition string_scale_payload : json :=
  JObject [ ("asset", JString "USD"); ("score", JNumber (int 10));
            ("scale", JArray [JString "low"; JString "high"]);
            ("pillars", JArray []);
            ("as_of", JString "2025-08-01T00:00:00Z");
            ("version", JString "2025.08.1") ].

(** The trace of [n] failed attempts, each followed by its delay, and a last
    attempt; [retries] is the counter at the first of them. *)
Fixpoint backoff_trace (url : string) (n : nat) (retries : Z) : list event :=
  match n with
  | O => [EvFetch url]
  | S n' =>
      EvFetch url :: EvDelay (2 ^ retries * 1000)
        :: backoff_trace url n' (retries + 1)
  end.

(** ** Batch calls *)

(** The shared body of the two [getMultipleHeatmaps]: the values of the
    fulfilled calls, for any [getHeatmap]. *)
Definition fulfilled_values {A} (results : list (settled A)) : list A :=
  omap value (filter (fun result => status result = "fulfilled") results).

(** A call that fulfils. *)
Definition succeeds {A} (call : string -> settled A) (asset : string) : Prop :=
  status (call asset) = "fulfilled".

#[global] Instance succeeds_dec {A} (call : string -> settled A) (asset : string) :
  Decision (succeeds call asset).
Proof. unfold succeeds. apply _. Defined.

(** ** The values at run time *)

(** The declared types are not checked when the program runs.  What a client
    hands to the component is the decoded payload itself, of which
    [validateResponse] has only checked the six keys and the two arrays, or,
    for the fixture client, the object found under the symbol.  This part
    follows [normalizeScore], [transformBackendResponse] and [loadData] on
    such values.  The evaluation of a call has one of three outcomes; a step
    that the code performs and that is not described here (the conversion of
    a string, an array or an object to a number or to a property name) ends
    it with [Unmodelled]. *)
Inductive outcome (A : Type) : Type :=
| Normal (v : A)      (* the call returns [v] *)
| Throws (e : exn)    (* the call throws [e] *)
| Unmodelled.         (* the call takes a step that is not described *)
Arguments Normal {A} v.
Arguments Throws {A} e.
Arguments Unmodelled {A}.

#[global] Instance outcome_ret : MRet outcome := fun _ v => Normal v.
#[global] Instance outcome_bind : MBind outcome := fun _ _ k m =>
  match m with
  | Normal v => k v
  | Throws e => Throws e
  | Unmodelled => Unmodelled
  end.

(** A loop over an array whose body can throw: the first exception ends
    it. *)
Fixpoint fold_outcome {S A} (body : S -> A -> outcome S) (items : list A) (s : S)
    : outcome S :=
  match items with
  | [] => Normal s
  | item :: rest => s' ← body s item; fold_outcome body rest s'
  end.

(** [items.map(f)] for an [f] that can throw. *)
Fixpoint map_outcome {A B} (f : A -> outcome B) (items : list A) : outcome (list B) :=
  match items with
  | [] => Normal []
  | item :: rest => v ← f item; vs ← map_outcome f rest; Normal (v :: vs)
  end.

(** A value of the declared type as the object it is at run time. *)
Definition Component_to_json (c : Component) : json :=
  JObject [ ("key", JString (key c)); ("score", JNumber (c_score c)) ].

Definition Pillar_to_json (p : Pillar) : json :=
  JObject [ ("name", JString (name p)); ("score", JNumber (p_score p));
            ("components", JArray (map Component_to_json (components p))) ].

Definition HeatmapResponse_to_json (r : HeatmapResponse) : json :=
  JObject [ ("asset", JString (r_asset r)); ("score", JNumber (r_score r));
            ("scale", JArray [JNumber (scale r).1; JNumber (scale r).2]);
            ("pillars", JArray (map Pillar_to_json (pillars r)));
            ("as_of", JString (as_of r)); ("version", JString (version r)) ].

(** The second [state.update] of [loadData], in the [try] block and in the
    [catch] block. *)
Definition try_update (transformedData : list HeatmapAsset) (now : Z)
    (s : HeatmapState) : HeatmapState :=
  {| data := transformedData; loading := false; error := error s;
     lastUpdated := Some (DateNow now) |}.

Definition catch_update (e : exn) (s : HeatmapState) : HeatmapState :=
  {| data := data s; loading := false; error := Some (error_text e);
     lastUpdated := lastUpdated s |}.

Module Runtime.

(** The value of [apiClient]: an instance of one of the two classes, the
    network client together with the network it talks to. *)
Inductive Client : Type :=
| Mock (this : MockApiClient)
| Network (fetch : string -> Z -> settled Response) (this : HeatmapApiClient).

(** [apiClient = useMockData ? new MockApiClient() : new HeatmapApiClient(config)] *)
Definition apiClient (useMockData : bool) (config : HeatmapConfig)
    (created : string) (fetch : string -> Z -> settled Response) : Client :=
  if useMockData then Mock (mkMockApiClient created)
  else Network fetch (new_HeatmapApiClient config).

(** [MockApiClient.getHeatmap]: [asset in this.mockData] also holds for
    the names that the table inherits from [Object.prototype]; what is
    found under such a name has no enumerable property of its own, so the
    copy [{ ...this.mockData[asset] }] is the empty object. *)
Definition mock_getHeatmap (this : MockApiClient) (asset : string) : settled json :=
  match mock_lookup asset (mockData this) with
  | Some response => fulfilled (HeatmapResponse_to_json response)
  | None =>
      if bool_decide (asset ∈ Object_prototype) then fulfilled (JObject [])
      else rejected (Error ("Asset " +:+ asset +:+ " not found"))
  end.

(** [getMultipleHeatmaps] of either class. *)
Definition getMultipleHeatmaps (apiClient : Client) (assets : list string)
    : settled (list json) :=
  match apiClient with
  | Mock this =>
      let promises := map (mock_getHeatmap this) assets in
      let results := allSettled promises in
      fulfilled
        (omap value (filter (fun result => status result = "fulfilled") results))
  | Network fetch this => getMultipleHeatmaps (fun data => data) fetch this assets
  end.

Section Engine.

(** The message of the [TypeError] that the engine throws when [expression]
    cannot be evaluated because of the value [v] it meets ([None] is
    [undefined]); the wording differs from engine to engine. *)
Variable TypeError_message : string -> option json -> string.

Definition TypeError {A} (expression : string) (v : option json) : outcome A :=
  Throws (Error (TypeError_message expression v)).

(** [base.field] for one of the names that the code reads ([pillars],
    [components], [name], [key], [score], [scale], [asset], [as_of]), none
    of which is inherited: reading from [null] throws, and a value without
    that property gives [undefined]. *)
Definition member (expression : string) (base : json) (field : string)
    : outcome (option json) :=
  match base with
  | JNull => TypeError expression (Some JNull)
  | _ => Normal (get field base)
  end.

(** [array.forEach(callback)]: only an array has the method; a decoded
    payload holds no function, so for every other value the call throws. *)
Definition forEach {S} (expression : string) (array : option json)
    (callback : S -> json -> outcome S) (s : S) : outcome S :=
  match array with
  | Some (JArray items) => fold_outcome callback items s
  | _ => TypeError expression array
  end.

(** The conversion of an operand of [-] or [/] to a number. *)
Definition ToNumber (v : option json) : outcome number :=
  match v with
  | None => Normal NaN
  | Some (JNumber n) => Normal n
  | Some JNull => Normal (Fin 0)
  | Some (JBool b) => Normal (if b then Fin 1 else Fin 0)
  | Some (JString _) | Some (JArray _) | Some (JObject _) => Unmodelled
  end.

(** The conversion of [component.key] to a property name. *)
Definition ToPropertyKey (v : option json) : outcome string :=
  match v with
  | Some (JString s) => Normal s
  | None => Normal "undefined"
  | Some JNull => Normal "null"
  | Some (JBool b) => Normal (if b then "true" else "false")
  | Some (JNumber _) | Some (JArray _) | Some (JObject _) => Unmodelled
  end.

(** [normalizeScore]: [const [min, max] = scale] takes the first two elements
    of an array and throws for a value that cannot be iterated. *)
Definition normalizeScore (score scale : option json) : outcome ScoreRange :=
  match scale with
  | Some (JArray items) =>
      s ← ToNumber score;
      min ← ToNumber (items !! 0%nat);
      max ← ToNumber (items !! 1%nat);
      Normal (normalizeScore s (min, max))
  | Some (JString _) => Unmodelled
  | _ => TypeError "[min, max] = scale" scale
  end.

(** [pillar.name.toLowerCase()] *)
Definition call_toLowerCase (v : option json) : outcome string :=
  match v with
  | Some (JString s) => Normal (toLowerCase s)
  | _ => TypeError "pillar.name.toLowerCase" v
  end.

(** Body of the inner [forEach]. *)
Definition route_component (response pillar : json) (acc : Records)
    (component : json) : outcome Records :=
  score ← member "component.score" component "score";
  scale ← member "response.scale" response "scale";
  normalizedScore ← normalizeScore score scale;
  name ← member "pillar.name" pillar "name";
  label ← call_toLowerCase name;
  if String.eqb label "sentiment" then
    key ← member "component.key" component "key";
    k ← ToPropertyKey key;
    Normal (mkRecords (assign (rec_sentiment acc) k normalizedScore)
                      (rec_technical acc) (rec_economic acc))
  else if String.eqb label "technical" then
    key ← member "component.key" component "key";
    k ← ToPropertyKey key;
    Normal (mkRecords (rec_sentiment acc)
                      (assign (rec_technical acc) k normalizedScore)
                      (rec_economic acc))
  else if String.eqb label "economic" then
    key ← member "component.key" component "key";
    k ← ToPropertyKey key;
    Normal (mkRecords (rec_sentiment acc) (rec_technical acc)
                      (assign (rec_economic acc) k normalizedScore))
  else Normal acc.

(** Body of the outer [forEach]. *)
Definition route_pillar (response : json) (acc : Records) (pillar : json)
    : outcome Records :=
  components ← member "pillar.components" pillar "components";
  forEach "pillar.components.forEach" components (route_component response pillar) acc.

(** The fields of the result that are copied or computed from a field of
    the response, for a field of the declared type. *)
Definition string_field (v : option json) : outcome string :=
  match v with
  | Some (JString s) => Normal s
  | _ => Unmodelled
  end.

Definition number_field (v : option json) : outcome number :=
  match v with
  | Some (JNumber n) => Normal n
  | _ => Unmodelled
  end.

Definition transformBackendResponse (response : json) : outcome HeatmapAsset :=
  pillars ← member "response.pillars" response "pillars";
  recs ← forEach "response.pillars.forEach" pillars (route_pillar response) no_records;
  asset ← string_field (get "asset" response);
  score ← number_field (get "score" response);
  as_of ← string_field (get "as_of" response);
  Normal {| asset := asset;
            bias := getBias score;
            score := score;
            sentiment := rec_sentiment recs;
            technical := rec_technical recs;
            economic := rec_economic recs;
            a_lastUpdated := DateParse as_of |}.

(** [loadData] after its [await]: [responses.map(transformBackendResponse)]
    and the [state.update] of the [try] block, or the one of the [catch]
    block when the batch call rejected or a transformation threw. *)
Definition loadData_resume (result : settled (list json)) (now : Z)
    (s : HeatmapState) : option HeatmapState :=
  match result with
  | fulfilled responses =>
      match map_outcome transformBackendResponse responses with
      | Normal transformedData => Some (try_update transformedData now s)
      | Throws e => Some (catch_update e s)
      | Unmodelled => None
      end
  | rejected e => Some (catch_update e s)
  end.

(** One refresh cycle that runs without another one in between. *)
Definition loadData (apiClient : Client) (config : HeatmapConfig) (now : Z)
    (s : HeatmapState) : option HeatmapState :=
  loadData_resume (getMultipleHeatmaps apiClient (assets config)) now
    (loadData_start s).

End Engine.

End Runtime.

(** What the run-time model can throw: a [TypeError] with the message of
    the engine. *)
Definition is_TypeError (TypeError_message : string -> option json -> string)
    (e : exn) : Prop :=
  exists expression v, e = Error (TypeError_message expression v).

(** A payload that [validateResponse] lets through, with a pillar that has
    no [components], and an endpoint that always sends it. *)
Definition no_components_payload : json :=
  JObject [ ("asset", JString "USD"); ("score", JNumber (int 10));
            ("scale", JArray [JNumber (int (-24)); JNumber (int 24)]);
            ("pillars", JArray [ JObject [ ("name", JString "sentiment");
                                           ("score", JNumber (int 4)) ] ]);
            ("as_of", JString "2025-08-01T00:00:00Z");
            ("version", JString "2025.08.1") ].

Definition always_no_components : string -> Z -> settled Response :=
  fun _ _ => fulfilled (mkResponse 200 "OK" (fulfilled no_components_payload)).

(** A state with one asset on display. *)
Definition shown_state : HeatmapState :=
  {| data := [ {| asset := "EUR"; bias := Neutral; score := int (-4);
                  sentiment := {[ "cot" := -1 ]}; technical := ∅; economic := ∅;
                  a_lastUpdated := DateParse "2025-08-01T00:00:00Z" |} ];
     loading := false; error := None;
     lastUpdated := Some (DateNow 1754000000000) |}.

(** ** Reachable widgets *)

(** The only timer there can be is the one in [refreshInterval]. *)
Definition timers_owned (w : Widget) : Prop :=
  match phase w with
  | Created => timers w = ∅ /\ refreshInterval w = None
  | Mounted =>
      (timers w = ∅ /\ refreshInterval w = None)
      \/ (exists id, timers w = {[id]} /\ refreshInterval w = Some id)
  | Destroyed => timers w = ∅
  end.

Definition is_settle (ev : Event) : Prop :=
  exists outcome now, ev = ESettle outcome now.

(** A configuration with a refresh period of 30 s. *)
Definition sample_config : HeatmapConfig :=
  mkHeatmapConfig "http://localhost:8000/" (Some 30000) ["USD"; "EUR"] (Some 1).

(** ** binary64 *)

(** [normalizeScore] on the numbers that the engine computes with: IEEE 754
    binary64, every operation rounded to nearest, ties to even.  The four
    literals are the binary64 numbers nearest to 0.1, 0.3, 0.7 and 0.9; a
    comparison with [NaN] is false. *)
Definition normalizeScore_binary64 (score : float) (scale : float * float)
    : ScoreRange :=
  let '(min, max) := scale in
  let normalized := ((score - min) / (max - min))%float in
  if (normalized <=? 0.1)%float then -2
  else if (normalized <=? 0.3)%float then -1
  else if (normalized <=? 0.7)%float then 0
  else if (normalized <=? 0.9)%float then 1
  else 2.

(** The chain of comparisons, on the computed ratio. *)
Definition bucket_binary64 (normalized : float) : Z :=
  if (normalized <=? 0.1)%float then -2
  else if (normalized <=? 0.3)%float then -1
  else if (normalized <=? 0.7)%float then 0
  else if (normalized <=? 0.9)%float then 1
  else 2.

(** [(min + max) / 2], as the engine computes it. *)
Definition midpoint (scale : float * float) : float :=
  ((scale.1 + scale.2) / 2)%float.

Definition binary64_of_Z (z : Z) : float :=
  match z with
  | Z0 => 0%float
  | Zpos _ => PrimFloat.of_uint63 (Uint63.of_Z z)
  | Zneg p => PrimFloat.opp (PrimFloat.of_uint63 (Uint63.of_Z (Zpos p)))
  end.

(** The midpoint of the scale [[a, b]] is in bucket 0, and this for all
    integers [lo <= a < b <= hi]. *)
Definition midpoint_ok (a b : Z) : bool :=
  let scale := (binary64_of_Z a, binary64_of_Z b) in
  normalizeScore_binary64 (midpoint scale) scale =? 0.

Definition all_midpoints_ok (lo hi : Z) : bool :=
  forallb (fun a => forallb (midpoint_ok a) (seqZ (a + 1) (hi - a)))
    (seqZ lo (hi - lo)).

(** Numbers in the representation of the specification of binary64
    ([SpecFloat]): the finite ones, zeros included, and those that are
    neither a zero nor [NaN]. *)
Definition SFfinite (x : spec_float) : Prop :=
  match x with
  | S754_zero _ | S754_finite _ _ _ => True
  | _ => False
  end.

Definition SFnonzero (x : spec_float) : Prop :=
  match x with
  | S754_finite _ _ _ | S754_infinity _ => True
  | _ => False
  end.

(** Those above and those below zero. *)
Definition SFpositive (x : spec_float) : Prop :=
  match x with
  | S754_finite false _ _ | S754_infinity false => True
  | _ => False
  end.

Definition SFnegative (x : spec_float) : Prop :=
  match x with
  | S754_finite true _ _ | S754_infinity true => True
  | _ => False
  end.

(** ** Orders on the labels *)

(** The labels of [getBias] from the most bearish to the most bullish. *)
Definition Bias_rank (b : Bias) : Z :=
  match b with
  | VeryBearish => -2
  | Bearish => -1
  | Neutral => 0
  | Bullish => 1
  | VeryBullish => 2
  end.

(** The label on the other side of [Neutral]. *)
Definition Bias_mirror (b : Bias) : Bias :=
  match b with
  | VeryBearish => VeryBullish
  | Bearish => Bullish
  | Neutral => Neutral
  | Bullish => Bearish
  | VeryBullish => VeryBearish
  end.

(** ** Reading the result of the transformer *)

(** The map of a display asset that belongs to one of the three labels. *)
Definition asset_map (label : string) (a : HeatmapAsset) : gmap string ScoreRange :=
  if String.eqb label "sentiment" then sentiment a
  else if String.eqb label "technical" then technical a
  else economic a.

(** The response with other pillars. *)
Definition with_pillars (ps : list Pillar) (response : HeatmapResponse)
    : HeatmapResponse :=
  {| r_asset := r_asset response; r_score := r_score response;
     scale := scale response; pillars := ps;
     as_of := as_of response; version := version response |}.

(** The messages of the validator. *)
Definition validation_messages : list string :=
  "Invalid response format"
  :: "Pillars must be an array"
  :: "Scale must be a tuple of two numbers"
  :: ((fun field => "Missing required field: " +:+ field) <$> required).

(** ** Reading a call of the client *)

(** The time a trace spends waiting, in milliseconds. *)
Definition total_delay (tr : list event) : Z := foldr Z.add 0 (delays tr).

(** The address that [getHeatmap] asks. *)
Definition heatmap_url (this : HeatmapApiClient) (asset : string) : string :=
  baseUrl this +:+ "/heatmap?asset=" +:+ encodeURIComponent asset.

(** A payload of the expected shape and an endpoint that always sends it. *)
Definition usd_payload : json :=
  JObject [ ("asset", JString "USD"); ("score", JNumber (int 10));
            ("scale", JArray [JNumber (int (-24)); JNumber (int 24)]);
            ("pillars", JArray []);
            ("as_of", JString "2025-08-01T00:00:00Z");
            ("version", JString "2025.08.1") ].

Definition always_usd : string -> Z -> settled Response :=
  fun _ _ => fulfilled (mkResponse 200 "OK" (fulfilled usd_payload)).

(** The characters that [encodeURIComponent] can produce for a byte. *)
Definition is_hex (c : ascii) : bool :=
  let n := nat_of_ascii c in
  ((48 <=? n) && (n <=? 57) || (65 <=? n) && (n <=? 70))%nat.

Definition url_safe (c : ascii) : bool :=
  unreserved c || Ascii.eqb c "%" || is_hex c.

(** ** Counting cycles *)

(** The events in which a batch call fulfils. *)
Definition is_success (ev : Event) : Prop :=
  exists responses now, ev = ESettle (fulfilled responses) now.

(** What holds of the state and the timers in every reachable widget. *)
Definition widget_invariant (config : HeatmapConfig) (w : Widget) : Prop :=
  match phase w with
  | Created =>
      in_flight w = 0%nat /\ timers w = ∅ /\ refreshInterval w = None
      /\ state w = initial_state
  | Mounted =>
      (in_flight w = 0%nat -> loading (state w) = false)
      /\ (if wants_interval config
          then exists id, timers w = {[id]} /\ refreshInterval w = Some id
          else timers w = ∅ /\ refreshInterval w = None)
  | Destroyed =>
      (in_flight w = 0%nat -> loading (state w) = false) /\ timers w = ∅
  end.

(** ** backend.ts: colour tables.  EdgeFinderHeatmap.svelte: display helpers *)

Definition SCORE_COLORS : list (string * string) :=
  [ ("-2", "bg-red-600 text-white");
    ("-1", "bg-red-300 text-red-900");
    ("0", "bg-gray-200 text-gray-700");
    ("1", "bg-blue-300 text-blue-900");
    ("2", "bg-blue-600 text-white") ].

(** [table[key]]; [None] is [undefined]. *)
Fixpoint property (key : string) (table : list (string * string)) : option string :=
  match table with
  | [] => None
  | (k, v) :: rest => if String.eqb k key then Some v else property key rest
  end.

(** [a || b] on optional strings: [undefined] and the empty string are
    falsy. *)
Definition or_string (a b : option string) : option string :=
  match a with
  | Some s => if String.eqb s EmptyString then b else a
  | None => b
  end.

(** [getCellColor], on the integers that the maps hold; [String(value)] is
    the decimal numeral. *)
Definition getCellColor (value : Z) : option string :=
  let key := pretty value in
  or_string (property key SCORE_COLORS) (property "0" SCORE_COLORS).

(** [object[name]], read from one of the three maps: the own property when
    there is one, else what the object inherits from [Object.prototype] (a
    function, or for [__proto__] the prototype itself), else [undefined]. *)
Inductive property_read : Type :=
| OwnNumber (v : ScoreRange)
| Inherited
| Undefined.

Definition read_property (object : gmap string ScoreRange) (name : string)
    : property_read :=
  match object !! name with
  | Some v => OwnNumber v
  | None =>
      if bool_decide (name ∈ Object_prototype) then Inherited else Undefined
  end.

(** The value of a cell in the table, [item.sentiment[key] || 0]: [0] and
    [undefined] are falsy; an inherited function or object is truthy, and
    the cell then holds it instead of a number ([None]). *)
Definition cell_value (m : gmap string ScoreRange) (key : string) : option Z :=
  match read_property m key with
  | OwnNumber v => Some (if v =? 0 then 0 else v)
  | Undefined => Some 0
  | Inherited => None
  end.

(** [Array.prototype.sort] with a comparator: the sort is stable, and an
    element goes behind another one when the comparator gives a positive
    number for the pair ([NaN] counts as 0). *)
Definition positive_number (v : number) : bool :=
  match v with
  | Fin q => negb (Qle_bool q 0)
  | PosInf => true
  | NegInf | NaN => false
  end.

Fixpoint sort_insert {A} (compareFn : A -> A -> number) (x : A) (l : list A)
    : list A :=
  match l with
  | [] => [x]
  | y :: l' =>
      if positive_number (compareFn x y) then y :: sort_insert compareFn x l'
      else x :: l
  end.

Definition sort {A} (compareFn : A -> A -> number) (l : list A) : list A :=
  foldr (sort_insert compareFn) [] l.

(** [$: sortedData = $state.data.sort((a, b) => b.score - a.score)] *)
Definition sortedData (data : list HeatmapAsset) : list HeatmapAsset :=
  sort (fun a b => (score b - score a)%num) data.

(** An asset with a finite score, and the order of the rows. *)
Definition finite_score (a : HeatmapAsset) : Prop := exists q, score a = Fin q.

Definition not_below (a b : HeatmapAsset) : Prop :=
  exists qa qb, score a = Fin qa /\ score b = Fin qb /\ (qb <= qa)%Q.

Definition has_score (q : Q) (a : HeatmapAsset) : bool :=
  match score a with
  | Fin p => Qeq_bool p q
  | _ => false
  end.

(** Payloads whose fields have the declared types, as far as
    [transformBackendResponse] reads them. *)
Definition Component_typed (v : json) : Prop :=
  exists k n, get "key" v = Some (JString k) /\ get "score" v = Some (JNumber n).

Definition Pillar_typed (v : json) : Prop :=
  exists nm cs,
    get "name" v = Some (JString nm)
    /\ get "components" v = Some (JArray cs)
    /\ Forall Component_typed cs.

Definition HeatmapResponse_typed (data : json) : Prop :=
  exists a n lo hi ps d,
    get "asset" data = Some (JString a)
    /\ get "score" data = Some (JNumber n)
    /\ get "scale" data = Some (JArray [JNumber lo; JNumber hi])
    /\ get "pillars" data = Some (JArray ps)
    /\ Forall Pillar_typed ps
    /\ get "as_of" data = Some (JString d).

(** A network whose answers with a status in 200-299 carry payloads of the
    declared types. *)
Definition serves_typed (fetch : string -> Z -> settled Response) : Prop :=
  forall url i response data,
    fetch url i = fulfilled response -> ok response = true ->
    body response = fulfilled data ->
    HeatmapResponse_typed data.


(** * Properties *)

(** ** ScoreNormalizer *)

Section ScoreNormalizer.

Local Open Scope Q_scope.

Lemma Qle_bool_false (a b : Q) : Qle_bool a b = false <-> b < a.
Proof.
  split; intros Hab.
  - destruct (Qlt_le_dec b a) as [Hlt | Hle]; [exact Hlt |].
    apply Qle_bool_iff in Hle. congruence.
  - destruct (Qle_bool a b) eqn:E; [| reflexivity].
    apply Qle_bool_iff in E. lra.
Qed.

(** With [min < max] the ratio of finite numbers is the exact quotient. *)
Lemma normalized_finite (s lo hi : Q) :
  lo < hi ->
  (num_div (num_sub (Fin s) (Fin lo)) (num_sub (Fin hi) (Fin lo)))
  = Fin ((s - lo) / (hi - lo)).
Proof.
  intros Hlt. cbn.
  destruct (Qeq_bool (hi - lo) 0) eqn:E; [| reflexivity].
  apply Qeq_bool_iff in E. lra.
Qed.

Lemma normalizeScore_finite (s lo hi : Q) :
  lo < hi ->
  normalizeScore (Fin s) (Fin lo, Fin hi) = bucket ((s - lo) / (hi - lo)).
Proof.
  intros Hlt. unfold normalizeScore. rewrite normalized_finite by exact Hlt.
  reflexivity.
Qed.

Lemma bucket_mono (t u : Q) : t <= u -> (bucket t <= bucket u)%Z.
Proof.
  intros Htu. unfold bucket.
  destruct (Qle_bool u (1 # 10)) eqn:U1;
    [apply Qle_bool_iff in U1 | apply Qle_bool_false in U1];
  (destruct (Qle_bool u (3 # 10)) eqn:U3;
    [apply Qle_bool_iff in U3 | apply Qle_bool_false in U3]);
  (destruct (Qle_bool u (7 # 10)) eqn:U7;
    [apply Qle_bool_iff in U7 | apply Qle_bool_false in U7]);
  (destruct (Qle_bool u (9 # 10)) eqn:U9;
    [apply Qle_bool_iff in U9 | apply Qle_bool_false in U9]);
  (destruct (Qle_bool t (1 # 10)) eqn:T1;
    [apply Qle_bool_iff in T1 | apply Qle_bool_false in T1]);
  (destruct (Qle_bool t (3 # 10)) eqn:T3;
    [apply Qle_bool_iff in T3 | apply Qle_bool_false in T3]);
  (destruct (Qle_bool t (7 # 10)) eqn:T7;
    [apply Qle_bool_iff in T7 | apply Qle_bool_false in T7]);
  (destruct (Qle_bool t (9 # 10)) eqn:T9;
    [apply Qle_bool_iff in T9 | apply Qle_bool_false in T9]);
  try lia; exfalso; lra.
Qed.

(** The ratio grows with the score when the scale has positive width. *)
Lemma ratio_mono (s1 s2 lo hi : Q) :
  lo < hi -> s1 <= s2 -> (s1 - lo) / (hi - lo) <= (s2 - lo) / (hi - lo).
Proof.
  intros Hlt Hs. unfold Qdiv.
  apply Qmult_le_compat_r; [lra |].
  apply Qlt_le_weak, Qinv_lt_0_compat. lra.
Qed.

(** The five values, whatever the arguments (special values included). *)
Lemma normalizeScore_range (s : number) (sc : number * number) :
  normalizeScore s sc ∈ [(-2)%Z; (-1)%Z; 0%Z; 1%Z; 2%Z].
Proof.
  unfold normalizeScore. destruct sc as [lo hi].
  repeat match goal with
         | |- context [if ?b then _ else _] => destruct b
         end; set_solver.
Qed.

End ScoreNormalizer.

(** *** binary64: subtraction and division *)

Lemma shr_1_div2 (mrs : shr_record) :
  0 <= shr_m mrs -> shr_m (shr_1 mrs) = shr_m mrs / 2.
Proof.
  destruct mrs as [m r s]. cbn [shr_m]. intros Hm.
  rewrite <- Z.div2_div.
  destruct m as [| [p | p |] |]; try reflexivity; lia.
Qed.

Lemma iter_pos_shr_1 (p : positive) (mrs : shr_record) :
  0 <= shr_m mrs ->
  shr_m (SpecFloat.iter_pos shr_1 p mrs) = shr_m mrs / 2 ^ Z.pos p.
Proof.
  revert mrs. induction p as [p IH | p IH |]; intros mrs Hm; cbn [SpecFloat.iter_pos].
  - assert (H1 : 0 <= shr_m (shr_1 mrs)).
    { rewrite shr_1_div2 by exact Hm. apply Z.div_pos; lia. }
    assert (H2 : 0 <= shr_m (SpecFloat.iter_pos shr_1 p (shr_1 mrs))).
    { rewrite IH by exact H1. apply Z.div_pos; lia. }
    rewrite IH, IH, shr_1_div2 by assumption.
    rewrite !Z.div_div by lia. f_equal.
    replace (Z.pos p~1) with (1 + Z.pos p + Z.pos p) by lia.
    rewrite !Z.pow_add_r by lia. lia.
  - assert (H2 : 0 <= shr_m (SpecFloat.iter_pos shr_1 p mrs)).
    { rewrite IH by exact Hm. apply Z.div_pos; lia. }
    rewrite IH, IH by assumption.
    rewrite !Z.div_div by lia. f_equal.
    replace (Z.pos p~0) with (Z.pos p + Z.pos p) by lia.
    rewrite !Z.pow_add_r by lia. lia.
  - rewrite shr_1_div2 by exact Hm. reflexivity.
Qed.

Lemma digits2_pos_le (m : positive) : 2 ^ (Z.pos (digits2_pos m) - 1) <= Z.pos m.
Proof.
  induction m as [m IH | m IH |]; cbn [digits2_pos].
  - rewrite Pos2Z.inj_succ.
    replace (Z.succ (Z.pos (digits2_pos m)) - 1) with (Z.succ (Z.pos (digits2_pos m) - 1)) by lia.
    rewrite Z.pow_succ_r by lia. lia.
  - rewrite Pos2Z.inj_succ.
    replace (Z.succ (Z.pos (digits2_pos m)) - 1) with (Z.succ (Z.pos (digits2_pos m) - 1)) by lia.
    rewrite Z.pow_succ_r by lia. lia.
  - reflexivity.
Qed.

Lemma shr_m_of_loc (m : Z) (l : location) : shr_m (shr_record_of_loc m l) = m.
Proof. destruct l as [| []]; reflexivity. Qed.

Lemma shr_fexp_pos (m e : Z) (l : location) :
  0 < m -> emin <= e ->
  0 < shr_m (fst (shr_fexp prec emax m e l))
  /\ emin <= snd (shr_fexp prec emax m e l).
Proof.
  intros Hm He. unfold shr_fexp, shr.
  destruct m as [| p |]; try lia. cbn [Zdigits2].
  pose proof (digits2_pos_le p) as Hd.
  set (d := Z.pos (digits2_pos p)) in *.
  unfold fexp.
  destruct (Z.max (d + e - prec) (emin) - e) as [| n | n] eqn:En;
    cbn [fst snd]; rewrite ?shr_m_of_loc; try (split; lia).
  split; [| lia].
  rewrite iter_pos_shr_1 by (rewrite shr_m_of_loc; lia).
  rewrite shr_m_of_loc.
  assert (Hn : Z.pos n <= d - 1) by (unfold prec in *; lia).
  apply Z.div_str_pos. split; [apply Z.pow_pos_nonneg; lia |].
  etransitivity; [| exact Hd]. apply Z.pow_le_mono_r; lia.
Qed.

Lemma round_nearest_even_pos (m : Z) (l : location) :
  0 < m -> 0 < round_nearest_even m l.
Proof.
  intros Hm. unfold round_nearest_even.
  destruct l as [| []]; try lia. destruct (Z.even m); lia.
Qed.

Lemma binary_round_aux_nonzero (sx : bool) (mx ex : Z) (lx : location) :
  0 < mx -> emin <= ex ->
  SFnonzero (binary_round_aux prec emax sx mx ex lx).
Proof.
  intros Hm He. unfold binary_round_aux.
  pose proof (shr_fexp_pos mx ex lx Hm He) as [H1 H2].
  destruct (shr_fexp prec emax mx ex lx) as [mrs' e']. cbn [fst snd] in H1, H2.
  pose proof (round_nearest_even_pos (shr_m mrs') (loc_of_shr_record mrs') H1) as H3.
  pose proof (shr_fexp_pos _ e' loc_Exact H3 H2) as [H4 _].
  destruct (shr_fexp prec emax _ e' loc_Exact) as [mrs'' e'']. cbn [fst] in H4.
  destruct (shr_m mrs'') as [| p | p]; try lia.
  destruct (Z.leb e'' (emax - prec)); exact I.
Qed.

Lemma binary_normalize_nonzero (m e : Z) (szero : bool) :
  m <> 0 -> emin <= e ->
  SFnonzero (binary_normalize prec emax m e szero).
Proof.
  intros Hm He.
  assert (H : forall s p, SFnonzero (binary_round prec emax s p e)).
  { intros s p. unfold binary_round, shl_align.
    destruct (fexp prec emax (Z.pos (digits2_pos p) + e) - e) eqn:E;
      apply binary_round_aux_nonzero; try lia.
    unfold fexp. lia. }
  destruct m; [contradiction | apply H | apply H].
Qed.
Lemma div_eucl_shift (m : positive) :
  Z.div_eucl (Z.shiftl (Zpos m) 53) (Zpos m) = (2 ^ 53, 0).
Proof.
  rewrite Z.shiftl_mul_pow2 by lia.
  pose proof (Z.div_eucl_eq (Z.pos m * 2 ^ 53) (Z.pos m) ltac:(lia)) as H.
  pose proof (Z.mod_pos_bound (Z.pos m * 2 ^ 53) (Z.pos m) ltac:(lia)) as Hb.
  unfold Z.modulo in Hb.
  destruct (Z.div_eucl (Z.pos m * 2 ^ 53) (Z.pos m)) as [q r].
  assert (r = 0 /\ q = 2 ^ 53) as [-> ->]; [| reflexivity].
  assert (Hq : Z.pos m * (2 ^ 53 - q) = r) by lia.
  assert (2 ^ 53 - q = 0) by nia. split; nia.
Qed.

Lemma SFdiv_self (s : bool) (m : positive) (e : Z) :
  SFdiv prec emax (S754_finite s m e) (S754_finite s m e)
  = S754_finite false 4503599627370496 (-52).
Proof.
  unfold SFdiv, SFdiv_core_binary.
  replace (Zdigits2 (Z.pos m) + e - (Zdigits2 (Z.pos m) + e)) with 0 by lia.
  replace (e - e) with 0 by lia.
  change (Z.min (fexp prec emax 0) 0) with (-53).
  change (0 - -53) with 53.
  cbv zeta iota. rewrite div_eucl_shift.
  replace (xorb s s) with false by (now destruct s).
  assert (Hl : new_location (Z.pos m) 0 = loc_Exact).
  { unfold new_location, new_location_even, new_location_odd.
    now destruct (Z.even (Z.pos m)). }
  rewrite Hl. reflexivity.
Qed.

Lemma valid_finite (s : bool) (m : positive) (e : Z) :
  valid_binary (S754_finite s m e) = true ->
  fexp prec emax (Z.pos (digits2_pos m) + e) = e.
Proof.
  cbn [SpecFloat.valid_binary]. unfold bounded, canonical_mantissa.
  intros H. apply andb_prop in H as [H _]. now apply Z.eqb_eq.
Qed.

Lemma digits2_pos_iter_xO (m d : positive) :
  digits2_pos (Pos.iter xO m d) = (digits2_pos m + d)%positive.
Proof.
  induction d as [| d IH] using Pos.peano_ind.
  - cbn. lia.
  - rewrite Pos.iter_succ. cbn [digits2_pos]. rewrite IH. lia.
Qed.

Lemma shl_align_digits (m : positive) (e ez : Z) :
  ez <= e ->
  Z.pos (digits2_pos (fst (shl_align m e ez))) + ez = Z.pos (digits2_pos m) + e.
Proof.
  intros Hle. unfold shl_align.
  destruct (ez - e) as [| d | d] eqn:E; cbn [fst]; try lia.
  rewrite digits2_pos_iter_xO. lia.
Qed.

Lemma shl_align_same (m : positive) (e : Z) : fst (shl_align m e e) = m.
Proof. unfold shl_align. now rewrite Z.sub_diag. Qed.

(** Two valid finite numbers whose aligned mantissas are equal have the
    same mantissa and exponent. *)
Lemma aligned_eq (mx my : positive) (ex ey : Z) (sx sy : bool) :
  valid_binary (S754_finite sx mx ex) = true ->
  valid_binary (S754_finite sy my ey) = true ->
  fst (shl_align my ey (Z.min ey ex)) = fst (shl_align mx ex (Z.min ey ex)) ->
  mx = my /\ ex = ey.
Proof.
  intros Hx Hy Heq.
  apply valid_finite in Hx, Hy.
  pose proof (shl_align_digits mx ex (Z.min ey ex) ltac:(lia)) as Dx.
  pose proof (shl_align_digits my ey (Z.min ey ex) ltac:(lia)) as Dy.
  rewrite Heq in Dy.
  assert (E : ex = ey) by (rewrite <- Hx, <- Hy; f_equal; lia).
  subst ey. rewrite Z.min_id, !shl_align_same in Heq. now split.
Qed.

Lemma SFltb_irrefl (s : bool) (m : positive) (e : Z) :
  SFltb (S754_finite s m e) (S754_finite s m e) = false.
Proof.
  unfold SFltb, SFcompare. rewrite Z.compare_refl, Pos.compare_cont_refl.
  now destruct s.
Qed.

Lemma SFsub_self (x : spec_float) :
  SFfinite x ->
  SFsub prec emax x x = S754_zero false.
Proof.
  destruct x as [s | s | | s m e]; try contradiction; intros _.
  - now destruct s.
  - unfold SFsub. rewrite Z.min_id, shl_align_same, Z.sub_diag. reflexivity.
Qed.

(** The difference of two numbers, the smaller of them finite, is neither
    zero nor [NaN]. *)
Lemma SFsub_nonzero (x y : spec_float) :
  valid_binary x = true -> valid_binary y = true ->
  SFfinite x ->
  SFltb x y = true ->
  SFnonzero (SFsub prec emax y x).
Proof.
  intros Vx Vy Fx Hlt.
  destruct x as [sx | sx | | sx mx ex]; try contradiction;
    destruct y as [sy | sy | | sy my ey]; try discriminate Hlt;
    try exact I.
  - unfold SFsub. apply binary_normalize_nonzero.
    + intros Hz.
      assert (E : sx = sy /\ fst (shl_align my ey (Z.min ey ex))
                             = fst (shl_align mx ex (Z.min ey ex))).
      { destruct sx, sy; cbn [cond_Zopp] in Hz; split; try reflexivity; lia. }
      destruct E as [-> E].
      destruct (aligned_eq mx my ex ey sy sy Vx Vy E) as [-> ->].
      rewrite SFltb_irrefl in Hlt. discriminate.
    + apply valid_finite in Vx, Vy. unfold fexp in Vx, Vy. lia.
Qed.


Lemma is_finite_SF (x : float) :
  is_finite x = true -> SFfinite (Prim2SF x).
Proof.
  unfold is_finite, is_nan, is_infinity.
  rewrite !FloatAxioms.eqb_spec, FloatAxioms.abs_spec.
  destruct (Prim2SF x) as [s | s | | s m e]; try exact (fun _ => I).
  - destruct s; vm_compute; discriminate.
  - vm_compute. discriminate.
Qed.

Lemma normalizeScore_binary64_upper_end (min max : float) :
  normalizeScore_binary64 max (min, max) = 2.
Proof.
  unfold normalizeScore_binary64.
  set (w := (max - min)%float).
  assert (H : forall c : float,
             SFleb (S754_finite false 4503599627370496 (-52)) (Prim2SF c) = false ->
             (w / w <=? c)%float = false).
  { intros c Hc. rewrite FloatAxioms.leb_spec, FloatAxioms.div_spec. unfold SF64div.
    destruct (Prim2SF w) as [s | s | | s m e]; try reflexivity.
    rewrite SFdiv_self. exact Hc. }
  rewrite !H by (vm_compute; reflexivity). reflexivity.
Qed.

Lemma normalizeScore_binary64_lower_end (min max : float) :
  is_finite min = true -> (min <? max)%float = true ->
  normalizeScore_binary64 min (min, max) = -2.
Proof.
  intros Hfin Hlt. unfold normalizeScore_binary64.
  assert (H : ((min - min) / (max - min) <=? 0.1)%float = true); [| now rewrite H].
  apply is_finite_SF in Hfin. rewrite FloatAxioms.ltb_spec in Hlt.
  rewrite FloatAxioms.leb_spec, FloatAxioms.div_spec, !FloatAxioms.sub_spec. unfold SF64div, SF64sub.
  rewrite (SFsub_self _ Hfin).
  pose proof (SFsub_nonzero _ _ (Prim2SF_valid min) (Prim2SF_valid max) Hfin Hlt) as Hw.
  destruct (SFsub prec emax (Prim2SF max) (Prim2SF min)) as [s | s | | s m e];
    try contradiction; destruct s; vm_compute; reflexivity.
Qed.


Lemma SFcompare_antisym (x y : spec_float) :
  SFcompare y x = option_map CompOpp (SFcompare x y).
Proof.
  destruct x as [sx | sx | | sx mx ex], y as [sy | sy | | sy my ey];
    try reflexivity; try (destruct sx; reflexivity); try (destruct sy; reflexivity);
    try (destruct sx, sy; reflexivity).
  cbn. destruct sx, sy; try reflexivity; cbn;
    rewrite (Z.compare_antisym ex ey);
    destruct (ex ?= ey); cbn; try reflexivity;
    rewrite <- (Pos.compare_cont_antisym _ _ Eq); cbn;
    now destruct (Pos.compare_cont Eq _ _).
Qed.

Lemma SFcompare_refl (x : spec_float) :
  x <> S754_nan -> SFcompare x x = Some Eq.
Proof.
  destruct x as [s | s | | s m e]; try reflexivity.
  - now destruct s.
  - contradiction.
  - intros _. cbn. rewrite Z.compare_refl, Pos.compare_cont_refl. now destruct s.
Qed.

Lemma is_nan_SF (x : float) : is_nan x = true <-> Prim2SF x = S754_nan.
Proof.
  unfold is_nan. rewrite FloatAxioms.eqb_spec. unfold SFeqb. split.
  - destruct (Prim2SF x) as [s | s | | s m e] eqn:E; try reflexivity;
      rewrite SFcompare_refl by discriminate; discriminate.
  - now intros ->.
Qed.

(** [x <= c] fails exactly when [c < x] or [x] is [NaN]. *)
Lemma leb_false (x c : float) :
  is_nan c = false ->
  (x <=? c)%float = false <-> (c <? x)%float = true \/ is_nan x = true.
Proof.
  intros Hc. rewrite is_nan_SF, FloatAxioms.leb_spec, FloatAxioms.ltb_spec.
  assert (Hc' : Prim2SF c <> S754_nan).
  { intros E. apply is_nan_SF in E. congruence. }
  unfold SFleb, SFltb. rewrite (SFcompare_antisym (Prim2SF x) (Prim2SF c)).
  destruct (Prim2SF x) as [s | s | | s m e] eqn:Ex;
    destruct (SFcompare _ (Prim2SF c)) as [[] |] eqn:E; cbn;
    try (split; [discriminate | intros [H | H]; discriminate]);
    try (split; [intros _; now left | reflexivity]);
    try (split; [intros _; now right | reflexivity]).
  all: destruct (Prim2SF c) as [sc | sc | | sc mc ec]; try contradiction;
       cbn in E; try discriminate; try (destruct s; discriminate);
       try (destruct sc; discriminate).
Qed.

(** Below a positive number, below every larger one. *)
Lemma SFleb_mono (x : spec_float) (m1 m2 : positive) (e1 e2 : Z) :
  e1 < e2 \/ (e1 = e2 /\ (m1 <= m2)%positive) ->
  SFleb x (S754_finite false m1 e1) = true ->
  SFleb x (S754_finite false m2 e2) = true.
Proof.
  intros Hc. unfold SFleb.
  destruct x as [s | s | | s m e]; try (intros H; exact H); cbn.
  destruct s; [reflexivity |].
  destruct (Z.compare_spec e e1), (Z.compare_spec e e2); try lia;
    try reflexivity; try discriminate.
  rewrite !Pos.compare_cont_spec. cbn.
  destruct (Pos.compare_spec m m1), (Pos.compare_spec m m2); try lia;
    try reflexivity; discriminate.
Qed.

Lemma leb_mono (t c1 c2 : float) (m1 m2 : positive) (e1 e2 : Z) :
  Prim2SF c1 = S754_finite false m1 e1 ->
  Prim2SF c2 = S754_finite false m2 e2 ->
  e1 < e2 \/ (e1 = e2 /\ (m1 <= m2)%positive) ->
  (t <=? c1)%float = true -> (t <=? c2)%float = true.
Proof.
  intros E1 E2 Hc. rewrite !FloatAxioms.leb_spec, E1, E2. now apply SFleb_mono.
Qed.

Lemma bucket_binary64_cases (t : float) :
  (bucket_binary64 t = -2 <-> (t <=? 0.1)%float = true)
  /\ (bucket_binary64 t = -1 <-> (0.1 <? t)%float = true /\ (t <=? 0.3)%float = true)
  /\ (bucket_binary64 t = 0 <-> (0.3 <? t)%float = true /\ (t <=? 0.7)%float = true)
  /\ (bucket_binary64 t = 1 <-> (0.7 <? t)%float = true /\ (t <=? 0.9)%float = true)
  /\ (bucket_binary64 t = 2 <-> (0.9 <? t)%float = true \/ is_nan t = true).
Proof.
  pose proof (leb_mono t 0.1 0.3 _ _ _ _ eq_refl eq_refl ltac:(left; reflexivity)) as M13.
  pose proof (leb_mono t 0.3 0.7 _ _ _ _ eq_refl eq_refl ltac:(left; reflexivity)) as M37.
  pose proof (leb_mono t 0.7 0.9 _ _ _ _ eq_refl eq_refl
                ltac:(right; split; [reflexivity | discriminate])) as M79.
  pose proof (leb_false t 0.1 eq_refl) as F1.
  pose proof (leb_false t 0.3 eq_refl) as F3.
  pose proof (leb_false t 0.7 eq_refl) as F7.
  pose proof (leb_false t 0.9 eq_refl) as F9.
  unfold bucket_binary64.
  destruct (t <=? 0.1)%float, (t <=? 0.3)%float, (t <=? 0.7)%float,
    (t <=? 0.9)%float;
    try (specialize (M13 eq_refl)); try (specialize (M37 eq_refl));
    try (specialize (M79 eq_refl)); try discriminate.
  all: intuition (discriminate || lia).
Qed.

Lemma digits2_pos_gt (m : positive) : Z.pos m < 2 ^ Z.pos (digits2_pos m).
Proof.
  induction m as [m IH | m IH |]; cbn [digits2_pos];
    rewrite ?Pos2Z.inj_succ, ?Z.pow_succ_r by lia; lia.
Qed.

Lemma digits2_pos_lt (a b : positive) :
  Z.pos (digits2_pos a) < Z.pos (digits2_pos b) -> Z.pos a < Z.pos b.
Proof.
  intros H. pose proof (digits2_pos_gt a) as Ha. pose proof (digits2_pos_le b) as Hb.
  assert (2 ^ Z.pos (digits2_pos a) <= 2 ^ (Z.pos (digits2_pos b) - 1))
    by (apply Z.pow_le_mono_r; lia).
  lia.
Qed.

(** The aligned mantissas of two valid finite numbers are in the order of
    exponent and mantissa. *)
Lemma aligned_lt (mx my : positive) (ex ey ez : Z) (sx sy : bool) :
  valid_binary (S754_finite sx mx ex) = true ->
  valid_binary (S754_finite sy my ey) = true ->
  ez = Z.min ex ey ->
  ex < ey \/ (ex = ey /\ (mx < my)%positive) ->
  Z.pos (fst (shl_align mx ex ez)) < Z.pos (fst (shl_align my ey ez)).
Proof.
  intros Hx Hy -> Hlt.
  apply valid_finite in Hx, Hy.
  pose proof (shl_align_digits mx ex (Z.min ex ey) ltac:(lia)) as Dx.
  pose proof (shl_align_digits my ey (Z.min ex ey) ltac:(lia)) as Dy.
  destruct Hlt as [Hlt | [-> Hlt]].
  - apply digits2_pos_lt. unfold fexp in Hx, Hy. lia.
  - rewrite Z.min_id, !shl_align_same. lia.
Qed.

Lemma binary_round_aux_sign (sx : bool) (mx ex : Z) (lx : location) :
  SFnonzero (binary_round_aux prec emax sx mx ex lx) ->
  if sx then SFnegative (binary_round_aux prec emax sx mx ex lx)
  else SFpositive (binary_round_aux prec emax sx mx ex lx).
Proof.
  unfold binary_round_aux.
  destruct (shr_fexp prec emax mx ex lx) as [mrs' e'].
  destruct (shr_fexp prec emax _ e' loc_Exact) as [mrs'' e''].
  destruct (shr_m mrs'') as [| p | p]; try contradiction.
  destruct (Z.leb e'' (emax - prec)), sx; intros _; exact I.
Qed.

Lemma binary_normalize_sign (m e : Z) (szero : bool) :
  m <> 0 -> emin <= e ->
  if m <? 0 then SFnegative (binary_normalize prec emax m e szero)
  else SFpositive (binary_normalize prec emax m e szero).
Proof.
  intros Hm He. pose proof (binary_normalize_nonzero m e szero Hm He) as Hnz.
  destruct m as [| p | p]; [contradiction | |]; cbn [Z.ltb Z.compare];
    unfold binary_normalize, binary_round in *;
    destruct (shl_align p e _) as [mz ez];
    [apply (binary_round_aux_sign false) | apply (binary_round_aux_sign true)];
    exact Hnz.
Qed.

(** The order of two finite numbers in terms of sign, exponent and
    mantissa. *)
Lemma SFltb_finite (sx sy : bool) (mx my : positive) (ex ey : Z) :
  SFltb (S754_finite sx mx ex) (S754_finite sy my ey) = true ->
  (sx = true /\ sy = false)
  \/ (sx = false /\ sy = false /\ (ex < ey \/ (ex = ey /\ (mx < my)%positive)))
  \/ (sx = true /\ sy = true /\ (ey < ex \/ (ex = ey /\ (my < mx)%positive))).
Proof.
  unfold SFltb, SFcompare. destruct sx, sy; try discriminate.
  - intros H. right. right. split; [reflexivity |]. split; [reflexivity |].
    destruct (Z.compare_spec ex ey); try discriminate; [| left; lia].
    right. split; [assumption |].
    rewrite Pos.compare_cont_spec in H. cbn in H.
    destruct (Pos.compare_spec mx my); try discriminate; lia.
  - intros _. now left.
  - intros H. right. left. split; [reflexivity |]. split; [reflexivity |].
    destruct (Z.compare_spec ex ey); try discriminate; [| left; lia].
    right. split; [assumption |].
    rewrite Pos.compare_cont_spec in H. cbn in H.
    destruct (Pos.compare_spec mx my); try discriminate; lia.
Qed.

(** For [x < y] with a finite [x], [y - x] is positive and, when [y] is
    finite too, [x - y] is negative. *)
Lemma SFsub_sign (x y : spec_float) :
  valid_binary x = true -> valid_binary y = true ->
  SFfinite x -> SFltb x y = true ->
  SFpositive (SFsub prec emax y x)
  /\ (SFfinite y -> SFnegative (SFsub prec emax x y)).
Proof.
  intros Vx Vy Fx Hlt.
  destruct x as [sx | sx | | sx mx ex]; try contradiction;
    destruct y as [sy | sy | | sy my ey]; try discriminate Hlt.
  - destruct sy; [discriminate |]. split; [exact I | intros []].
  - destruct sy; [discriminate |]. split; [exact I | intros _; exact I].
  - destruct sx; [| discriminate]. split; [exact I | intros _; exact I].
  - destruct sy; [discriminate |]. split; [exact I | intros []].
  - pose proof (valid_finite _ _ _ Vx) as Ex. pose proof (valid_finite _ _ _ Vy) as Ey.
    unfold fexp in Ex, Ey.
    assert (Hord : forall ez, ez = Z.min ex ey ->
              cond_Zopp sx (Z.pos (fst (shl_align mx ex ez)))
              < cond_Zopp sy (Z.pos (fst (shl_align my ey ez)))).
    { intros ez Hez.
      destruct (SFltb_finite _ _ _ _ _ _ Hlt)
        as [[-> ->] | [(-> & -> & H) | (-> & -> & H)]]; cbn [cond_Zopp].
      - lia.
      - by apply (aligned_lt mx my ex ey ez false false).
      - assert (Z.pos (fst (shl_align my ey ez)) < Z.pos (fst (shl_align mx ex ez))).
        { apply (aligned_lt my mx ey ex ez true true); try assumption; lia. }
        lia. }
    unfold SFsub. split; [| intros _].
    + pose proof (Hord (Z.min ey ex) ltac:(lia)) as H.
      pose proof (binary_normalize_sign
                    (cond_Zopp sy (Z.pos (fst (shl_align my ey (Z.min ey ex))))
                     - cond_Zopp sx (Z.pos (fst (shl_align mx ex (Z.min ey ex)))))
                    (Z.min ey ex) false ltac:(lia) ltac:(lia)) as Hs.
      destruct (Z.ltb_spec (cond_Zopp sy (Z.pos (fst (shl_align my ey (Z.min ey ex))))
                     - cond_Zopp sx (Z.pos (fst (shl_align mx ex (Z.min ey ex))))) 0);
        [lia | exact Hs].
    + pose proof (Hord (Z.min ex ey) eq_refl) as H.
      pose proof (binary_normalize_sign
                    (cond_Zopp sx (Z.pos (fst (shl_align mx ex (Z.min ex ey))))
                     - cond_Zopp sy (Z.pos (fst (shl_align my ey (Z.min ex ey)))))
                    (Z.min ex ey) false ltac:(lia) ltac:(lia)) as Hs.
      destruct (Z.ltb_spec (cond_Zopp sx (Z.pos (fst (shl_align mx ex (Z.min ex ey))))
                     - cond_Zopp sy (Z.pos (fst (shl_align my ey (Z.min ex ey))))) 0);
        [exact Hs | lia].
Qed.

Lemma all_midpoints_ok_spec (lo hi a b : Z) :
  all_midpoints_ok lo hi = true -> lo <= a -> a < b -> b <= hi ->
  normalizeScore_binary64 (midpoint (binary64_of_Z a, binary64_of_Z b))
    (binary64_of_Z a, binary64_of_Z b) = 0.
Proof.
  unfold all_midpoints_ok. intros Hall Hlo Hab Hhi.
  rewrite forallb_forall in Hall.
  specialize (Hall a). rewrite <- list_elem_of_In, elem_of_seqZ in Hall.
  specialize (Hall ltac:(lia)). rewrite forallb_forall in Hall.
  specialize (Hall b). rewrite <- list_elem_of_In, elem_of_seqZ in Hall.
  specialize (Hall ltac:(lia)). unfold midpoint_ok in Hall.
  by apply Z.eqb_eq in Hall.
Qed.

Lemma midpoints_to_128 : all_midpoints_ok (-128) 128 = true.
Proof. vm_compute. reflexivity. Qed.




(** ** ResponseTransformer *)

Section Transformer.

Variable response : HeatmapResponse.

Lemma route_component_field (label : string) (p : Pillar) (acc : Records)
    (c : Component) :
  label ∈ labels ->
  field_of label (route_component response p acc c) =
  if String.eqb (toLowerCase (name p)) label
  then write (scale response) (field_of label acc) c
  else field_of label acc.
Proof.
  intros Hin. unfold route_component, write.
  destruct (String.eqb_spec (toLowerCase (name p)) "sentiment") as [E1 | N1];
    [| destruct (String.eqb_spec (toLowerCase (name p)) "technical") as [E2 | N2];
       [| destruct (String.eqb_spec (toLowerCase (name p)) "economic") as [E3 | N3]]];
    repeat match goal with H : toLowerCase _ = _ |- _ => rewrite H in * end;
    unfold labels in Hin;
    repeat (apply elem_of_cons in Hin as [-> | Hin]); try (by inversion Hin);
    try reflexivity;
    unfold field_of; cbn;
    repeat match goal with
           | |- context [String.eqb ?a ?b] =>
               destruct (String.eqb_spec a b); try congruence
           end.
Qed.

Lemma route_pillar_field (label : string) (p : Pillar) (acc : Records) :
  label ∈ labels ->
  field_of label (route_pillar response acc p) =
  if String.eqb (toLowerCase (name p)) label
  then fold_left (write (scale response)) (components p) (field_of label acc)
  else field_of label acc.
Proof.
  intros Hin. unfold route_pillar.
  generalize dependent acc.
  induction (components p) as [| c cs IH]; intros acc; cbn.
  - destruct (String.eqb _ _); reflexivity.
  - rewrite IH, route_component_field by exact Hin.
    destruct (String.eqb _ _); reflexivity.
Qed.

Lemma last_write_app (sc : number * number) (cs1 cs2 : list Component) (k : string) :
  last_write sc (cs1 ++ cs2) k =
  match last_write sc cs2 k with
  | Some v => Some v
  | None => last_write sc cs1 k
  end.
Proof.
  induction cs1 as [| c cs1 IH]; cbn.
  - destruct (last_write sc cs2 k); reflexivity.
  - rewrite IH. destruct (last_write sc cs2 k); reflexivity.
Qed.

Lemma settable_cons (c : Component) (cs : list Component) :
  settable (c :: cs)
  = if String.eqb (key c) "__proto__" then settable cs else c :: settable cs.
Proof. unfold settable. cbn. by destruct (String.eqb _ _). Qed.

Lemma settable_app (cs1 cs2 : list Component) :
  settable (cs1 ++ cs2) = settable cs1 ++ settable cs2.
Proof. apply List.filter_app. Qed.

Lemma elem_of_settable (c : Component) (cs : list Component) :
  c ∈ settable cs <-> c ∈ cs /\ key c <> "__proto__".
Proof.
  unfold settable. rewrite !list_elem_of_In, List.filter_In, negb_true_iff.
  by destruct (String.eqb_spec (key c) "__proto__"); intuition.
Qed.

Lemma fold_write_lookup (sc : number * number) (cs : list Component)
    (m : gmap string ScoreRange) (k : string) :
  fold_left (write sc) cs m !! k =
  match last_write sc (settable cs) k with
  | Some v => Some v
  | None => m !! k
  end.
Proof.
  generalize dependent m.
  induction cs as [| c cs IH]; intros m; cbn [fold_left]; [reflexivity |].
  rewrite IH, settable_cons. unfold write, assign.
  destruct (String.eqb (key c) "__proto__"); [reflexivity |].
  cbn [last_write]. destruct (last_write sc (settable cs) k); [reflexivity |].
  destruct (String.eqb_spec (key c) k) as [-> | Hne].
  - apply lookup_insert_eq.
  - by apply lookup_insert_ne.
Qed.

Lemma fold_route_lookup (label : string) (ps : list Pillar) (acc : Records)
    (k : string) :
  label ∈ labels ->
  field_of label (fold_left (route_pillar response) ps acc) !! k =
  match last_write (scale response)
          (settable (concat (map components
             (filter (fun p => toLowerCase (name p) = label) ps)))) k with
  | Some v => Some v
  | None => field_of label acc !! k
  end.
Proof.
  intros Hin. generalize dependent acc.
  induction ps as [| p ps IH]; intros acc; [reflexivity |].
  rewrite filter_cons. cbn [fold_left].
  rewrite IH, route_pillar_field by exact Hin.
  destruct (String.eqb_spec (toLowerCase (name p)) label) as [E | N].
  - rewrite decide_True by exact E. cbn [map concat].
    rewrite settable_app, last_write_app.
    destruct (last_write _ (settable (concat _)) k); [reflexivity |].
    apply fold_write_lookup.
  - rewrite decide_False by exact N. reflexivity.
Qed.

Lemma route_pillar_unrecognised (acc : Records) (p : Pillar) :
  recognised p = false -> route_pillar response acc p = acc.
Proof.
  unfold recognised, route_pillar. intros Hrec.
  apply orb_false_elim in Hrec as [Hrec H3].
  apply orb_false_elim in Hrec as [H1 H2].
  induction (components p) as [| c cs IH]; cbn; [reflexivity |].
  unfold route_component at 2. rewrite H1, H2, H3. exact IH.
Qed.

Lemma fold_route_recognised (ps : list Pillar) (acc : Records) :
  fold_left (route_pillar response) (List.filter recognised ps) acc =
  fold_left (route_pillar response) ps acc.
Proof.
  generalize dependent acc.
  induction ps as [| p ps IH]; intros acc; cbn; [reflexivity |].
  destruct (recognised p) eqn:Hrec; cbn.
  - apply IH.
  - rewrite route_pillar_unrecognised by exact Hrec. apply IH.
Qed.

Lemma last_write_range (sc : number * number) (cs : list Component)
    (k : string) (v : ScoreRange) :
  last_write sc cs k = Some v -> v ∈ [-2; -1; 0; 1; 2].
Proof.
  induction cs as [| c cs IH]; cbn; [discriminate |].
  destruct (last_write sc cs k); [exact IH |].
  destruct (String.eqb (key c) k); [| discriminate].
  intros [= <-]. apply normalizeScore_range.
Qed.

Lemma last_write_last (sc : number * number) (cs : list Component) (c : Component) :
  key c <> "__proto__" ->
  last_write sc (settable (cs ++ [c])) (key c)
  = Some (normalizeScore (c_score c) sc).
Proof.
  intros Hne. rewrite settable_app, last_write_app, settable_cons.
  destruct (String.eqb_spec (key c) "__proto__") as [E | _]; [contradiction |].
  cbn. by rewrite String.eqb_refl.
Qed.

Lemma last_write_proto (sc : number * number) (cs : list Component) :
  last_write sc (settable cs) "__proto__" = None.
Proof.
  induction cs as [| c cs IH]; [reflexivity |]. rewrite settable_cons.
  destruct (String.eqb_spec (key c) "__proto__") as [E | N]; [exact IH |].
  cbn [last_write]. rewrite IH.
  by destruct (String.eqb_spec (key c) "__proto__").
Qed.

End Transformer.

Lemma transform_lookup (response : HeatmapResponse) (label : string) (k : string) :
  label ∈ labels ->
  field_of label
    (fold_left (route_pillar response) (pillars response) no_records) !! k =
  last_write (scale response) (settable (routed label response)) k.
Proof.
  intros Hin. rewrite fold_route_lookup by exact Hin. unfold routed.
  destruct (last_write _ _ k); [reflexivity |].
  unfold field_of, no_records; cbn.
  repeat destruct (String.eqb _ _); apply lookup_empty.
Qed.

(** *** Letter case *)

Lemma is_upper_spec (c : ascii) :
  is_upper c = true <-> (65 <= nat_of_ascii c <= 90)%nat.
Proof.
  unfold is_upper. rewrite andb_true_iff, !Nat.leb_le. reflexivity.
Qed.

Lemma lower_ascii_same_letter (a : ascii) : same_letter a (lower_ascii a).
Proof.
  unfold lower_ascii. destruct (is_upper a) eqn:E; [| by left].
  apply is_upper_spec in E. right. exists (nat_of_ascii a).
  split; [exact E |]. left. by rewrite ascii_nat_embedding.
Qed.

Lemma same_letter_lower (a b : ascii) :
  same_letter a b -> is_upper b = false -> lower_ascii a = b.
Proof.
  intros [-> | (n & Hn & [[-> ->] | [-> ->]])] Hb.
  - unfold lower_ascii. by rewrite Hb.
  - unfold lower_ascii.
    assert (Hup : is_upper (ascii_of_nat n) = true).
    { apply is_upper_spec. rewrite nat_ascii_embedding; lia. }
    rewrite Hup, nat_ascii_embedding by lia. reflexivity.
  - assert (Hup : is_upper (ascii_of_nat n) = true).
    { apply is_upper_spec. rewrite nat_ascii_embedding; lia. }
    congruence.
Qed.

Lemma toLowerCase_matches (s label : string) :
  no_upper label = true ->
  toLowerCase s = label <-> matches_ignoring_case s label.
Proof.
  intros Hlab. split.
  - intros <-. clear Hlab. induction s as [| a s IH]; cbn.
    + constructor.
    + constructor; [apply lower_ascii_same_letter | exact IH].
  - intros Hm. induction Hm as [| a b s t Hab Hm IH]; cbn; [reflexivity |].
    cbn in Hlab. apply andb_true_iff in Hlab as [Hb Ht].
    apply negb_true_iff in Hb.
    rewrite (same_letter_lower a b Hab Hb), (IH Ht). reflexivity.
Qed.

Lemma labels_no_upper (label : string) : label ∈ labels -> no_upper label = true.
Proof.
  unfold labels. intros Hin.
  repeat (apply elem_of_cons in Hin as [-> | Hin]); try reflexivity.
  by inversion Hin.
Qed.

Lemma transformBackendResponse_maps (response : HeatmapResponse) (k : string) :
  sentiment (transformBackendResponse response) !! k
  = last_write (scale response) (settable (routed "sentiment" response)) k
  /\ technical (transformBackendResponse response) !! k
  = last_write (scale response) (settable (routed "technical" response)) k
  /\ economic (transformBackendResponse response) !! k
  = last_write (scale response) (settable (routed "economic" response)) k.
Proof.
  repeat split.
  - apply (transform_lookup response "sentiment"). set_solver.
  - apply (transform_lookup response "technical"). set_solver.
  - apply (transform_lookup response "economic"). set_solver.
Qed.

Lemma asset_map_lookup (response : HeatmapResponse) (label k : string) :
  label ∈ labels ->
  asset_map label (transformBackendResponse response) !! k
  = last_write (scale response) (settable (routed label response)) k.
Proof.
  intros Hin. destruct (transformBackendResponse_maps response k) as (H1 & H2 & H3).
  unfold labels in Hin.
  repeat (apply elem_of_cons in Hin as [-> | Hin]); try assumption.
  by inversion Hin.
Qed.

Lemma last_write_is_Some (sc : number * number) (cs : list Component) (k : string) :
  is_Some (last_write sc cs k) <-> k ∈ key <$> cs.
Proof.
  induction cs as [| c cs IH]; cbn.
  - split; [intros [v Hv]; discriminate | intros H; inversion H].
  - rewrite elem_of_cons, <- IH.
    destruct (last_write sc cs k) as [v |].
    + split; [intros _; right; by eexists | intros _; by eexists].
    + destruct (String.eqb_spec (key c) k) as [-> | Hne].
      * split; [intros _; by left | intros _; by eexists].
      * split; [intros [v Hv]; discriminate |].
        intros [-> | [v Hv]]; [contradiction | discriminate].
Qed.





Example transform_mixed_case_and_unknown :
  let response :=
    {| r_asset := "X"; r_score := int 9; scale := (int (-24), int 24);
       pillars :=
         [ mkPillar "Sentiment" (int 0)
             [ mkComponent "cot" (int 24); mkComponent "cot" (int (-24)) ];
           mkPillar "macro" (int 0) [ mkComponent "gdp" (int 24) ];
           mkPillar "TECHNICAL" (int 0) [ mkComponent "trend" (int 0) ] ];
       as_of := "2025-08-01T00:00:00Z"; version := "1" |} in
  let a := transformBackendResponse response in
  sentiment a = {[ "cot" := -2 ]} /\ technical a = {[ "trend" := 0 ]}
  /\ economic a = ∅ /\ score a = int 9 /\ bias a = Bullish.
Proof. cbn. repeat split; apply map_eq; intros k; vm_compute; reflexivity. Qed.

(** C3. [getBias] compares the total score with the fixed thresholds 15, 8,
    -7 and -15 and takes no scale: Very Bullish iff score >= 15, Bullish iff
    8 <= score < 15, Neutral iff -7 <= score < 8, Bearish iff
    -15 <= score < -7, Very Bearish otherwise; at the boundaries 15, 8, 7,
    -7, -8 and -16 the labels are Very Bullish, Bullish, Neutral, Neutral,
    Bearish and Very Bearish. *)
Theorem getBias_thresholds (q : Q) :
  (getBias (Fin q) = VeryBullish <-> (15 <= q)%Q)
  /\ (getBias (Fin q) = Bullish <-> (8 <= q)%Q /\ (q < 15)%Q)
  /\ (getBias (Fin q) = Neutral <-> (-7 <= q)%Q /\ (q < 8)%Q)
  /\ (getBias (Fin q) = Bearish <-> (-15 <= q)%Q /\ (q < -7)%Q)
  /\ (getBias (Fin q) = VeryBearish <-> (q < -15)%Q)
  /\ getBias (Fin 15) = VeryBullish
  /\ getBias (Fin 8) = Bullish
  /\ getBias (Fin 7) = Neutral
  /\ getBias (Fin (-7)) = Neutral
  /\ getBias (Fin (-8)) = Bearish
  /\ getBias (Fin (-16)) = VeryBearish
  /\ getBias PosInf = VeryBullish
  /\ getBias NegInf = VeryBearish
  /\ getBias NaN = VeryBearish.
Proof.
  unfold getBias, num_geb, num_leb, lit.
  destruct (Qle_bool 15 q) eqn:E15;
    [apply Qle_bool_iff in E15 | apply Qle_bool_false in E15];
  (destruct (Qle_bool 8 q) eqn:E8;
    [apply Qle_bool_iff in E8 | apply Qle_bool_false in E8]);
  (destruct (Qle_bool (-7) q) eqn:E7;
    [apply Qle_bool_iff in E7 | apply Qle_bool_false in E7]);
  (destruct (Qle_bool (-15) q) eqn:E50;
    [apply Qle_bool_iff in E50 | apply Qle_bool_false in E50]);
  repeat split; intros; try reflexivity; try discriminate;
    try lra; exfalso; lra.
Qed.

(** ** ResponseValidator *)

Lemma ends_with_digit_cons (c : ascii) (s : string) :
  ends_with_digit s = true -> ends_with_digit (String c s) = true.
Proof. destruct s; [discriminate | intros H; exact H]. Qed.

Lemma pretty_N_char_digit (x : N) : is_digit (pretty_N_char x) = true.
Proof. unfold pretty_N_char. repeat case_match; reflexivity. Qed.

Lemma pretty_N_go_digit (x : N) (s : string) :
  ends_with_digit s = true -> ends_with_digit (pretty_N_go x s) = true.
Proof.
  revert s. induction (N.lt_wf_0 x) as [x _ IH]; intros s Hs.
  destruct (decide (x = 0%N)) as [-> | Hx]; [by rewrite pretty_N_go_0 |].
  rewrite pretty_N_go_step by lia.
  apply IH; [apply N.div_lt; lia |]. by apply ends_with_digit_cons.
Qed.

Lemma pretty_nat_digit (n : nat) : ends_with_digit (pretty n) = true.
Proof.
  unfold pretty, pretty_nat, pretty, pretty_N.
  case_decide; [reflexivity |].
  rewrite pretty_N_go_step by lia.
  apply pretty_N_go_digit. cbn. apply pretty_N_char_digit.
Qed.

(** An array has none of the required keys. *)
Lemma array_has_no_required (items : list json) (f : string) :
  f ∈ required -> has_property f (JArray items) = false.
Proof.
  intros Hf. cbn. apply bool_decide_eq_false. intros Hin.
  apply elem_of_cons in Hin as [-> | Hin].
  - unfold required in Hf.
    repeat (apply elem_of_cons in Hf as [Hf | Hf]; [discriminate |]).
    by inversion Hf.
  - apply list_elem_of_fmap in Hin as (i & -> & _).
    assert (Hd := pretty_nat_digit i).
    unfold required in Hf.
    repeat (apply elem_of_cons in Hf as [Hf | Hf];
            [rewrite Hf in Hd; discriminate |]).
    by inversion Hf.
Qed.

Lemma check_required_fulfilled (data : json) (fields : list string) :
  check_required data fields = fulfilled tt <->
  (forall f, f ∈ fields -> has_property f data = true).
Proof.
  induction fields as [| g rest IH]; cbn.
  - split; [intros _ f Hf; by inversion Hf | reflexivity].
  - destruct (has_property g data) eqn:Hg; cbn.
    + rewrite IH. split.
      * intros H f Hf. apply elem_of_cons in Hf as [-> | Hf]; auto.
      * intros H f Hf. apply H. by right.
    + split; [discriminate |]. intros H.
      specialize (H g ltac:(by left)). congruence.
Qed.

(** The loop stops at the first key that is missing. *)
Lemma check_required_first_missing (data : json) (pre post : list string)
    (f : string) :
  (forall g, g ∈ pre -> has_property g data = true) ->
  has_property f data = false ->
  check_required data (pre ++ f :: post)
  = rejected (Error ("Missing required field: " +:+ f)).
Proof.
  intros Hpre Hf. induction pre as [| g pre IH]; cbn.
  - by rewrite Hf.
  - rewrite (Hpre g) by (by left). cbn. apply IH.
    intros h Hh. apply Hpre. by right.
Qed.

Lemma check_required_cases (data : json) (fields : list string) :
  check_required data fields = fulfilled tt
  \/ exists f, f ∈ fields /\ has_property f data = false
       /\ check_required data fields
          = rejected (Error ("Missing required field: " +:+ f)).
Proof.
  induction fields as [| g rest IH]; cbn; [by left |].
  destruct (has_property g data) eqn:Hg; cbn.
  - destruct IH as [IH | (f & Hf & Hm & IH)]; [by left | right].
    exists f. split; [by right | by split].
  - right. exists g. split; [by left | by split].
Qed.

Section ValidateProperties.

Context {R : Type}.
Variable as_HeatmapResponse : json -> R.

Lemma validateResponse_structured (data : json) :
  negb (truthy data) || negb (String.eqb (typeof data) "object") = false ->
  validateResponse as_HeatmapResponse data =
  match check_required data required with
  | fulfilled _ =>
      if negb (isArray (get "pillars" data)) then
        rejected (Error "Pillars must be an array")
      else if negb (isArray (get "scale" data))
              || negb (bool_decide (array_length (get "scale" data) = Some 2%nat)) then
        rejected (Error "Scale must be a tuple of two numbers")
      else fulfilled (as_HeatmapResponse data)
  | rejected e => rejected e
  end.
Proof. intros H. unfold validateResponse. rewrite H. reflexivity. Qed.

Lemma validateResponse_unstructured (data : json) :
  negb (truthy data) || negb (String.eqb (typeof data) "object") = true ->
  validateResponse as_HeatmapResponse data
  = rejected (Error "Invalid response format").
Proof. intros H. unfold validateResponse. rewrite H. reflexivity. Qed.

(** The validator lets a payload through exactly when it is an object with
    the six keys, an array under [pillars] and an array of length two under
    [scale]; the result is the payload itself. *)
Lemma validateResponse_accepts (data : json) (r : R) :
  validateResponse as_HeatmapResponse data = fulfilled r <->
  accepted_shape data /\ r = as_HeatmapResponse data.
Proof.
  unfold accepted_shape. split.
  - destruct data as [| b | n | s | items | fields];
      try (rewrite validateResponse_unstructured;
           [discriminate | cbn; try apply orb_true_r; reflexivity]).
    + rewrite validateResponse_structured by reflexivity.
      destruct (check_required_cases (JArray items) required)
        as [Hok | (f & Hf & Hm & Hrej)].
      * apply check_required_fulfilled with (f := "asset") in Hok;
          [| unfold required; set_solver].
        rewrite array_has_no_required in Hok by (unfold required; set_solver).
        discriminate.
      * rewrite Hrej. discriminate.
    + rewrite validateResponse_structured by reflexivity.
      destruct (check_required_cases (JObject fields) required)
        as [Hok | (f & Hf & Hm & Hrej)]; [| rewrite Hrej; discriminate].
      rewrite Hok. cbn [get].
      destruct (assoc "pillars" fields) as [[| | | | pitems |] |] eqn:Hp;
        try discriminate.
      destruct (assoc "scale" fields) as [[| | | | sitems |] |] eqn:Hs;
        try discriminate.
      cbn [isArray array_length negb orb].
      case_bool_decide as Hlen; [| discriminate].
      intros [= <-]. split; [| reflexivity].
      exists fields. split; [reflexivity |]. split.
      * intros f Hf.
        apply (proj1 (check_required_fulfilled _ _) Hok) in Hf.
        cbn in Hf. by apply bool_decide_eq_true in Hf.
      * split; [by exists pitems |].
        destruct sitems as [| a [| b [| c rest]]]; try (by inversion Hlen).
        by exists a, b.
  - intros ((fields & -> & Hkeys & (pitems & Hp) & (a & b & Hs)) & ->).
    assert (Hok : check_required (JObject fields) required = fulfilled tt).
    { apply check_required_fulfilled. intros f Hf. cbn.
      apply bool_decide_eq_true. by apply Hkeys. }
    rewrite validateResponse_structured by reflexivity.
    rewrite Hok, Hp, Hs. reflexivity.
Qed.

End ValidateProperties.

(** C6. The validator lets through a payload whose [scale] is an array of two
    strings, which is not one of the payloads the specification accepts
    (an object with the six keys, an array under [pillars], exactly two
    numeric elements under [scale]): the elements of [scale] are not looked
    at. *)
Theorem validateResponse_string_scale (as_HeatmapResponse : json -> HeatmapResponse) :
  validateResponse as_HeatmapResponse string_scale_payload
  = fulfilled (as_HeatmapResponse string_scale_payload)
  /\ ~ specified_shape string_scale_payload.
Proof.
  split; [reflexivity |].
  intros (fields & [= <-] & _ & _ & (a & b & Hs & (n & ->) & _)).
  discriminate Hs.
Qed.

(** The checks are made in the order of the source and the first violation
    decides the error. *)
Lemma validateResponse_order (as_HeatmapResponse : json -> HeatmapResponse)
    (data : json) :
  let structured :=
    negb (negb (truthy data) || negb (String.eqb (typeof data) "object")) in
  (structured = false ->
     validateResponse as_HeatmapResponse data
     = rejected (Error "Invalid response format"))
  /\ (forall pre f post, structured = true -> required = pre ++ f :: post ->
        (forall g, g ∈ pre -> has_property g data = true) ->
        has_property f data = false ->
        validateResponse as_HeatmapResponse data
        = rejected (Error ("Missing required field: " +:+ f)))
  /\ (structured = true ->
      (forall f, f ∈ required -> has_property f data = true) ->
      isArray (get "pillars" data) = false ->
      validateResponse as_HeatmapResponse data
      = rejected (Error "Pillars must be an array"))
  /\ (structured = true ->
      (forall f, f ∈ required -> has_property f data = true) ->
      isArray (get "pillars" data) = true ->
      (forall a b, get "scale" data <> Some (JArray [a; b])) ->
      validateResponse as_HeatmapResponse data
      = rejected (Error "Scale must be a tuple of two numbers")).
Proof.
  intros structured. subst structured. repeat split.
  - intros H. apply negb_false_iff in H.
    by apply validateResponse_unstructured.
  - intros pre f post H Hreq Hpre Hf. apply negb_true_iff in H.
    rewrite validateResponse_structured by exact H.
    rewrite Hreq, (check_required_first_missing data pre post f Hpre Hf).
    reflexivity.
  - intros H Hall Hp. apply negb_true_iff in H.
    rewrite validateResponse_structured by exact H.
    rewrite (proj2 (check_required_fulfilled data required) Hall), Hp.
    reflexivity.
  - intros H Hall Hp Hs. apply negb_true_iff in H.
    rewrite validateResponse_structured by exact H.
    rewrite (proj2 (check_required_fulfilled data required) Hall), Hp.
    cbn [negb].
    destruct (get "scale" data) as [[| | | | [| a [| b [| c rest]]] |] |];
      try reflexivity.
    by destruct (Hs a b).
Qed.

(** ** FetchClient: retries *)

Lemma attempts_backoff_trace (url : string) (n : nat) (retries : Z) :
  attempts (backoff_trace url n retries) = S n.
Proof.
  revert retries. induction n as [| n IH]; intros retries; [reflexivity |].
  unfold attempts in *. cbn. by rewrite IH.
Qed.

Lemma delays_backoff_trace (url : string) (n : nat) (retries : Z) :
  delays (backoff_trace url n retries)
  = (fun i => 2 ^ i * 1000) <$> seqZ retries (Z.of_nat n).
Proof.
  revert retries. induction n as [| n IH]; intros retries; [reflexivity |].
  rewrite Nat2Z.inj_succ, seqZ_cons by lia.
  cbn. unfold delays in IH. rewrite IH.
  replace (Z.pred (Z.succ (Z.of_nat n))) with (Z.of_nat n) by lia.
  reflexivity.
Qed.

Section Retry.

Context {R : Type}.
Variable as_HeatmapResponse : json -> R.
Variable fetch : string -> Z -> settled Response.
Variable this : HeatmapApiClient.
Variable url : string.

(** A fulfilled attempt ends the call. *)
Lemma fetchWithRetry_success (retries : Z) (v : R) :
  attempt as_HeatmapResponse fetch url retries = fulfilled v ->
  fetchWithRetry as_HeatmapResponse fetch this url retries
  = (fulfilled v, [EvFetch url]).
Proof.
  intros Hv. rewrite fetchWithRetry_equation_1, Hv. reflexivity.
Qed.

(** A rejected attempt below the limit is followed by the delay and the
    next attempt, whatever the error. *)
Lemma fetchWithRetry_retry (retries : Z) (e : exn) :
  attempt as_HeatmapResponse fetch url retries = rejected e ->
  retries < maxRetries this ->
  fetchWithRetry as_HeatmapResponse fetch this url retries
  = ((fetchWithRetry as_HeatmapResponse fetch this url (retries + 1)).1,
     EvFetch url :: EvDelay (2 ^ retries * 1000)
       :: (fetchWithRetry as_HeatmapResponse fetch this url (retries + 1)).2).
Proof.
  intros He Hlt. rewrite fetchWithRetry_equation_1, He.
  cbn. destruct (Z_lt_dec retries (maxRetries this)); [reflexivity | lia].
Qed.

(** A rejected attempt at the limit is the result of the call. *)
Lemma fetchWithRetry_give_up (retries : Z) (e : exn) :
  attempt as_HeatmapResponse fetch url retries = rejected e ->
  ~ retries < maxRetries this ->
  fetchWithRetry as_HeatmapResponse fetch this url retries
  = (rejected e, [EvFetch url]).
Proof.
  intros He Hge. rewrite fetchWithRetry_equation_1, He.
  cbn. destruct (Z_lt_dec retries (maxRetries this)); [lia | reflexivity].
Qed.

Variable err : Z -> exn.
Hypothesis all_fail :
  forall i, attempt as_HeatmapResponse fetch url i = rejected (err i).

Lemma fetchWithRetry_all_fail_from (n : nat) (retries : Z) :
  retries + Z.of_nat n = maxRetries this ->
  fetchWithRetry as_HeatmapResponse fetch this url retries
  = (rejected (err (maxRetries this)), backoff_trace url n retries).
Proof.
  revert retries. induction n as [| n IH]; intros retries Hn.
  - rewrite (fetchWithRetry_give_up retries (err retries)); [| apply all_fail | lia].
    cbn. replace retries with (maxRetries this) by lia. reflexivity.
  - rewrite (fetchWithRetry_retry retries (err retries)); [| apply all_fail | lia].
    rewrite IH by lia. reflexivity.
Qed.

End Retry.

(** When every attempt fails and the limit [maxRetries] of the client is not
    negative, the call makes [1 + maxRetries] requests, waits
    [2 ^ i * 1000] ms after the failed attempt number [i] (counted from 0)
    and rejects with the error of the last attempt. *)
Lemma fetchWithRetry_exhausts (as_HeatmapResponse : json -> HeatmapResponse)
    (fetch : string -> Z -> settled Response) (this : HeatmapApiClient)
    (url : string) (err : Z -> exn) :
  0 <= maxRetries this ->
  (forall i, attempt as_HeatmapResponse fetch url i = rejected (err i)) ->
  let r := fetchWithRetry as_HeatmapResponse fetch this url 0 in
  r.1 = rejected (err (maxRetries this))
  /\ r.2 = backoff_trace url (Z.to_nat (maxRetries this)) 0
  /\ attempts r.2 = Z.to_nat (1 + maxRetries this)
  /\ delays r.2 = (fun i => 2 ^ i * 1000) <$> seqZ 0 (maxRetries this).
Proof.
  intros Hm Hfail r. subst r.
  rewrite (fetchWithRetry_all_fail_from as_HeatmapResponse fetch this url err
             Hfail (Z.to_nat (maxRetries this)) 0) by lia.
  cbn [fst snd]. rewrite attempts_backoff_trace, delays_backoff_trace.
  rewrite Z2Nat.id by lia. repeat split. lia.
Qed.

(** The ways an attempt fails: the request itself, a status outside
    200-299, a body that is not JSON, a payload that the validator rejects.
    [fetchWithRetry] only sees that the attempt was rejected. *)
Lemma attempt_failures (as_HeatmapResponse : json -> HeatmapResponse)
    (fetch : string -> Z -> settled Response) (url : string) (i : Z) :
  (forall e, fetch url i = rejected e ->
     attempt as_HeatmapResponse fetch url i = rejected e)
  /\ (forall response, fetch url i = fulfilled response -> ok response = false ->
        attempt as_HeatmapResponse fetch url i
        = rejected (Error ("HTTP " +:+ pretty (r_status response) +:+ ": "
                           +:+ statusText response)))
  /\ (forall response e, fetch url i = fulfilled response -> ok response = true ->
        body response = rejected e ->
        attempt as_HeatmapResponse fetch url i = rejected e)
  /\ (forall response data e, fetch url i = fulfilled response ->
        ok response = true -> body response = fulfilled data ->
        validateResponse as_HeatmapResponse data = rejected e ->
        attempt as_HeatmapResponse fetch url i = rejected e).
Proof.
  unfold attempt. repeat split.
  - intros e ->. reflexivity.
  - intros response -> Hok. cbn. rewrite Hok. reflexivity.
  - intros response e -> Hok Hb. cbn. rewrite Hok, Hb. reflexivity.
  - intros response data e -> Hok Hb Hv. cbn. rewrite Hok, Hb. exact Hv.
Qed.

(** The limit that the constructor stores. *)
Lemma new_HeatmapApiClient_maxRetries (config : HeatmapConfig) :
  (cfg_maxRetries config = None -> maxRetries (new_HeatmapApiClient config) = 3)
  /\ (forall n, cfg_maxRetries config = Some n -> n <> 0 ->
        maxRetries (new_HeatmapApiClient config) = n)
  /\ (cfg_maxRetries config = Some 0 ->
        maxRetries (new_HeatmapApiClient config) = 3).
Proof.
  unfold new_HeatmapApiClient, or_default; cbn. repeat split.
  - intros ->. reflexivity.
  - intros n -> Hn. destruct (Z.eqb_spec n 0); [contradiction | reflexivity].
  - intros ->. reflexivity.
Qed.

(** C1. With [maxRetries: 0] in the configuration and an endpoint that
    answers 500 to every request, [getHeatmap] makes four requests with
    delays of 1, 2 and 4 seconds before it rejects: the constructor reads a
    configured 0 as absent and stores the default 3, where a limit of 0 asks
    for one request and no delay. *)
Theorem getHeatmap_zero_maxRetries (as_HeatmapResponse : json -> HeatmapResponse) :
  let config := mkHeatmapConfig "https://api.example" None ["USD"] (Some 0) in
  let r := getHeatmap as_HeatmapResponse always_500
             (new_HeatmapApiClient config) "USD" in
  r.1 = rejected (Error "HTTP 500: Internal Server Error")
  /\ attempts r.2 = 4%nat
  /\ delays r.2 = [1000; 2000; 4000]
  /\ attempts r.2 <> Z.to_nat (1 + 0).
Proof.
  cbn zeta.
  set (config := mkHeatmapConfig "https://api.example" None ["USD"] (Some 0)).
  unfold getHeatmap.
  destruct (fetchWithRetry_exhausts as_HeatmapResponse always_500
              (new_HeatmapApiClient config)
              (baseUrl (new_HeatmapApiClient config) +:+ "/heatmap?asset="
               +:+ encodeURIComponent "USD")
              (fun _ => Error "HTTP 500: Internal Server Error"))
    as (H1 & _ & H2 & H3); [done | reflexivity |].
  rewrite H1, H2, H3. repeat split. discriminate.
Qed.

(** ** BatchAcquirer *)

Lemma fulfilled_values_map {A} (call : string -> settled A) (assets : list string) :
  fulfilled_values (allSettled (map call assets))
  = omap (fun asset => value (call asset)) assets.
Proof.
  unfold fulfilled_values, allSettled.
  induction assets as [| a assets IH]; [reflexivity |].
  cbn [map omap list_omap]. rewrite filter_cons.
  destruct (call a) as [v | e]; cbn [status value].
  - rewrite decide_True by reflexivity. cbn. by rewrite IH.
  - rewrite decide_False by discriminate. exact IH.
Qed.

Lemma omap_value_succeeds {A} (call : string -> settled A) (assets : list string) :
  Forall2 (fun asset r => call asset = fulfilled r)
    (filter (succeeds call) assets)
    (omap (fun asset => value (call asset)) assets).
Proof.
  induction assets as [| a assets IH]; [constructor |].
  rewrite filter_cons. cbn [omap list_omap].
  case_decide as Hs; unfold succeeds in Hs;
    destruct (call a) as [v | e] eqn:E; cbn in Hs |- *; try discriminate.
  - by constructor.
  - contradiction.
  - exact IH.
Qed.

Lemma omap_value_all_rejected {A} (call : string -> settled A) (assets : list string) :
  (forall a, a ∈ assets -> exists e, call a = rejected e) ->
  omap (fun asset => value (call asset)) assets = [].
Proof.
  induction assets as [| a assets IH]; intros Hall; [reflexivity |].
  cbn. destruct (Hall a ltac:(by left)) as [e ->]. cbn.
  apply IH. intros b Hb. apply Hall. by right.
Qed.

Lemma getMultipleHeatmaps_omap (c : NetworkClient) (assets : list string) :
  api_getMultipleHeatmaps c assets
  = fulfilled (omap (fun asset => value (api_getHeatmap c asset)) assets).
Proof.
  cbn. unfold getMultipleHeatmaps. f_equal.
  apply (fulfilled_values_map
           (fun asset => (getHeatmap (nc_cast c) (nc_fetch c) (nc_this c) asset).1)).
Qed.

(** C10. The responses that [getMultipleHeatmaps] returns are those of the
    symbols whose call fulfilled, position by position in the order these
    symbols have in the input list; nothing is re-sorted, and the result
    for a concatenation is the concatenation of the results. *)
Theorem getMultipleHeatmaps_keeps_order (c : NetworkClient) (assets : list string) :
  exists rs : list HeatmapResponse,
    api_getMultipleHeatmaps c assets = fulfilled rs
    /\ filter (succeeds (api_getHeatmap c)) assets `sublist_of` assets
    /\ Forall2 (fun asset r => api_getHeatmap c asset = fulfilled r)
         (filter (succeeds (api_getHeatmap c)) assets) rs
    /\ (forall xs ys rx ry, assets = xs ++ ys ->
          api_getMultipleHeatmaps c xs = fulfilled rx ->
          api_getMultipleHeatmaps c ys = fulfilled ry ->
          rs = rx ++ ry).
Proof.
  eexists. split; [apply getMultipleHeatmaps_omap |]. split; [| split].
  - apply sublist_filter.
  - apply omap_value_succeeds.
  - intros xs ys rx ry -> Hx Hy.
    rewrite getMultipleHeatmaps_omap in Hx, Hy.
    injection Hx as <-. injection Hy as <-. apply omap_app.
Qed.

(** C4. [getMultipleHeatmaps] never rejects, whatever the single calls do:
    it fulfils with exactly the responses of the calls that fulfilled, one
    for each such call and in their order, the rejected calls leaving
    nothing behind, and with the empty list when every call was rejected; a
    refresh cycle in which every asset fails then ends with [data = []],
    [loading = false], [error = null] and [lastUpdated] set. *)
Theorem getMultipleHeatmaps_absorbs_failures (c : NetworkClient)
    (config : HeatmapConfig) (now : Z) (s : HeatmapState) :
  (forall assets : list string,
     exists rs, api_getMultipleHeatmaps c assets = fulfilled rs
       /\ rs = omap (fun asset => value (api_getHeatmap c asset)) assets
       /\ Forall2 (fun asset r => api_getHeatmap c asset = fulfilled r)
            (filter (succeeds (api_getHeatmap c)) assets) rs
       /\ (forall r, r ∈ rs <->
             exists a, a ∈ assets /\ api_getHeatmap c a = fulfilled r))
  /\ (forall (assets : list string) (e : exn),
        api_getMultipleHeatmaps c assets <> rejected e)
  /\ ((forall a, a ∈ assets config -> exists e, api_getHeatmap c a = rejected e) ->
      api_getMultipleHeatmaps c (assets config) = fulfilled []
      /\ loadData c config now s
         = {| data := []; loading := false; error := None;
              lastUpdated := Some (DateNow now) |}).
Proof.
  split; [| split].
  - intros assets. eexists. split; [apply getMultipleHeatmaps_omap |].
    split; [reflexivity |]. split; [apply omap_value_succeeds |].
    intros r. rewrite list_elem_of_omap. split.
    + intros (a & Ha & Hv). exists a. split; [exact Ha |].
      destruct (api_getHeatmap c a); [by injection Hv as -> | discriminate].
    + intros (a & Ha & Hv). exists a. split; [exact Ha |]. by rewrite Hv.
  - intros assets e. by rewrite getMultipleHeatmaps_omap.
  - intros Hall.
    assert (Hempty : api_getMultipleHeatmaps c (assets config) = fulfilled []).
    { rewrite getMultipleHeatmaps_omap. f_equal.
      by apply omap_value_all_rejected. }
    split; [exact Hempty |].
    unfold loadData. rewrite Hempty. reflexivity.
Qed.

Lemma getMultipleHeatmaps_absorbs_failures_witness :
  let c := mkNetworkClient read_response always_500
             (new_HeatmapApiClient sample_config) in
  api_getMultipleHeatmaps c (assets sample_config) = fulfilled []
  /\ loadData c sample_config 1754000000000 initial_state
     = {| data := []; loading := false; error := None;
          lastUpdated := Some (DateNow 1754000000000) |}.
Proof.
  apply (proj2 (proj2 (getMultipleHeatmaps_absorbs_failures
           (mkNetworkClient read_response always_500
              (new_HeatmapApiClient sample_config))
           sample_config 1754000000000 initial_state))).
  intros a Ha. exists (Error "HTTP 500: Internal Server Error").
  cbn in Ha.
  apply elem_of_cons in Ha as [-> | Ha]; [reflexivity |].
  apply elem_of_cons in Ha as [-> | Ha]; [reflexivity |].
  by inversion Ha.
Defined.

(** ** PollingController: one cycle *)

Section Cycle.

Variable TypeError_message : string -> option json -> string.

Lemma bind_Throws {A B} (m : outcome A) (k : A -> outcome B) (e : exn) :
  m ≫= k = Throws e ->
  m = Throws e \/ exists v, m = Normal v /\ k v = Throws e.
Proof.
  destruct m as [v | e' |]; cbn; intros H; [right; by exists v | left |].
  - by injection H as <-.
  - discriminate.
Qed.

Lemma TypeError_is_TypeError {A} (expression : string) (v : option json) (e : exn) :
  @Runtime.TypeError TypeError_message A expression v = Throws e -> is_TypeError TypeError_message e.
Proof. intros [= <-]. by exists expression, v. Qed.

Lemma member_Throws (expression : string) (base : json) (field : string) (e : exn) :
  Runtime.member TypeError_message expression base field = Throws e ->
  is_TypeError TypeError_message e.
Proof.
  destruct base; cbn; try discriminate. apply TypeError_is_TypeError.
Qed.

Lemma fold_outcome_Throws {S A} (body : S -> A -> outcome S) (items : list A)
    (s : S) (e : exn) :
  (forall s' item, body s' item = Throws e -> is_TypeError TypeError_message e) ->
  fold_outcome body items s = Throws e -> is_TypeError TypeError_message e.
Proof.
  intros Hbody. revert s. induction items as [| item rest IH]; intros s; cbn.
  - discriminate.
  - intros H. apply bind_Throws in H as [H | (s' & _ & H)]; eauto.
Qed.

Lemma forEach_Throws {S} (expression : string) (array : option json)
    (callback : S -> json -> outcome S) (s : S) (e : exn) :
  (forall s' item, callback s' item = Throws e -> is_TypeError TypeError_message e) ->
  Runtime.forEach TypeError_message expression array callback s = Throws e ->
  is_TypeError TypeError_message e.
Proof.
  intros Hbody. unfold Runtime.forEach.
  destruct array as [[] |]; try apply TypeError_is_TypeError.
  by apply fold_outcome_Throws.
Qed.

Lemma ToNumber_Throws (v : option json) (e : exn) :
  Runtime.ToNumber v <> Throws e.
Proof. destruct v as [[| | | | |] |]; discriminate. Qed.

Lemma ToPropertyKey_Throws (v : option json) (e : exn) :
  Runtime.ToPropertyKey v <> Throws e.
Proof. destruct v as [[| | | | |] |]; discriminate. Qed.

Lemma normalizeScore_Throws (score scale : option json) (e : exn) :
  Runtime.normalizeScore TypeError_message score scale = Throws e ->
  is_TypeError TypeError_message e.
Proof.
  unfold Runtime.normalizeScore.
  destruct scale as [[] |]; try apply TypeError_is_TypeError; try discriminate.
  intros H.
  apply bind_Throws in H as [H | (s & _ & H)]; [by apply ToNumber_Throws in H |].
  apply bind_Throws in H as [H | (lo & _ & H)]; [by apply ToNumber_Throws in H |].
  apply bind_Throws in H as [H | (hi & _ & H)]; [by apply ToNumber_Throws in H |].
  discriminate.
Qed.

Lemma call_toLowerCase_Throws (v : option json) (e : exn) :
  Runtime.call_toLowerCase TypeError_message v = Throws e -> is_TypeError TypeError_message e.
Proof.
  unfold Runtime.call_toLowerCase.
  destruct v as [[] |]; try apply TypeError_is_TypeError. discriminate.
Qed.

Lemma route_component_Throws (response pillar : json) (acc : Records)
    (component : json) (e : exn) :
  Runtime.route_component TypeError_message response pillar acc component = Throws e ->
  is_TypeError TypeError_message e.
Proof.
  unfold Runtime.route_component. intros H.
  apply bind_Throws in H as [H | (score & _ & H)]; [by apply member_Throws in H |].
  apply bind_Throws in H as [H | (scale & _ & H)]; [by apply member_Throws in H |].
  apply bind_Throws in H as [H | (b & _ & H)]; [by apply normalizeScore_Throws in H |].
  apply bind_Throws in H as [H | (name & _ & H)]; [by apply member_Throws in H |].
  apply bind_Throws in H as [H | (label & _ & H)];
    [by apply call_toLowerCase_Throws in H |].
  repeat match type of H with
         | (if ?c then _ else _) = _ => destruct c
         end;
    try discriminate;
    (apply bind_Throws in H as [H | (k & _ & H)]; [by apply member_Throws in H |]);
    (apply bind_Throws in H as [H | (k' & _ & H)];
       [by apply ToPropertyKey_Throws in H | discriminate]).
Qed.

Lemma route_pillar_Throws (response : json) (acc : Records) (pillar : json)
    (e : exn) :
  Runtime.route_pillar TypeError_message response acc pillar = Throws e ->
  is_TypeError TypeError_message e.
Proof.
  unfold Runtime.route_pillar. intros H.
  apply bind_Throws in H as [H | (cs & _ & H)]; [by apply member_Throws in H |].
  eapply forEach_Throws; [| exact H].
  intros s' item. apply route_component_Throws.
Qed.

Lemma transformBackendResponse_Throws (response : json) (e : exn) :
  Runtime.transformBackendResponse TypeError_message response = Throws e ->
  is_TypeError TypeError_message e.
Proof.
  unfold Runtime.transformBackendResponse. intros H.
  apply bind_Throws in H as [H | (ps & _ & H)]; [by apply member_Throws in H |].
  apply bind_Throws in H as [H | (recs & _ & H)].
  { eapply forEach_Throws; [| exact H]. intros s' item. apply route_pillar_Throws. }
  apply bind_Throws in H as [H | (a & _ & H)];
    [by destruct (get "asset" response) as [[] |] |].
  apply bind_Throws in H as [H | (sc & _ & H)];
    [by destruct (get "score" response) as [[] |] |].
  apply bind_Throws in H as [H | (d & _ & H)];
    [by destruct (get "as_of" response) as [[] |] |].
  discriminate.
Qed.

Lemma map_outcome_Throws (responses : list json) (e : exn) :
  map_outcome (Runtime.transformBackendResponse TypeError_message) responses
  = Throws e ->
  is_TypeError TypeError_message e.
Proof.
  induction responses as [| r rest IH]; cbn; [discriminate |].
  intros H.
  apply bind_Throws in H as [H | (a & _ & H)];
    [by apply transformBackendResponse_Throws in H |].
  apply bind_Throws in H as [H | (l & _ & H)]; [by apply IH | discriminate].
Qed.

(** Neither class has a batch call that rejects. *)
Lemma getMultipleHeatmaps_fulfils (apiClient : Runtime.Client) (assets : list string) :
  exists responses, Runtime.getMultipleHeatmaps apiClient assets = fulfilled responses.
Proof. destruct apiClient; eexists; reflexivity. Qed.

(** C9. When a refresh cycle ends in the error branch, [loading] is false
    and [data] and [lastUpdated] are those from before the cycle; with
    either client it is a transformation that threw, the batch call never
    rejecting, what it threw is a [TypeError], and [error] is its message.
    The update of the [catch] block never changes [data] and [lastUpdated],
    whatever was thrown and whatever the state is at that time. *)
Theorem loadData_catch_keeps_data (apiClient : Runtime.Client)
    (config : HeatmapConfig) (now : Z) (s s' : HeatmapState) :
  Runtime.loadData TypeError_message apiClient config now s = Some s' ->
  error s' <> None ->
  loading s' = false
  /\ data s' = data s
  /\ lastUpdated s' = lastUpdated s
  /\ (exists (responses : list json) (e : exn) (message : string),
        Runtime.getMultipleHeatmaps apiClient (assets config) = fulfilled responses
        /\ map_outcome (Runtime.transformBackendResponse TypeError_message) responses
           = Throws e
        /\ is_TypeError TypeError_message e
        /\ e = Error message
        /\ error s' = Some message)
  /\ (forall (thrown : exn) (current : HeatmapState),
        Runtime.loadData_resume TypeError_message (rejected thrown) now current
        = Some (catch_update thrown current)
        /\ loading (catch_update thrown current) = false
        /\ error (catch_update thrown current) = Some (error_text thrown)
        /\ data (catch_update thrown current) = data current
        /\ lastUpdated (catch_update thrown current) = lastUpdated current).
Proof.
  unfold Runtime.loadData. intros Hs' Herr.
  destruct (getMultipleHeatmaps_fulfils apiClient (assets config))
    as [responses Hbatch].
  rewrite Hbatch in Hs'. cbn [Runtime.loadData_resume] in Hs'.
  destruct (map_outcome _ responses) as [transformedData | e |] eqn:Hmap;
    [| | discriminate]; injection Hs' as <-.
  - exfalso. by apply Herr.
  - pose proof (map_outcome_Throws responses e Hmap) as HT.
    destruct HT as (expression & v & ->).
    repeat split.
    exists responses, (Error (TypeError_message expression v)),
      (TypeError_message expression v).
    repeat split; [exact Hbatch | exact Hmap | by exists expression, v].
Qed.

End Cycle.

Lemma loadData_catch_keeps_data_witness :
  let message (expression : string) (v : option json) :=
    ("TypeError: " +:+ expression)%string in
  let apiClient :=
    Runtime.apiClient false sample_config "2025-08-01T00:00:00.000Z"
      always_no_components in
  let s' := catch_update (Error "TypeError: pillar.components.forEach")
              (loadData_start shown_state) in
  Runtime.loadData message apiClient sample_config 1754000030000 shown_state
  = Some s'
  /\ loading s' = false
  /\ data s' = data shown_state
  /\ lastUpdated s' = lastUpdated shown_state
  /\ error s' = Some "TypeError: pillar.components.forEach".
Proof.
  cbn zeta.
  assert (H : Runtime.loadData (fun expression _ => ("TypeError: " +:+ expression)%string)
                (Runtime.apiClient false sample_config "2025-08-01T00:00:00.000Z"
                   always_no_components)
                sample_config 1754000030000 shown_state
              = Some (catch_update (Error "TypeError: pillar.components.forEach")
                        (loadData_start shown_state)))
    by (vm_compute; reflexivity).
  split; [exact H |].
  destruct (loadData_catch_keeps_data
              (fun expression _ => ("TypeError: " +:+ expression)%string)
              (Runtime.apiClient false sample_config "2025-08-01T00:00:00.000Z"
                 always_no_components)
              sample_config 1754000030000 shown_state
              (catch_update (Error "TypeError: pillar.components.forEach")
                 (loadData_start shown_state)) H ltac:(discriminate))
    as (Hl & Hd & Hu & _).
  repeat split; assumption.
Defined.

(** ** PollingController: life cycle *)

Lemma step_timers_owned (config : HeatmapConfig) (ev : Event) (w w' : Widget) :
  timers_owned w -> step config ev w = Some w' -> timers_owned w'.
Proof.
  unfold timers_owned, step. intros Hinv Hstep.
  destruct ev as [| id | | outcome now |].
  - destruct (phase w) eqn:Hph; try discriminate.
    injection Hstep as <-. destruct Hinv as [Ht Hr].
    unfold onMount. destruct (wants_interval config); cbn.
    + right. eexists. split; [| reflexivity]. rewrite Ht. set_solver.
    + left. by split.
  - case_bool_decide; [| discriminate]. by injection Hstep as <-.
  - destruct (phase w) eqn:Hph; try discriminate.
    injection Hstep as <-. cbn. by rewrite Hph.
  - destruct (in_flight w); [discriminate |]. by injection Hstep as <-.
  - destruct (phase w) eqn:Hph; try discriminate.
    injection Hstep as <-. unfold onDestroy.
    destruct Hinv as [[Ht Hr] | (id & Ht & Hr)]; rewrite Hr; cbn.
    + exact Ht.
    + rewrite Ht. apply difference_diag_L.
Qed.

Lemma run_timers_owned (config : HeatmapConfig) (evs : list Event) (w w' : Widget) :
  timers_owned w -> run config evs w = Some w' -> timers_owned w'.
Proof.
  revert w. induction evs as [| ev evs IH]; intros w Hinv Hrun; cbn in Hrun.
  - by injection Hrun as <-.
  - destruct (step config ev w) as [w1 |] eqn:Hstep; [| discriminate].
    eapply IH; [| exact Hrun]. eapply step_timers_owned; eassumption.
Qed.

(** In a destroyed widget without timers only a pending call can do
    something, and what it does is its [state.update]. *)
Lemma step_destroyed (config : HeatmapConfig) (ev : Event) (w w' : Widget) :
  phase w = Destroyed -> timers w = ∅ -> step config ev w = Some w' ->
  exists outcome now, ev = ESettle outcome now
    /\ phase w' = Destroyed /\ timers w' = ∅
    /\ S (in_flight w') = in_flight w
    /\ state w' = loadData_resume outcome now (state w).
Proof.
  unfold step. intros Hph Ht Hstep.
  destruct ev as [| id | | outcome now |]; rewrite ?Hph in Hstep;
    try discriminate.
  - rewrite Ht in Hstep. case_bool_decide as Hin; [| discriminate].
    set_solver.
  - destruct (in_flight w) as [| n]; [discriminate |].
    injection Hstep as <-. exists outcome, now. by repeat split.
Qed.

Lemma run_destroyed (config : HeatmapConfig) (evs : list Event) (w w' : Widget) :
  phase w = Destroyed -> timers w = ∅ -> run config evs w = Some w' ->
  Forall is_settle evs /\ phase w' = Destroyed /\ timers w' = ∅
  /\ (in_flight w' + length evs = in_flight w)%nat.
Proof.
  revert w. induction evs as [| ev evs IH]; intros w Hph Ht Hrun; cbn in Hrun.
  - injection Hrun as <-. repeat split; [constructor | done | done | cbn; lia].
  - destruct (step config ev w) as [w1 |] eqn:Hstep; [| discriminate].
    destruct (step_destroyed config ev w w1 Hph Ht Hstep)
      as (outcome & now & -> & Hph1 & Ht1 & Hn & _).
    destruct (IH w1 Hph1 Ht1 Hrun) as (Hall & Hph' & Ht' & Hlen).
    repeat split; try assumption.
    + constructor; [by exists outcome, now | exact Hall].
    + cbn. lia.
Qed.

Lemma late_result_is_written :
  exists w w',
    run sample_config [EMount; EDestroy] initial_widget = Some w
    /\ phase w = Destroyed
    /\ step sample_config (ESettle (fulfilled []) 1754000000000) w = Some w'
    /\ state w' <> state w.
Proof.
  eexists. eexists. split; [reflexivity |]. split; [reflexivity |].
  split; [reflexivity |]. cbn. discriminate.
Qed.

(** C7. After the component is destroyed its interval timer is cleared: no
    tick fires and no new cycle starts, the only events left are the
    completions of the calls already in flight. Such a call is not
    cancelled: when it completes, its [state.update] is applied to the state
    as in a live component. *)
Theorem destroy_clears_timer_only (config : HeatmapConfig) (evs : list Event)
    (w : Widget) :
  run config evs initial_widget = Some w -> phase w = Destroyed ->
  timers w = ∅
  /\ (forall id, step config (ETick id) w = None)
  /\ (forall evs' w', run config evs' w = Some w' ->
        Forall is_settle evs' /\ phase w' = Destroyed /\ timers w' = ∅
        /\ (in_flight w' + length evs' = in_flight w)%nat)
  /\ (forall outcome now, in_flight w <> 0%nat ->
        exists w', step config (ESettle outcome now) w = Some w'
          /\ state w' = loadData_resume outcome now (state w)).
Proof.
  intros Hrun Hph.
  assert (Ht : timers w = ∅).
  { assert (Hinv : timers_owned w).
    { eapply run_timers_owned; [| exact Hrun]. by split. }
    unfold timers_owned in Hinv. by rewrite Hph in Hinv. }
  split; [exact Ht |]. split; [| split].
  - intros id. cbn. rewrite Ht. case_bool_decide as Hin; [set_solver | done].
  - intros evs' w' Hrun'. by eapply run_destroyed.
  - intros outcome now Hn. cbn.
    destruct (in_flight w) as [| n]; [done |]. eexists. by split.
Qed.

Lemma destroy_clears_timer_only_witness :
  exists w, run sample_config [EMount; ETick 1%positive; EDestroy] initial_widget = Some w
  /\ timers w = ∅
  /\ (forall id, step sample_config (ETick id) w = None)
  /\ (forall evs' w', run sample_config evs' w = Some w' ->
        Forall is_settle evs' /\ phase w' = Destroyed /\ timers w' = ∅
        /\ (in_flight w' + length evs' = in_flight w)%nat)
  /\ (forall outcome now, in_flight w <> 0%nat ->
        exists w', step sample_config (ESettle outcome now) w = Some w'
          /\ state w' = loadData_resume outcome now (state w)).
Proof.
  eexists. split; [vm_compute; reflexivity |].
  eapply (destroy_clears_timer_only sample_config
            [EMount; ETick 1%positive; EDestroy]).
  - vm_compute. reflexivity.
  - reflexivity.
Defined.

(** ** Worked examples *)

Example transform_mock_USOIL :
  let a := transformBackendResponse
             {| r_asset := "USOIL"; r_score := int 13;
                scale := (int (-24), int 24);
                pillars :=
                  [ mkPillar "sentiment" (int 4)
                      [ mkComponent "cot" (int 2); mkComponent "retailPos" (int 2) ];
                    mkPillar "technical" (int 3)
                      [ mkComponent "seasonality" (int 1); mkComponent "trend" (int 2) ] ];
                as_of := "2025-08-01T00:00:00.000Z"; version := "2025.08.1" |} in
  sentiment a !! "cot" = Some 0 /\ technical a !! "trend" = Some 0
  /\ economic a !! "gdp" = None /\ bias a = Bullish /\ score a = int 13.
Proof. repeat split. Qed.

Example validateResponse_errors :
  validateResponse read_response JNull
  = rejected (Error "Invalid response format")
  /\ validateResponse read_response (JString "ok")
  = rejected (Error "Invalid response format")
  /\ validateResponse read_response (JArray [JNumber (int 1)])
  = rejected (Error "Missing required field: asset")
  /\ validateResponse read_response
       (JObject [("asset", JString "USD"); ("scale", JNull)])
  = rejected (Error "Missing required field: score")
  /\ validateResponse read_response
       (JObject [("asset", JString "USD"); ("score", JNumber (int 1));
                 ("scale", JNull); ("pillars", JNull);
                 ("as_of", JNull); ("version", JNull)])
  = rejected (Error "Pillars must be an array")
  /\ validateResponse read_response
       (JObject [("asset", JString "USD"); ("score", JNumber (int 1));
                 ("scale", JArray [JNumber (int 0)]); ("pillars", JArray []);
                 ("as_of", JNull); ("version", JNull)])
  = rejected (Error "Scale must be a tuple of two numbers").
Proof. repeat split. Qed.

(** Two failures, then a valid payload: three requests, delays of 1 s and
    2 s, and the payload as the result. *)
Example getHeatmap_third_attempt :
  let payload :=
    JObject [ ("asset", JString "USD"); ("score", JNumber (int 10));
              ("scale", JArray [JNumber (int (-24)); JNumber (int 24)]);
              ("pillars", JArray []);
              ("as_of", JString "2025-08-01T00:00:00Z");
              ("version", JString "2025.08.1") ] in
  let network (url : string) (i : Z) : settled Response :=
    if i =? 0 then rejected (Error "Failed to fetch")
    else if i =? 1 then fulfilled (mkResponse 503 "Service Unavailable" (rejected NonError))
    else fulfilled (mkResponse 200 "OK" (fulfilled payload)) in
  let r := getHeatmap read_response network
             (new_HeatmapApiClient
                (mkHeatmapConfig "http://localhost:8000/" None ["USD"] None))
             "USD" in
  r.1 = fulfilled (read_response payload)
  /\ r.2 = [ EvFetch "http://localhost:8000/heatmap?asset=USD"; EvDelay 1000;
             EvFetch "http://localhost:8000/heatmap?asset=USD"; EvDelay 2000;
             EvFetch "http://localhost:8000/heatmap?asset=USD" ].
Proof. split; vm_compute; reflexivity. Qed.

(** The fixture client: the unknown symbol is left out, the order is kept,
    and a name that the table inherits is answered with an empty object. *)
Example mock_batch :
  let mock := Runtime.Mock (mkMockApiClient "2025-08-01T00:00:00.000Z") in
  get "asset" <$>
    default [] (value (Runtime.getMultipleHeatmaps mock
                         ["EUR"; "GBP"; "USD"; "toString"]))
  = [Some (JString "EUR"); Some (JString "USD"); None].
Proof. reflexivity. Qed.

(** On the design scale [[-24, 24]] the binary64 evaluation and the
    evaluation on exact rationals give the same bucket for every integer
    score of the scale. *)
Lemma normalizeScore_binary64_design_scale :
  Forall (fun z =>
            normalizeScore_binary64 (binary64_of_Z z)
              (binary64_of_Z (-24), binary64_of_Z 24)
            = normalizeScore (int z) (int (-24), int 24))
    (seqZ (-24) 49).
Proof. vm_compute. repeat constructor. Qed.

(** Away from such inputs the two differ: rounding can move the computed
    quotient across a threshold.  For the score 1.3 on the scale [[1, 2]] the
    quotient computed in binary64 lies just above 0.3; for the score 9.6 on
    [[-24, 24]] it lies just above 0.7.  The bucket of the code is the one of
    the computed quotient. *)
Example normalizeScore_binary64_rounding :
  normalizeScore_binary64 1.3%float (1%float, 2%float) = 0
  /\ normalizeScore (Fin (13 # 10)) (Fin 1, Fin 2) = -1
  /\ normalizeScore_binary64 9.6%float ((-24)%float, 24%float) = 1
  /\ normalizeScore (Fin (96 # 10)) (Fin (-24), Fin 24) = 0.
Proof. repeat split. Qed.

(** The midpoint is not in bucket 0 on every scale: where the two ends are
    neighbours there is no number between them, and the computed midpoint
    is one of the ends. *)
Example normalizeScore_midpoint_of_neighbours :
  let scale := (0%float, 0x1p-1074%float) in
  (scale.1 <? scale.2)%float = true
  /\ midpoint scale = 0%float
  /\ normalizeScore_binary64 (midpoint scale) scale = -2.
Proof. vm_compute. repeat split. Qed.

(** * Further properties of the code *)

(** ** normalizeScore *)

Section ScoreNormalizerMore.

Local Open Scope Q_scope.

Lemma bucket_proper (t u : Q) : t == u -> bucket t = bucket u.
Proof.
  intros E.
  assert (H1 : (bucket t <= bucket u)%Z) by (apply bucket_mono; lra).
  assert (H2 : (bucket u <= bucket t)%Z) by (apply bucket_mono; lra).
  lia.
Qed.



End ScoreNormalizerMore.

(** *** binary64 *)

Lemma SFcompare_Eq_finite (x y : spec_float) :
  SFfinite x -> SFfinite y -> SFcompare x y = Some Eq ->
  exists s, SFsub prec emax x y = S754_zero s.
Proof.
  destruct x as [sx | sx | | sx mx ex]; try contradiction;
    destruct y as [sy | sy | | sy my ey]; try contradiction; intros _ _.
  - intros _. destruct sx, sy; eexists; reflexivity.
  - cbn. destruct sy; discriminate.
  - cbn. destruct sx; discriminate.
  - intros H.
    assert (E : sx = sy /\ ex = ey /\ mx = my).
    { cbn in H. destruct sx, sy; try discriminate;
        destruct (Z.compare_spec ex ey); try discriminate;
        rewrite Pos.compare_cont_spec in H; cbn in H;
        destruct (Pos.compare_spec mx my); try discriminate; repeat split; assumption. }
    destruct E as (-> & -> & ->). exists false. now apply SFsub_self.
Qed.

(** The bucket of a ratio by its representation. *)
Lemma bucket_of_SF (t : float) :
  (Prim2SF t = S754_nan -> bucket_binary64 t = 2)
  /\ (Prim2SF t = S754_infinity false -> bucket_binary64 t = 2)
  /\ (Prim2SF t = S754_infinity true -> bucket_binary64 t = -2)
  /\ (forall s, Prim2SF t = S754_zero s -> bucket_binary64 t = -2).
Proof.
  unfold bucket_binary64. rewrite !FloatAxioms.leb_spec.
  repeat split; [intros -> | intros -> | intros -> | intros s ->]; reflexivity.
Qed.

(** A scale of width zero is not guarded against.  With the same finite
    binary64 number [m] at both ends (0 and -0 count as two) the width
    [m - m] is 0, the division gives [Infinity], [NaN] or [-Infinity], and
    the result is 2 for every finite score at or above [m] and -2 below
    it. *)
Theorem normalizeScore_binary64_zero_width (score m : float) :
  is_finite score = true -> is_finite m = true ->
  normalizeScore_binary64 score (m, m) = if (m <=? score)%float then 2 else -2.
Proof.
  intros Hs Hm. apply is_finite_SF in Hs, Hm.
  change (normalizeScore_binary64 score (m, m))
    with (bucket_binary64 ((score - m) / (m - m))%float).
  destruct (bucket_of_SF ((score - m) / (m - m))%float) as (Bnan & Bpos & Bneg & _).
  rewrite FloatAxioms.div_spec, !FloatAxioms.sub_spec in Bnan, Bpos, Bneg. unfold SF64div, SF64sub in *.
  rewrite (SFsub_self _ Hm) in Bnan, Bpos, Bneg.
  rewrite FloatAxioms.leb_spec. unfold SFleb.
  pose proof (Prim2SF_valid score) as Vs. pose proof (Prim2SF_valid m) as Vm.
  destruct (SFcompare (Prim2SF m) (Prim2SF score)) as [[] |] eqn:E.
  - destruct (SFcompare_Eq_finite _ _ Hs Hm) as [s Hz].
    { rewrite SFcompare_antisym, E. reflexivity. }
    apply Bnan. rewrite Hz. reflexivity.
  - assert (Hlt : SFltb (Prim2SF m) (Prim2SF score) = true)
      by (unfold SFltb; now rewrite E).
    destruct (SFsub_sign _ _ Vm Vs Hm Hlt) as [Hp _].
    apply Bpos.
    destruct (SFsub prec emax (Prim2SF score) (Prim2SF m)) as [| [] | | [] ? ?];
      try contradiction; reflexivity.
  - assert (Hlt : SFltb (Prim2SF score) (Prim2SF m) = true)
      by (unfold SFltb; rewrite SFcompare_antisym, E; reflexivity).
    destruct (SFsub_sign _ _ Vs Vm Hs Hlt) as [_ Hn]. specialize (Hn Hm).
    apply Bneg.
    destruct (SFsub prec emax (Prim2SF score) (Prim2SF m)) as [| [] | | [] ? ?];
      try contradiction; reflexivity.
  - exfalso. destruct (Prim2SF m) as [| | |], (Prim2SF score) as [| | |];
      try contradiction; cbn in E; try discriminate;
      repeat match type of E with
             | context [if ?b then _ else _] => destruct b
             end; discriminate.
Qed.

Lemma normalizeScore_binary64_zero_width_witness :
  normalizeScore_binary64 5 (3, 3)%float = if (3 <=? 5)%float then 2 else -2.
Proof. apply normalizeScore_binary64_zero_width; reflexivity. Defined.

(** A score that is [NaN] (a component without a numeric score) fails every
    comparison and gets the top bucket 2, on every scale.  On a scale with a
    finite [min < max] the score [Infinity] gets 2; the score [-Infinity]
    gets -2 when the width [max - min] is finite, and 2 when the width
    overflows, the ratio then being [NaN]. *)
Theorem normalizeScore_binary64_special_scores (score min max : float) :
  (is_nan score = true -> normalizeScore_binary64 score (min, max) = 2)
  /\ (is_finite min = true -> (min <? max)%float = true ->
      normalizeScore_binary64 infinity (min, max) = 2
      /\ (is_finite (max - min) = true ->
          normalizeScore_binary64 neg_infinity (min, max) = -2)
      /\ (is_infinity (max - min) = true ->
          normalizeScore_binary64 neg_infinity (min, max) = 2)).
Proof.
  split.
  - intros Hnan. apply is_nan_SF in Hnan.
    change (normalizeScore_binary64 score (min, max))
      with (bucket_binary64 ((score - min) / (max - min))%float).
    apply (proj1 (bucket_of_SF _)). rewrite FloatAxioms.div_spec, !FloatAxioms.sub_spec.
    unfold SF64div, SF64sub. rewrite Hnan. reflexivity.
  - intros Hfin Hlt. apply is_finite_SF in Hfin. rewrite FloatAxioms.ltb_spec in Hlt.
    destruct (SFsub_sign _ _ (Prim2SF_valid min) (Prim2SF_valid max) Hfin Hlt)
      as [Hw _].
    assert (Hinf : forall s, SFsub prec emax (S754_infinity s) (Prim2SF min)
                             = S754_infinity s).
    { intros s. destruct (Prim2SF min); try contradiction; reflexivity. }
    split; [| split].
    + change (normalizeScore_binary64 infinity (min, max))
        with (bucket_binary64 ((infinity - min) / (max - min))%float).
      destruct (bucket_of_SF ((infinity - min) / (max - min))%float)
        as (Bnan & Bpos & _).
      rewrite FloatAxioms.div_spec, !FloatAxioms.sub_spec in Bnan, Bpos. unfold SF64div, SF64sub in *.
      change (Prim2SF infinity) with (S754_infinity false) in *.
      rewrite Hinf in Bnan, Bpos.
      destruct (SFsub prec emax (Prim2SF max) (Prim2SF min)) as [| [] | | [] ? ?];
        try contradiction; [apply Bnan | apply Bpos]; reflexivity.
    + intros Hwf. apply is_finite_SF in Hwf. rewrite FloatAxioms.sub_spec in Hwf.
      unfold SF64sub in Hwf.
      change (normalizeScore_binary64 neg_infinity (min, max))
        with (bucket_binary64 ((neg_infinity - min) / (max - min))%float).
      destruct (bucket_of_SF ((neg_infinity - min) / (max - min))%float)
        as (_ & _ & Bneg & _).
      rewrite FloatAxioms.div_spec, !FloatAxioms.sub_spec in Bneg. unfold SF64div, SF64sub in *.
      change (Prim2SF neg_infinity) with (S754_infinity true) in *.
      rewrite Hinf in Bneg.
      destruct (SFsub prec emax (Prim2SF max) (Prim2SF min)) as [| [] | | [] ? ?];
        try contradiction; apply Bneg; reflexivity.
    + intros Hwi.
      assert (Hw' : SFsub prec emax (Prim2SF max) (Prim2SF min) = S754_infinity false).
      { unfold is_infinity in Hwi. rewrite FloatAxioms.eqb_spec, FloatAxioms.abs_spec, FloatAxioms.sub_spec in Hwi.
        unfold SF64sub in Hwi.
        destruct (SFsub prec emax (Prim2SF max) (Prim2SF min)) as [| [] | | [] ? ?];
          try contradiction; try reflexivity.
        exfalso. vm_compute in Hwi. discriminate. }
      change (normalizeScore_binary64 neg_infinity (min, max))
        with (bucket_binary64 ((neg_infinity - min) / (max - min))%float).
      apply (proj1 (bucket_of_SF _)). rewrite FloatAxioms.div_spec, !FloatAxioms.sub_spec.
      unfold SF64div, SF64sub.
      change (Prim2SF neg_infinity) with (S754_infinity true).
      rewrite Hinf, Hw'. reflexivity.
Qed.

Lemma normalizeScore_binary64_special_scores_witness :
  normalizeScore_binary64 nan ((-24)%float, 24%float) = 2
  /\ normalizeScore_binary64 infinity ((-24)%float, 24%float) = 2
  /\ normalizeScore_binary64 neg_infinity ((-24)%float, 24%float) = -2
  /\ normalizeScore_binary64 neg_infinity ((-0x1p1023)%float, 0x1p1023%float) = 2.
Proof.
  destruct (normalizeScore_binary64_special_scores nan (-24)%float 24%float)
    as [H1 H2].
  destruct (H2 eq_refl eq_refl) as (H3 & H4 & _).
  destruct (normalizeScore_binary64_special_scores nan (-0x1p1023)%float
              0x1p1023%float) as [_ H5].
  destruct (H5 eq_refl eq_refl) as (_ & _ & H6).
  split; [exact (H1 eq_refl) |]. split; [exact H3 |].
  split; [exact (H4 eq_refl) | exact (H6 eq_refl)].
Defined.


(** ** getBias *)

(** A higher total score never gets a more bearish label. *)
Theorem getBias_monotone (q1 q2 : Q) :
  (q1 <= q2)%Q -> Bias_rank (getBias (Fin q1)) <= Bias_rank (getBias (Fin q2)).
Proof.
  intros Hq. unfold getBias, num_geb, num_leb, lit.
  destruct (Qle_bool 15 q1) eqn:A1;
    [apply Qle_bool_iff in A1 | apply Qle_bool_false in A1];
  (destruct (Qle_bool 8 q1) eqn:A2;
    [apply Qle_bool_iff in A2 | apply Qle_bool_false in A2]);
  (destruct (Qle_bool (-7) q1) eqn:A3;
    [apply Qle_bool_iff in A3 | apply Qle_bool_false in A3]);
  (destruct (Qle_bool (-15) q1) eqn:A4;
    [apply Qle_bool_iff in A4 | apply Qle_bool_false in A4]);
  (destruct (Qle_bool 15 q2) eqn:B1;
    [apply Qle_bool_iff in B1 | apply Qle_bool_false in B1]);
  (destruct (Qle_bool 8 q2) eqn:B2;
    [apply Qle_bool_iff in B2 | apply Qle_bool_false in B2]);
  (destruct (Qle_bool (-7) q2) eqn:B3;
    [apply Qle_bool_iff in B3 | apply Qle_bool_false in B3]);
  (destruct (Qle_bool (-15) q2) eqn:B4;
    [apply Qle_bool_iff in B4 | apply Qle_bool_false in B4]);
  cbn; try lia; exfalso; lra.
Qed.

Lemma getBias_monotone_witness :
  Bias_rank (getBias (Fin (-4))) <= Bias_rank (getBias (Fin 13)).
Proof. apply (getBias_monotone (-4) 13). discriminate. Defined.

(** On integer scores the labels are symmetric about zero except at 15:
    the score 15 is Very Bullish while -15 is only Bearish. *)
Theorem getBias_mirror (z : Z) :
  z <> 15 -> z <> -15 ->
  getBias (int (- z)) = Bias_mirror (getBias (int z))
  /\ getBias (int 15) = VeryBullish /\ getBias (int (-15)) = Bearish.
Proof.
  intros H1 H2. split; [| split; reflexivity].
  unfold getBias, num_geb, num_leb, lit, int, inject_Z, Qle_bool. cbn.
  rewrite !Z.mul_1_r.
  repeat match goal with
         | |- context [Z.leb ?a ?b] => destruct (Z.leb_spec a b)
         end; cbn; try reflexivity; lia.
Qed.

Lemma getBias_mirror_witness :
  getBias (int (- 8)) = Bias_mirror (getBias (int 8))
  /\ getBias (int 15) = VeryBullish /\ getBias (int (-15)) = Bearish.
Proof. apply (getBias_mirror 8); discriminate. Defined.

(** ** transformBackendResponse *)

Lemma last_write_NoDup (sc : number * number) (cs : list Component) (c : Component) :
  NoDup (key <$> cs) -> c ∈ cs ->
  last_write sc cs (key c) = Some (normalizeScore (c_score c) sc).
Proof.
  induction cs as [| c0 cs IH]; intros Hnd Hin; [inversion Hin |].
  cbn in Hnd. apply NoDup_cons in Hnd as [Hfresh Hnd].
  apply elem_of_cons in Hin as [-> | Hin]; cbn.
  - destruct (last_write sc cs (key c0)) as [v |] eqn:E.
    + exfalso. apply Hfresh.
      apply (proj1 (last_write_is_Some sc cs (key c0))). rewrite E. by eexists.
    + by rewrite String.eqb_refl.
  - by rewrite (IH Hnd Hin).
Qed.

(** Each map has an entry for exactly the keys, other than [__proto__], of
    the components routed to it. *)
Theorem transformBackendResponse_keys (response : HeatmapResponse) (label : string) :
  label ∈ labels ->
  dom (asset_map label (transformBackendResponse response))
  = list_to_set (key <$> settable (routed label response)).
Proof.
  intros Hin. apply set_eq. intros k.
  rewrite elem_of_dom, elem_of_list_to_set, asset_map_lookup by exact Hin.
  apply last_write_is_Some.
Qed.

Lemma transformBackendResponse_keys_witness :
  dom (asset_map "technical"
         (transformBackendResponse
            (with_pillars [ mkPillar "Technical" (int 3)
                              [ mkComponent "seasonality" (int 1);
                                mkComponent "__proto__" (int 2);
                                mkComponent "trend" (int 2) ] ]
               (mkHeatmapResponse "USD" (int 10) (int (-24), int 24) []
                  "2025-08-01T00:00:00Z" "2025.08.1"))))
  = list_to_set
      (key <$> settable (routed "technical"
         (with_pillars [ mkPillar "Technical" (int 3)
                           [ mkComponent "seasonality" (int 1);
                             mkComponent "__proto__" (int 2);
                             mkComponent "trend" (int 2) ] ]
            (mkHeatmapResponse "USD" (int 10) (int (-24), int 24) []
               "2025-08-01T00:00:00Z" "2025.08.1")))).
Proof.
  apply transformBackendResponse_keys. unfold labels. set_solver.
Defined.



(** A pillar never touches the map of another label: leaving out a pillar
    whose lower-cased name is not [label] leaves the map of [label] as it
    is. *)
Theorem transformBackendResponse_other_pillars (response : HeatmapResponse)
    (label : string) (ps1 ps2 : list Pillar) (p : Pillar) :
  label ∈ labels ->
  pillars response = ps1 ++ p :: ps2 ->
  toLowerCase (name p) <> label ->
  asset_map label (transformBackendResponse response)
  = asset_map label (transformBackendResponse (with_pillars (ps1 ++ ps2) response)).
Proof.
  intros Hin Hps Hne. apply map_eq. intros k.
  rewrite !asset_map_lookup by exact Hin.
  unfold routed. cbn [pillars with_pillars scale]. rewrite Hps.
  rewrite !filter_app, filter_cons, decide_False by exact Hne.
  reflexivity.
Qed.

Lemma transformBackendResponse_other_pillars_witness :
  let r := with_pillars
             [ mkPillar "sentiment" (int 4) [ mkComponent "cot" (int 2) ];
               mkPillar "technical" (int 3) [ mkComponent "cot" (int 24) ] ]
             (mkHeatmapResponse "USD" (int 10) (int (-24), int 24) []
                "2025-08-01T00:00:00Z" "2025.08.1") in
  asset_map "sentiment" (transformBackendResponse r)
  = asset_map "sentiment"
      (transformBackendResponse
         (with_pillars
            ([ mkPillar "sentiment" (int 4) [ mkComponent "cot" (int 2) ] ] ++ []) r)).
Proof.
  apply (transformBackendResponse_other_pillars _ "sentiment"
           [ mkPillar "sentiment" (int 4) [ mkComponent "cot" (int 2) ] ] []
           (mkPillar "technical" (int 3) [ mkComponent "cot" (int 24) ])).
  - unfold labels. set_solver.
  - reflexivity.
  - discriminate.
Defined.

(** ** validateResponse *)

(** A payload is let through exactly when it is an object with the six keys
    (whatever their values), an array under [pillars] and an array of
    length two under [scale]; what comes back is the payload itself. *)
Theorem validateResponse_accepts_iff (as_HeatmapResponse : json -> HeatmapResponse)
    (data : json) :
  ((exists r, validateResponse as_HeatmapResponse data = fulfilled r)
     <-> accepted_shape data)
  /\ (forall r, validateResponse as_HeatmapResponse data = fulfilled r ->
        r = as_HeatmapResponse data).
Proof.
  split; [split |].
  - intros [r Hr]. by apply validateResponse_accepts in Hr as [H _].
  - intros H. exists (as_HeatmapResponse data). by apply validateResponse_accepts.
  - intros r Hr. by apply validateResponse_accepts in Hr as [_ H].
Qed.

(** An array passes the first test (it is a non-null object) and is then
    turned down for the first required key. *)
Theorem validateResponse_array (as_HeatmapResponse : json -> HeatmapResponse)
    (items : list json) :
  validateResponse as_HeatmapResponse (JArray items)
  = rejected (Error "Missing required field: asset").
Proof.
  rewrite validateResponse_structured by reflexivity.
  unfold required. cbn [check_required].
  rewrite array_has_no_required by (unfold required; set_solver).
  reflexivity.
Qed.

(** Every rejection of the validator is an [Error] with one of nine
    messages. *)
Theorem validateResponse_messages (as_HeatmapResponse : json -> HeatmapResponse)
    (data : json) (e : exn) :
  validateResponse as_HeatmapResponse data = rejected e ->
  exists message, e = Error message /\ message ∈ validation_messages.
Proof.
  intros He.
  destruct (negb (truthy data) || negb (String.eqb (typeof data) "object")) eqn:Hs.
  - rewrite validateResponse_unstructured in He by exact Hs.
    injection He as <-. eexists. split; [reflexivity |].
    unfold validation_messages. set_solver.
  - rewrite validateResponse_structured in He by exact Hs.
    destruct (check_required_cases data required) as [Hok | (f & Hf & _ & Hrej)].
    + rewrite Hok in He.
      destruct (negb (isArray (get "pillars" data))).
      { injection He as <-. eexists. split; [reflexivity |].
        unfold validation_messages. set_solver. }
      destruct (negb (isArray (get "scale" data))
                || negb (bool_decide (array_length (get "scale" data) = Some 2%nat)));
        [| discriminate].
      injection He as <-. eexists. split; [reflexivity |].
      unfold validation_messages. set_solver.
    + rewrite Hrej in He. injection He as <-. eexists. split; [reflexivity |].
      unfold validation_messages. do 3 right.
      apply list_elem_of_fmap. by exists f.
Qed.

Lemma validateResponse_messages_witness :
  exists message,
    Error "Pillars must be an array" = Error message
    /\ message ∈ validation_messages.
Proof.
  apply (validateResponse_messages read_response
           (JObject [("asset", JNull); ("score", JNull); ("scale", JNull);
                     ("pillars", JNull); ("as_of", JNull); ("version", JNull)])).
  reflexivity.
Defined.

Lemma validateResponse_order_witness :
  validateResponse read_response
    (JObject [("asset", JString "USD"); ("scale", JArray [])])
  = rejected (Error ("Missing required field: " +:+ "score")).
Proof.
  apply (proj1 (proj2 (validateResponse_order read_response
           (JObject [("asset", JString "USD"); ("scale", JArray [])])))
         ["asset"] "score" ["scale"; "pillars"; "as_of"; "version"]).
  - reflexivity.
  - reflexivity.
  - intros g Hg. apply list_elem_of_singleton in Hg as ->. reflexivity.
  - reflexivity.
Defined.

(** ** fetchWithRetry, getHeatmap *)

Section RetryShape.

Context {R : Type}.
Variable as_HeatmapResponse : json -> R.
Variable fetch : string -> Z -> settled Response.
Variable this : HeatmapApiClient.
Variable url : string.

Lemma fetchWithRetry_shape_from (k : nat) (retries : Z) :
  Z.of_nat k = Z.max 0 (maxRetries this - retries) ->
  exists n : nat,
    (n <= k)%nat
    /\ (fetchWithRetry as_HeatmapResponse fetch this url retries).2
       = backoff_trace url n retries
    /\ (fetchWithRetry as_HeatmapResponse fetch this url retries).1
       = attempt as_HeatmapResponse fetch url (retries + Z.of_nat n)
    /\ (forall i, retries <= i < retries + Z.of_nat n ->
          exists e, attempt as_HeatmapResponse fetch url i = rejected e)
    /\ ((exists e, (fetchWithRetry as_HeatmapResponse fetch this url retries).1
                   = rejected e) -> n = k).
Proof.
  revert retries. induction k as [| k IH]; intros retries Hk.
  - exists 0%nat. rewrite Z.add_0_r.
    destruct (attempt as_HeatmapResponse fetch url retries) as [v | e] eqn:E.
    + rewrite (fetchWithRetry_success _ _ _ _ _ v E).
      repeat split; [lia | intros i Hi; lia].
    + rewrite (fetchWithRetry_give_up _ _ _ _ _ e E) by lia.
      repeat split; [lia | intros i Hi; lia].
  - destruct (attempt as_HeatmapResponse fetch url retries) as [v | e] eqn:E.
    + exists 0%nat. rewrite Z.add_0_r.
      rewrite (fetchWithRetry_success _ _ _ _ _ v E).
      repeat split; [lia | by rewrite E | intros i Hi; lia |].
      intros [e He]. discriminate.
    + rewrite (fetchWithRetry_retry _ _ _ _ _ e E) by lia.
      destruct (IH (retries + 1) ltac:(lia)) as (n & Hn & Htr & Hres & Hrej & Hlast).
      exists (S n). cbn [fst snd]. repeat split.
      * lia.
      * cbn [backoff_trace]. by rewrite Htr.
      * rewrite Hres. f_equal. lia.
      * intros i Hi. destruct (decide (i = retries)) as [-> | Hne].
        -- by exists e.
        -- apply Hrej. lia.
      * intros He. f_equal. by apply Hlast.
Qed.

End RetryShape.

Lemma requests_backoff_trace (url : string) (n : nat) (retries : Z) :
  requests (backoff_trace url n retries) = replicate (S n) url.
Proof.
  revert retries. induction n as [| n IH]; intros retries; [reflexivity |].
  cbn. unfold requests in IH. by rewrite IH.
Qed.

Lemma total_delay_backoff_trace (url : string) (n : nat) (retries : Z) :
  0 <= retries ->
  total_delay (backoff_trace url n retries)
  = (2 ^ (retries + Z.of_nat n) - 2 ^ retries) * 1000.
Proof.
  revert retries. induction n as [| n IH]; intros retries Hr.
  - cbn. rewrite Z.add_0_r. lia.
  - unfold total_delay in *. cbn. rewrite IH by lia.
    replace (retries + 1 + Z.of_nat n) with (retries + Z.of_nat (S n)) by lia.
    rewrite (Z.pow_add_r 2 retries 1) by lia. lia.
Qed.

(** A call of [fetchWithRetry] goes on until the first attempt that
    succeeds or until the limit is reached: with [n] the number of failed
    attempts that were retried, [n] is at most [max(0, maxRetries)], the
    trace is [n] requests each followed by its doubling delay and one more
    request, the result is that of the attempt number [n], and a rejected
    result means that the limit was reached. *)
Theorem fetchWithRetry_first_success_or_limit
    (as_HeatmapResponse : json -> HeatmapResponse)
    (fetch : string -> Z -> settled Response) (this : HeatmapApiClient)
    (url : string) :
  exists n : nat,
    Z.of_nat n <= Z.max 0 (maxRetries this)
    /\ (fetchWithRetry as_HeatmapResponse fetch this url 0).2
       = backoff_trace url n 0
    /\ (fetchWithRetry as_HeatmapResponse fetch this url 0).1
       = attempt as_HeatmapResponse fetch url (Z.of_nat n)
    /\ (forall i, 0 <= i < Z.of_nat n ->
          exists e, attempt as_HeatmapResponse fetch url i = rejected e)
    /\ ((exists e, (fetchWithRetry as_HeatmapResponse fetch this url 0).1
                   = rejected e) ->
        Z.of_nat n = Z.max 0 (maxRetries this)).
Proof.
  destruct (fetchWithRetry_shape_from as_HeatmapResponse fetch this url
              (Z.to_nat (Z.max 0 (maxRetries this))) 0 ltac:(lia))
    as (n & Hn & Htr & Hres & Hrej & Hlast).
  exists n. repeat split; try assumption; [lia |].
  intros He. rewrite (Hlast He). lia.
Qed.

(** Whatever the network does, one call makes at most
    [1 + max(0, maxRetries)] requests, all to the same address, and waits
    at most [(2 ^ max(0, maxRetries) - 1)] seconds in total (7 s with the
    default limit 3); a negative limit behaves as 0. *)
Theorem fetchWithRetry_bounds (as_HeatmapResponse : json -> HeatmapResponse)
    (fetch : string -> Z -> settled Response) (this : HeatmapApiClient)
    (url : string) :
  let tr := (fetchWithRetry as_HeatmapResponse fetch this url 0).2 in
  (1 <= attempts tr)%nat
  /\ Z.of_nat (attempts tr) <= 1 + Z.max 0 (maxRetries this)
  /\ requests tr = replicate (attempts tr) url
  /\ length (delays tr) = (attempts tr - 1)%nat
  /\ 0 <= total_delay tr <= (2 ^ Z.max 0 (maxRetries this) - 1) * 1000.
Proof.
  destruct (fetchWithRetry_shape_from as_HeatmapResponse fetch this url
              (Z.to_nat (Z.max 0 (maxRetries this))) 0 ltac:(lia))
    as (n & Hn & Htr & _).
  cbn zeta. rewrite Htr.
  rewrite attempts_backoff_trace, requests_backoff_trace,
    delays_backoff_trace, total_delay_backoff_trace by lia.
  rewrite length_fmap, length_seqZ, Z.add_0_l, Z.pow_0_r.
  assert (Hpow : 2 ^ Z.of_nat n <= 2 ^ Z.max 0 (maxRetries this)).
  { apply Z.pow_le_mono_r; lia. }
  assert (Hpos : 0 < 2 ^ Z.of_nat n) by (apply Z.pow_pos_nonneg; lia).
  split; [lia |]. split; [lia |]. split; [reflexivity |]. split; lia.
Qed.

(** A fulfilled [fetchWithRetry] always carries a payload that came with a
    status in 200-299 at one of the permitted attempts and that the
    validator let through. *)
Theorem fetchWithRetry_fulfilled_validated
    (as_HeatmapResponse : json -> HeatmapResponse)
    (fetch : string -> Z -> settled Response) (this : HeatmapApiClient)
    (url : string) (v : HeatmapResponse) :
  (fetchWithRetry as_HeatmapResponse fetch this url 0).1 = fulfilled v ->
  exists (i : Z) (response : Response) (data : json),
    0 <= i <= Z.max 0 (maxRetries this)
    /\ fetch url i = fulfilled response
    /\ 200 <= r_status response <= 299
    /\ body response = fulfilled data
    /\ accepted_shape data
    /\ v = as_HeatmapResponse data.
Proof.
  intros Hv.
  destruct (fetchWithRetry_shape_from as_HeatmapResponse fetch this url
              (Z.to_nat (Z.max 0 (maxRetries this))) 0 ltac:(lia))
    as (n & Hn & _ & Hres & _).
  rewrite Hv in Hres. symmetry in Hres. unfold attempt in Hres.
  rewrite Z.add_0_l in Hres.
  destruct (fetch url (Z.of_nat n)) as [response | e] eqn:Hf; [| discriminate].
  cbn in Hres. destruct (ok response) eqn:Hok; [| discriminate]. cbn in Hres.
  destruct (body response) as [data | e] eqn:Hb; [| discriminate]. cbn in Hres.
  apply validateResponse_accepts in Hres as [Hshape ->].
  exists (Z.of_nat n), response, data.
  unfold ok in Hok. apply andb_true_iff in Hok as [H1 H2].
  apply Z.leb_le in H1, H2.
  repeat split; try assumption; lia.
Qed.

Lemma fetchWithRetry_fulfilled_validated_witness :
  exists (i : Z) (response : Response) (data : json),
    0 <= i <= Z.max 0 (maxRetries (new_HeatmapApiClient sample_config))
    /\ always_usd "http://localhost:8000/heatmap?asset=USD" i = fulfilled response
    /\ 200 <= r_status response <= 299
    /\ body response = fulfilled data
    /\ accepted_shape data
    /\ read_response usd_payload = read_response data.
Proof.
  apply (fetchWithRetry_fulfilled_validated read_response always_usd
           (new_HeatmapApiClient sample_config)
           "http://localhost:8000/heatmap?asset=USD" (read_response usd_payload)).
  reflexivity.
Defined.

(** ** The constructor and the request address *)

Lemma strip_trailing_slash_cons (c : ascii) (t : string) :
  t <> EmptyString ->
  strip_trailing_slash (String c t) = String c (strip_trailing_slash t).
Proof. destruct t; [contradiction | reflexivity]. Qed.

Lemma strip_trailing_slash_app (s : string) :
  strip_trailing_slash (s +:+ "/") = s.
Proof.
  induction s as [| c s IH]; [reflexivity |].
  change (String c s +:+ "/") with (String c (s +:+ "/")).
  rewrite strip_trailing_slash_cons, IH; [reflexivity |].
  destruct s; discriminate.
Qed.

Lemma strip_trailing_slash_no_slash (s : string) :
  (forall s', s <> s' +:+ "/") -> strip_trailing_slash s = s.
Proof.
  induction s as [| c s IH]; intros Hno; [reflexivity |].
  destruct s as [| d s].
  - cbn. destruct (Ascii.eqb_spec c "/") as [-> | Hne]; [| reflexivity].
    by destruct (Hno EmptyString).
  - rewrite strip_trailing_slash_cons by discriminate.
    rewrite IH; [reflexivity |].
    intros s' Hs'. apply (Hno (String c s')).
    change (String c s' +:+ "/") with (String c (s' +:+ "/")).
    by rewrite Hs'.
Qed.

(** The base address is stored without one slash at its end: a
    configuration whose [apiBaseUrl] is [b] followed by a slash gives the
    base [b], also when [b] itself ends in a slash (only one is removed), and
    an address that does not end in a slash is stored as it is. *)
Theorem new_HeatmapApiClient_baseUrl (config : HeatmapConfig) (b : string) :
  (apiBaseUrl config = b +:+ "/" -> baseUrl (new_HeatmapApiClient config) = b)
  /\ ((forall s', apiBaseUrl config <> s' +:+ "/") ->
      baseUrl (new_HeatmapApiClient config) = apiBaseUrl config).
Proof.
  unfold new_HeatmapApiClient; cbn. split.
  - intros ->. apply strip_trailing_slash_app.
  - apply strip_trailing_slash_no_slash.
Qed.

Lemma new_HeatmapApiClient_baseUrl_witness :
  baseUrl (new_HeatmapApiClient sample_config) = "http://localhost:8000".
Proof.
  apply (proj1 (new_HeatmapApiClient_baseUrl sample_config "http://localhost:8000")).
  reflexivity.
Defined.

Lemma hex_digit_inj (x y : nat) :
  (x < 16)%nat -> (y < 16)%nat -> hex_digit x = hex_digit y -> x = y.
Proof.
  intros Hx Hy H. apply (f_equal nat_of_ascii) in H. unfold hex_digit in H.
  destruct (Nat.ltb_spec x 10), (Nat.ltb_spec y 10);
    rewrite !nat_ascii_embedding in H by lia; lia.
Qed.

Lemma hex_pair_inj (n1 n2 : nat) :
  (n1 < 256)%nat -> (n2 < 256)%nat ->
  hex_digit (n1 / 16) = hex_digit (n2 / 16) ->
  hex_digit (n1 mod 16) = hex_digit (n2 mod 16) ->
  n1 = n2.
Proof.
  intros B1 B2 Hhi Hlo.
  apply hex_digit_inj in Hlo; [| apply Nat.mod_upper_bound; lia ..].
  apply hex_digit_inj in Hhi; [| apply Nat.Div0.div_lt_upper_bound; lia ..].
  rewrite (Nat.div_mod_eq n1 16), (Nat.div_mod_eq n2 16). lia.
Qed.

Lemma unreserved_percent (c : ascii) : unreserved c = true -> c <> "%"%char.
Proof. intros H ->. discriminate. Qed.

Lemma encodeURIComponent_inj (s1 s2 : string) :
  encodeURIComponent s1 = encodeURIComponent s2 -> s1 = s2.
Proof.
  revert s2. induction s1 as [| c1 s1 IH]; intros [| c2 s2];
    cbn [encodeURIComponent].
  - reflexivity.
  - destruct (unreserved c2); discriminate.
  - destruct (unreserved c1); discriminate.
  - destruct (unreserved c1) eqn:U1, (unreserved c2) eqn:U2.
    + intros [= -> Hrest]. f_equal. by apply IH.
    + intros [= Hc _]. exfalso. by apply (unreserved_percent c1 U1).
    + intros [= Hc _]. exfalso. by apply (unreserved_percent c2 U2).
    + intros [= Hhi Hlo Hrest].
      assert (Hn : nat_of_ascii c1 = nat_of_ascii c2).
      { exact (hex_pair_inj (nat_of_ascii c1) (nat_of_ascii c2)
                 (nat_ascii_bounded c1) (nat_ascii_bounded c2) Hhi Hlo). }
      f_equal; [| by apply IH].
      rewrite <- (ascii_nat_embedding c1), <- (ascii_nat_embedding c2).
      by rewrite Hn.
Qed.

Lemma heatmap_url_injective (this : HeatmapApiClient) (a1 a2 : string) :
  heatmap_url this a1 = heatmap_url this a2 -> a1 = a2.
Proof.
  unfold heatmap_url. intros H.
  apply (inj (String.app (baseUrl this))) in H.
  apply (inj (String.app "/heatmap?asset=")) in H.
  by apply encodeURIComponent_inj.
Qed.

(** Every request of a call of [getHeatmap] goes to the address made of the
    stored base, [/heatmap?asset=] and the escaped symbol, and different
    symbols are asked at different addresses: the symbol can be read back
    from the address. *)
Theorem getHeatmap_address (as_HeatmapResponse : json -> HeatmapResponse)
    (fetch : string -> Z -> settled Response) (this : HeatmapApiClient)
    (a1 a2 : string) :
  requests (getHeatmap as_HeatmapResponse fetch this a1).2
  = replicate (attempts (getHeatmap as_HeatmapResponse fetch this a1).2)
      (baseUrl this +:+ "/heatmap?asset=" +:+ encodeURIComponent a1)
  /\ (baseUrl this +:+ "/heatmap?asset=" +:+ encodeURIComponent a1
       = baseUrl this +:+ "/heatmap?asset=" +:+ encodeURIComponent a2 ->
      a1 = a2).
Proof.
  split; [| apply heatmap_url_injective].
  unfold getHeatmap.
  destruct (fetchWithRetry_shape_from as_HeatmapResponse fetch this
              (baseUrl this +:+ "/heatmap?asset=" +:+ encodeURIComponent a1)
              (Z.to_nat (Z.max 0 (maxRetries this))) 0 ltac:(lia))
    as (n & _ & Htr & _).
  cbn zeta. rewrite Htr, attempts_backoff_trace. apply requests_backoff_trace.
Qed.

Lemma encodeURIComponent_url_safe (s : string) :
  Forall (fun c => url_safe c = true)
    (list_ascii_of_string (encodeURIComponent s)).
Proof.
  induction s as [| c s IH]; cbn [encodeURIComponent]; [constructor |].
  destruct (unreserved c) eqn:U; cbn [list_ascii_of_string].
  - constructor; [| exact IH]. unfold url_safe. by rewrite U.
  - assert (B := nat_ascii_bounded c).
    assert (Hhex : forall n, (n < 16)%nat -> is_hex (hex_digit n) = true).
    { intros n Hn. do 16 (destruct n as [| n]; [reflexivity |]). lia. }
    repeat constructor; try exact IH; unfold url_safe.
    + rewrite Hhex, orb_true_r; [reflexivity |].
      apply Nat.Div0.div_lt_upper_bound. lia.
    + rewrite Hhex, orb_true_r; [reflexivity |].
      apply Nat.mod_upper_bound. lia.
Qed.

(** The symbol is put into the address in escaped form: whatever the
    symbol, the part after [asset=] contains none of the characters
    [&], [=], [#], [?], [/], [+] and no space, so a symbol cannot add or
    change query parameters. *)
Theorem heatmap_url_escapes (asset : string) (c : ascii) :
  c ∈ list_ascii_of_string (encodeURIComponent asset) ->
  c ∉ ["&"; "="; "#"; "?"; "/"; "+"; " "]%char.
Proof.
  intros Hc Hbad.
  pose proof (encodeURIComponent_url_safe asset) as Hall.
  rewrite Forall_forall in Hall. specialize (Hall c Hc).
  repeat (apply elem_of_cons in Hbad as [-> | Hbad]; [discriminate |]).
  by inversion Hbad.
Qed.

Lemma heatmap_url_escapes_witness :
  "%"%char ∉ ["&"; "="; "#"; "?"; "/"; "+"; " "]%char.
Proof.
  apply (heatmap_url_escapes "EUR/USD&x=1"). vm_compute.
  do 3 apply list_elem_of_further. apply list_elem_of_here.
Defined.

(** ** getMultipleHeatmaps *)

Lemma omap_filter_succeeds {A} (call : string -> settled A) (assets : list string) :
  omap (fun asset => value (call asset)) (filter (succeeds call) assets)
  = omap (fun asset => value (call asset)) assets.
Proof.
  induction assets as [| a assets IH]; [reflexivity |].
  rewrite filter_cons. case_decide as Hs; unfold succeeds in Hs; cbn.
  - by rewrite IH.
  - destruct (call a) as [v | e]; cbn in Hs |- *; [contradiction | exact IH].
Qed.

Lemma omap_value_length {A} (call : string -> settled A) (assets : list string) :
  length (omap (fun asset => value (call asset)) assets)
  = length (filter (succeeds call) assets).
Proof.
  symmetry. eapply Forall2_length, omap_value_succeeds.
Qed.

(** The symbols whose call fails contribute nothing: the batch gives the
    same result as the batch of the succeeding symbols alone, and it has one
    response for each of these, so never more responses than symbols. *)
Theorem getMultipleHeatmaps_drops_failed (c : NetworkClient) (assets : list string) :
  api_getMultipleHeatmaps c assets
  = api_getMultipleHeatmaps c (filter (succeeds (api_getHeatmap c)) assets)
  /\ (forall rs, api_getMultipleHeatmaps c assets = fulfilled rs ->
        length rs = length (filter (succeeds (api_getHeatmap c)) assets)
        /\ (length rs <= length assets)%nat).
Proof.
  split.
  - rewrite !getMultipleHeatmaps_omap. f_equal. symmetry.
    apply (omap_filter_succeeds (api_getHeatmap c)).
  - intros rs Hrs. rewrite getMultipleHeatmaps_omap in Hrs.
    assert (Hrs' : rs = omap (fun asset => value (api_getHeatmap c asset)) assets)
      by congruence.
    pose proof (omap_value_length (api_getHeatmap c) assets) as HF.
    rewrite <- Hrs' in HF. rewrite HF.
    split; [reflexivity | apply length_filter].
Qed.

(** When every call fulfils, the batch is the list of the responses, one
    for each symbol of the input at the same position. *)
Theorem getMultipleHeatmaps_all_succeed (c : NetworkClient) (assets : list string) :
  (forall a, a ∈ assets -> exists r, api_getHeatmap c a = fulfilled r) ->
  exists rs, api_getMultipleHeatmaps c assets = fulfilled rs
    /\ Forall2 (fun a r => api_getHeatmap c a = fulfilled r) assets rs.
Proof.
  intros Hall. eexists. split; [apply getMultipleHeatmaps_omap |].
  induction assets as [| a assets IH]; [constructor |].
  destruct (Hall a ltac:(by left)) as [r Hr]. cbn [omap list_omap].
  rewrite Hr. cbn. constructor; [exact Hr |].
  apply IH. intros b Hb. apply Hall. by right.
Qed.

Lemma getMultipleHeatmaps_all_succeed_witness :
  let c := mkNetworkClient read_response always_usd
             (new_HeatmapApiClient sample_config) in
  exists rs, api_getMultipleHeatmaps c ["USD"; "EUR"] = fulfilled rs
    /\ Forall2 (fun a r => api_getHeatmap c a = fulfilled r) ["USD"; "EUR"] rs.
Proof.
  apply (getMultipleHeatmaps_all_succeed
           (mkNetworkClient read_response always_usd
              (new_HeatmapApiClient sample_config))
           ["USD"; "EUR"]).
  intros a Ha. exists (read_response usd_payload).
  apply elem_of_cons in Ha as [-> | Ha]; [reflexivity |].
  apply list_elem_of_singleton in Ha as ->. reflexivity.
Defined.

(** ** loadData *)

Section MockCycle.

Variable TypeError_message : string -> option json -> string.

Lemma fold_outcome_map {S A B} (body : S -> B -> outcome S) (f : S -> A -> S)
    (g : A -> B) (items : list A) (s : S) :
  (forall s' item, body s' (g item) = Normal (f s' item)) ->
  fold_outcome body (map g items) s = Normal (fold_left f items s).
Proof.
  intros Hbody. revert s. induction items as [| item rest IH]; intros s; cbn.
  - reflexivity.
  - rewrite Hbody. cbn. apply IH.
Qed.

Lemma route_component_to_json (response : HeatmapResponse) (p : Pillar)
    (acc : Records) (c : Component) :
  Runtime.route_component TypeError_message (HeatmapResponse_to_json response)
    (Pillar_to_json p) acc (Component_to_json c)
  = Normal (route_component response p acc c).
Proof.
  unfold Runtime.route_component, route_component.
  destruct response as [a sc [lo hi] ps d v]. cbn.
  repeat match goal with
         | |- context [String.eqb ?a ?b] => destruct (String.eqb a b)
         end; reflexivity.
Qed.

Lemma route_pillar_to_json (response : HeatmapResponse) (acc : Records)
    (p : Pillar) :
  Runtime.route_pillar TypeError_message (HeatmapResponse_to_json response) acc
    (Pillar_to_json p)
  = Normal (route_pillar response acc p).
Proof.
  unfold Runtime.route_pillar, route_pillar. cbn.
  apply fold_outcome_map. intros s' c. apply route_component_to_json.
Qed.

(** On a response of the declared type the evaluation at run time completes,
    with the asset that the transformer gives at the declared type. *)
Lemma transformBackendResponse_to_json (response : HeatmapResponse) :
  Runtime.transformBackendResponse TypeError_message
    (HeatmapResponse_to_json response)
  = Normal (transformBackendResponse response).
Proof.
  unfold Runtime.transformBackendResponse. cbn.
  rewrite (fold_outcome_map _ (route_pillar response) Pillar_to_json).
  - reflexivity.
  - intros s' p. apply route_pillar_to_json.
Qed.

Lemma map_outcome_to_json (rs : list HeatmapResponse) :
  map_outcome (Runtime.transformBackendResponse TypeError_message)
    (map HeatmapResponse_to_json rs)
  = Normal (map transformBackendResponse rs).
Proof.
  induction rs as [| r rs IH]; cbn [map map_outcome]; [reflexivity |].
  rewrite transformBackendResponse_to_json.
  unfold mbind, outcome_bind. cbv beta iota. rewrite IH. reflexivity.
Qed.

(** The empty object has no [pillars]. *)
Lemma transformBackendResponse_empty_object :
  Runtime.transformBackendResponse TypeError_message (JObject [])
  = Throws (Error (TypeError_message "response.pillars.forEach" None)).
Proof. reflexivity. Qed.

Lemma mock_lookup_inherited (this : MockApiClient) (a : string) :
  a ∈ Object_prototype -> mock_lookup a (mockData this) = None.
Proof.
  unfold Object_prototype. intros H.
  repeat (apply elem_of_cons in H as [-> | H]; [reflexivity |]).
  by inversion H.
Qed.

Lemma mock_batch_known (this : MockApiClient) (assets : list string) :
  Forall (fun a => a ∉ Object_prototype) assets ->
  Runtime.getMultipleHeatmaps (Runtime.Mock this) assets
  = fulfilled (map HeatmapResponse_to_json
                 (omap (fun a => mock_lookup a (mockData this)) assets)).
Proof.
  intros Hall. cbn [Runtime.getMultipleHeatmaps]. f_equal.
  change (fulfilled_values (allSettled (map (Runtime.mock_getHeatmap this) assets))
          = map HeatmapResponse_to_json
              (omap (fun a => mock_lookup a (mockData this)) assets)).
  rewrite fulfilled_values_map.
  induction Hall as [| a assets Ha Hall IH]; [reflexivity |].
  cbn [omap list_omap]. unfold Runtime.mock_getHeatmap at 1.
  destruct (mock_lookup a (mockData this)) as [r |]; cbn.
  - by rewrite IH.
  - rewrite bool_decide_false by exact Ha. exact IH.
Qed.

Lemma mock_batch_inherited (this : MockApiClient) (assets : list string) :
  Exists (fun a => a ∈ Object_prototype) assets ->
  exists responses,
    Runtime.getMultipleHeatmaps (Runtime.Mock this) assets = fulfilled responses
    /\ map_outcome (Runtime.transformBackendResponse TypeError_message) responses
       = Throws (Error (TypeError_message "response.pillars.forEach" None)).
Proof.
  intros Hex. eexists. split; [reflexivity |].
  change (map_outcome (Runtime.transformBackendResponse TypeError_message)
            (fulfilled_values (allSettled (map (Runtime.mock_getHeatmap this) assets)))
          = Throws (Error (TypeError_message "response.pillars.forEach" None))).
  rewrite fulfilled_values_map.
  induction assets as [| a assets IH]; [by inversion Hex |].
  cbn [omap list_omap]. unfold Runtime.mock_getHeatmap at 1.
  destruct (mock_lookup a (mockData this)) as [r |] eqn:Hr;
    cbn [value mbind option_bind].
  - cbn [map_outcome]. rewrite transformBackendResponse_to_json.
    unfold mbind at 1, outcome_bind at 1. cbv beta iota.
    rewrite IH; [reflexivity |].
    apply Exists_cons in Hex as [Ha | Hex]; [| exact Hex].
    rewrite mock_lookup_inherited in Hr by exact Ha. discriminate.
  - case_bool_decide as Ha; cbn [value].
    + cbn [map_outcome]. rewrite transformBackendResponse_empty_object.
      reflexivity.
    + apply IH. apply Exists_cons in Hex as [Ha' | Hex]; [contradiction | exact Hex].
Qed.

(** With the fixture client a refresh cycle ends in the [catch] branch
    exactly when one of the configured symbols is a name that the fixture
    table inherits from [Object.prototype] (such as [toString]): the answer
    for it is an empty object, on which the transformation throws, and the
    data shown before stays.  Otherwise the cycle ends in the [try] branch;
    it writes the transformed fixtures of the configured symbols that the
    table has, in the order of the configuration, and drops the others
    without a trace. *)
Theorem loadData_mock_client (this : MockApiClient) (config : HeatmapConfig)
    (now : Z) (s : HeatmapState) :
  (Forall (fun a => a ∉ Object_prototype) (assets config) ->
     Runtime.loadData TypeError_message (Runtime.Mock this) config now s
     = Some {| data := transformBackendResponse <$>
                         omap (fun a => mock_lookup a (mockData this)) (assets config);
               loading := false; error := None;
               lastUpdated := Some (DateNow now) |})
  /\ (Exists (fun a => a ∈ Object_prototype) (assets config) ->
      Runtime.loadData TypeError_message (Runtime.Mock this) config now s
      = Some {| data := data s; loading := false;
                error := Some (TypeError_message "response.pillars.forEach" None);
                lastUpdated := lastUpdated s |}).
Proof.
  unfold Runtime.loadData. split.
  - intros Hall. rewrite (mock_batch_known this _ Hall).
    cbn [Runtime.loadData_resume]. rewrite map_outcome_to_json. reflexivity.
  - intros Hex.
    destruct (mock_batch_inherited this _ Hex) as (responses & -> & Hthrow).
    cbn [Runtime.loadData_resume]. rewrite Hthrow. reflexivity.
Qed.

End MockCycle.

Lemma loadData_mock_client_witness :
  Runtime.loadData (fun expression _ => ("TypeError: " +:+ expression)%string)
    (Runtime.Mock (mkMockApiClient "2025-08-01T00:00:00.000Z"))
    (mkHeatmapConfig "http://localhost:8000" None ["USD"; "toString"] None)
    1754000030000 shown_state
  = Some {| data := data shown_state; loading := false;
            error := Some "TypeError: response.pillars.forEach";
            lastUpdated := lastUpdated shown_state |}.
Proof.
  apply (proj2 (loadData_mock_client
                  (fun expression _ => ("TypeError: " +:+ expression)%string)
                  (mkMockApiClient "2025-08-01T00:00:00.000Z")
                  (mkHeatmapConfig "http://localhost:8000" None ["USD"; "toString"] None)
                  1754000030000 shown_state)).
  apply Exists_cons_tl, Exists_cons_hd. unfold Object_prototype.
  do 5 apply list_elem_of_further. apply list_elem_of_here.
Defined.

(** ** Payloads of the declared types *)

Section TypedPayloads.

Variable TypeError_message : string -> option json -> string.

Lemma fold_outcome_Forall {S A B} (P : A -> Prop) (body : S -> A -> outcome S)
    (f : S -> B -> S) (g : A -> B) (items : list A) (s : S) :
  (forall s' item, P item -> body s' item = Normal (f s' (g item))) ->
  Forall P items ->
  fold_outcome body items s = Normal (fold_left f (map g items) s).
Proof.
  intros Hbody Hall. revert s.
  induction Hall as [| item rest Hitem Hall IH]; intros s; cbn [fold_outcome map fold_left].
  - reflexivity.
  - rewrite (Hbody s item Hitem). unfold mbind at 1, outcome_bind at 1.
    cbv beta iota. apply IH.
Qed.

Lemma get_not_null (field : string) (v x : json) :
  get field v = Some x -> v <> JNull.
Proof. by destruct v. Qed.

Lemma member_get (expression : string) (base : json) (field : string) (x : json) :
  get field base = Some x ->
  Runtime.member TypeError_message expression base field = Normal (Some x).
Proof. destruct base; cbn; try discriminate. by intros ->. Qed.

Lemma route_component_typed (response pillar : json) (acc : Records)
    (component : json) (lo hi : number) (nm : string) :
  get "scale" response = Some (JArray [JNumber lo; JNumber hi]) ->
  get "name" pillar = Some (JString nm) ->
  Component_typed component ->
  Runtime.route_component TypeError_message response pillar acc component
  = Normal (route_component (read_response response) (read_pillar pillar) acc
              (read_component component)).
Proof.
  intros Hscale Hname (k & n & Hk & Hn).
  unfold Runtime.route_component, route_component.
  rewrite (member_get _ _ _ _ Hn), (member_get _ _ _ _ Hscale),
    (member_get _ _ _ _ Hname).
  unfold read_response, read_pillar, read_component. cbn [scale name key c_score].
  rewrite Hscale, Hname, Hk, Hn. cbn.
  rewrite (member_get _ _ _ _ Hk). cbn.
  repeat match goal with
         | |- context [String.eqb ?a ?b] => destruct (String.eqb a b)
         end; reflexivity.
Qed.

Lemma route_pillar_typed (response : json) (acc : Records) (pillar : json)
    (lo hi : number) :
  get "scale" response = Some (JArray [JNumber lo; JNumber hi]) ->
  Pillar_typed pillar ->
  Runtime.route_pillar TypeError_message response acc pillar
  = Normal (route_pillar (read_response response) acc (read_pillar pillar)).
Proof.
  intros Hscale (nm & cs & Hname & Hcs & Hall).
  unfold Runtime.route_pillar, route_pillar.
  rewrite (member_get _ _ _ _ Hcs). cbn [mbind outcome_bind Runtime.forEach].
  unfold read_pillar at 2. cbn [components]. rewrite Hcs. cbn [as_list].
  apply (fold_outcome_Forall Component_typed); [| exact Hall].
  intros s' c Hc. by eapply route_component_typed.
Qed.

(** On a payload of the declared types the evaluation at run time completes,
    and gives what the transformer gives on the record that the payload
    stands for. *)
Lemma Runtime_transformBackendResponse_typed (data : json) :
  HeatmapResponse_typed data ->
  Runtime.transformBackendResponse TypeError_message data
  = Normal (transformBackendResponse (read_response data)).
Proof.
  intros (a & n & lo & hi & ps & d & Ha & Hn & Hscale & Hps & Hall & Hd).
  assert (R1 : r_asset (read_response data) = a)
    by (unfold read_response; cbn; by rewrite Ha).
  assert (R2 : r_score (read_response data) = n)
    by (unfold read_response; cbn; by rewrite Hn).
  assert (R3 : as_of (read_response data) = d)
    by (unfold read_response; cbn; by rewrite Hd).
  assert (R4 : pillars (read_response data) = map read_pillar ps)
    by (unfold read_response; cbn; by rewrite Hps).
  unfold Runtime.transformBackendResponse, transformBackendResponse.
  rewrite R1, R2, R3, R4.
  set (r := read_response data).
  rewrite (member_get _ _ _ _ Hps). cbn [mbind outcome_bind Runtime.forEach].
  rewrite (fold_outcome_Forall Pillar_typed _ (route_pillar r) read_pillar ps
             no_records);
    [| intros s' p Hp; by eapply route_pillar_typed | exact Hall].
  rewrite Ha, Hn, Hd. reflexivity.
Qed.

Lemma map_outcome_typed (payloads : list json) :
  Forall HeatmapResponse_typed payloads ->
  map_outcome (Runtime.transformBackendResponse TypeError_message) payloads
  = Normal (map (fun data => transformBackendResponse (read_response data)) payloads).
Proof.
  induction 1 as [| data rest Hdata Hall IH]; cbn [map map_outcome]; [reflexivity |].
  rewrite (Runtime_transformBackendResponse_typed data Hdata).
  unfold mbind, outcome_bind. cbv beta iota. rewrite IH. reflexivity.
Qed.

(** On payloads of the declared types, and in the [catch] block, the cycle
    at run time is the cycle on the records. *)
Lemma loadData_resume_typed (payloads : list json) (e : exn) (now : Z)
    (s : HeatmapState) :
  (Forall HeatmapResponse_typed payloads ->
     Runtime.loadData_resume TypeError_message (fulfilled payloads) now s
     = Some (loadData_resume (fulfilled (map read_response payloads)) now s))
  /\ Runtime.loadData_resume TypeError_message (rejected e) now s
     = Some (loadData_resume (rejected e) now s).
Proof.
  split; [| reflexivity]. intros Hall. cbn [Runtime.loadData_resume].
  rewrite (map_outcome_typed _ Hall). unfold try_update, loadData_resume.
  by rewrite map_map.
Qed.

Lemma HeatmapResponse_to_json_typed (r : HeatmapResponse) :
  HeatmapResponse_typed (HeatmapResponse_to_json r)
  /\ read_response (HeatmapResponse_to_json r) = r.
Proof.
  assert (Hc : forall cs : list Component,
             Forall Component_typed (map Component_to_json cs)
             /\ map read_component (map Component_to_json cs) = cs).
  { induction cs as [| [k n] cs [IH1 IH2]]; [by split |]. split.
    - constructor; [by exists k, n | exact IH1].
    - cbn [map]. rewrite IH2. reflexivity. }
  assert (Hp : forall ps : list Pillar,
             Forall Pillar_typed (map Pillar_to_json ps)
             /\ map read_pillar (map Pillar_to_json ps) = ps).
  { induction ps as [| [nm sc cs] ps [IH1 IH2]]; [by split |].
    destruct (Hc cs) as [Hc1 Hc2]. split.
    - constructor; [| exact IH1].
      exists nm, (map Component_to_json cs). by repeat split.
    - cbn [map]. rewrite IH2. unfold read_pillar. cbn. rewrite Hc2. reflexivity. }
  destruct r as [a n [lo hi] ps d v]. destruct (Hp ps) as [Hp1 Hp2]. split.
  - exists a, n, lo, hi, (map Pillar_to_json ps), d. by repeat split.
  - unfold read_response. cbn. rewrite Hp2. reflexivity.
Qed.

(** A payload that the network client returns was served by the network. *)
Lemma getHeatmap_served (fetch : string -> Z -> settled Response)
    (this : HeatmapApiClient) (asset : string) (data : json) :
  (getHeatmap (fun data => data) fetch this asset).1 = fulfilled data ->
  exists url i response,
    fetch url i = fulfilled response /\ ok response = true
    /\ body response = fulfilled data.
Proof.
  unfold getHeatmap. intros Hv.
  set (url := (baseUrl this +:+ "/heatmap?asset=" +:+ encodeURIComponent asset)%string)
    in *.
  destruct (fetchWithRetry_shape_from (fun data => data) fetch this url
              (Z.to_nat (Z.max 0 (maxRetries this))) 0 ltac:(lia))
    as (n & _ & _ & Hres & _).
  rewrite Hv in Hres. symmetry in Hres. unfold attempt in Hres.
  destruct (fetch url (0 + Z.of_nat n)) as [response | e] eqn:Hf; [| discriminate].
  cbn in Hres. destruct (ok response) eqn:Hok; [| discriminate]. cbn in Hres.
  destruct (body response) as [data' | e] eqn:Hb; [| discriminate]. cbn in Hres.
  apply validateResponse_accepts in Hres as [_ ->].
  by exists url, (0 + Z.of_nat n), response.
Qed.



End TypedPayloads.



(** ** The component over its life *)

Lemma step_widget_invariant (config : HeatmapConfig) (ev : Event) (w w' : Widget) :
  widget_invariant config w -> step config ev w = Some w' ->
  widget_invariant config w'.
Proof.
  unfold widget_invariant, step. intros Hinv Hstep.
  destruct ev as [| id | | outcome now |].
  - destruct (phase w) eqn:Hph; try discriminate.
    injection Hstep as <-. destruct Hinv as (Hn & Ht & Hr & Hs).
    unfold onMount. destruct (wants_interval config); cbn.
    + split; [discriminate |]. eexists. split; [| reflexivity].
      rewrite Ht. apply (right_id_L ∅ (∪)).
    + split; [discriminate |]. by split.
  - case_bool_decide as Hin; [| discriminate]. injection Hstep as <-. cbn.
    destruct (phase w) eqn:Hph.
    + destruct Hinv as (_ & Ht & _). rewrite Ht in Hin. set_solver.
    + destruct Hinv as [_ Ht]. split; [discriminate | exact Ht].
    + destruct Hinv as [_ Ht]. rewrite Ht in Hin. set_solver.
  - destruct (phase w) eqn:Hph; try discriminate.
    injection Hstep as <-. cbn. rewrite Hph.
    destruct Hinv as [_ Ht]. split; [discriminate | exact Ht].
  - destruct (in_flight w) as [| n] eqn:Hn; [discriminate |].
    injection Hstep as <-. cbn.
    destruct (phase w) eqn:Hph.
    + destruct Hinv as (H0 & _). discriminate.
    + destruct Hinv as [_ Ht]. split; [| exact Ht].
      intros _. by destruct outcome.
    + destruct Hinv as [_ Ht]. split; [| exact Ht].
      intros _. by destruct outcome.
  - destruct (phase w) eqn:Hph; try discriminate.
    injection Hstep as <-. destruct Hinv as [Hl Ht]. unfold onDestroy.
    destruct (wants_interval config).
    + destruct Ht as (id & Ht & Hr). rewrite Hr. cbn.
      split; [exact Hl |]. rewrite Ht. apply difference_diag_L.
    + destruct Ht as [Ht Hr]. rewrite Hr. cbn. by split.
Qed.

Lemma run_widget_invariant (config : HeatmapConfig) (evs : list Event) (w w' : Widget) :
  widget_invariant config w -> run config evs w = Some w' ->
  widget_invariant config w'.
Proof.
  revert w. induction evs as [| ev evs IH]; intros w Hinv Hrun; cbn in Hrun.
  - by injection Hrun as <-.
  - destruct (step config ev w) as [w1 |] eqn:Hstep; [| discriminate].
    eapply IH; [| exact Hrun]. eapply step_widget_invariant; eassumption.
Qed.

Lemma initial_widget_invariant (config : HeatmapConfig) :
  widget_invariant config initial_widget.
Proof. by repeat split. Qed.

(** The loading flag does not get stuck: in every state the component can
    reach after it was mounted, [loading] is false whenever no call of
    [loadData] is waiting for its batch. *)
Theorem widget_loading_settles (config : HeatmapConfig) (evs : list Event)
    (w : Widget) :
  run config evs initial_widget = Some w ->
  phase w <> Created -> in_flight w = 0%nat ->
  loading (state w) = false.
Proof.
  intros Hrun Hph Hn.
  pose proof (run_widget_invariant config evs _ w
                (initial_widget_invariant config) Hrun) as Hinv.
  unfold widget_invariant in Hinv.
  destruct (phase w); [contradiction | |]; destruct Hinv as [Hl _]; by apply Hl.
Qed.

Lemma widget_loading_settles_witness :
  exists w,
    run sample_config
      [EMount; EClick; ESettle (rejected (Error "offline")) 1754000000000;
       ESettle (fulfilled []) 1754000001000] initial_widget = Some w
    /\ loading (state w) = false.
Proof.
  eexists. split; [vm_compute; reflexivity |].
  eapply (widget_loading_settles sample_config
            [EMount; EClick; ESettle (rejected (Error "offline")) 1754000000000;
             ESettle (fulfilled []) 1754000001000]).
  - vm_compute. reflexivity.
  - discriminate.
  - reflexivity.
Defined.

(** The interval timer follows the configuration: with [refreshInterval]
    absent, zero or negative no timer is ever set and no tick can happen in
    any reachable state; with a positive [refreshInterval] a mounted
    component has exactly one timer, the one kept in its variable. *)
Theorem widget_timer_configured (config : HeatmapConfig) (evs : list Event)
    (w : Widget) :
  run config evs initial_widget = Some w ->
  ((cfg_refreshInterval config = None
    \/ (exists n, cfg_refreshInterval config = Some n /\ n <= 0)) ->
   timers w = ∅ /\ forall id, step config (ETick id) w = None)
  /\ ((exists n, cfg_refreshInterval config = Some n /\ 0 < n) ->
      phase w = Mounted ->
      exists id, timers w = {[id]} /\ refreshInterval w = Some id).
Proof.
  intros Hrun.
  pose proof (run_widget_invariant config evs _ w
                (initial_widget_invariant config) Hrun) as Hinv.
  unfold widget_invariant in Hinv. split.
  - intros Hcfg.
    assert (Hw : wants_interval config = false).
    { unfold wants_interval. destruct Hcfg as [-> | (n & -> & Hn)]; [reflexivity |].
      destruct (Z.eqb_spec n 0); cbn; [reflexivity |].
      apply Z.ltb_ge. exact Hn. }
    assert (Ht : timers w = ∅).
    { destruct (phase w).
      - by destruct Hinv as (_ & Ht & _).
      - rewrite Hw in Hinv. by destruct Hinv as (_ & Ht & _).
      - by destruct Hinv as [_ Ht]. }
    split; [exact Ht |]. intros id. cbn. rewrite Ht.
    case_bool_decide as Hin; [| reflexivity]. by apply not_elem_of_empty in Hin.
  - intros (n & Hn & Hpos) Hph. rewrite Hph in Hinv.
    assert (Hw : wants_interval config = true).
    { unfold wants_interval. rewrite Hn.
      destruct (Z.eqb_spec n 0); cbn; [lia |]. by apply Z.ltb_lt. }
    rewrite Hw in Hinv. by destruct Hinv as [_ Ht].
Qed.

Lemma widget_timer_configured_witness :
  exists w,
    run (mkHeatmapConfig "http://localhost:8000" (Some 0) ["USD"] None)
      [EMount; ESettle (fulfilled []) 1754000000000] initial_widget = Some w
    /\ timers w = ∅
    /\ forall id,
         step (mkHeatmapConfig "http://localhost:8000" (Some 0) ["USD"] None)
           (ETick id) w = None.
Proof.
  eexists. split; [vm_compute; reflexivity |].
  eapply (proj1 (widget_timer_configured
            (mkHeatmapConfig "http://localhost:8000" (Some 0) ["USD"] None)
            [EMount; ESettle (fulfilled []) 1754000000000] _ _)).
  right. exists 0. split; [reflexivity | lia].
  Unshelve. vm_compute. reflexivity.
Defined.

(** The fields [data] and [lastUpdated] only change when a batch call
    fulfils: mounting, ticks, clicks, a rejected batch call and the
    destruction leave both as they are. *)
Theorem widget_data_frame (config : HeatmapConfig) (ev : Event) (w w' : Widget) :
  step config ev w = Some w' -> ~ is_success ev ->
  data (state w') = data (state w)
  /\ lastUpdated (state w') = lastUpdated (state w).
Proof.
  unfold step. intros Hstep Hns.
  destruct ev as [| id | | outcome now |].
  - destruct (phase w); try discriminate. injection Hstep as <-.
    unfold onMount. by destruct (wants_interval config).
  - case_bool_decide; [| discriminate]. by injection Hstep as <-.
  - destruct (phase w); try discriminate. by injection Hstep as <-.
  - destruct (in_flight w); [discriminate |]. injection Hstep as <-.
    destruct outcome as [rs | e]; [| by split].
    exfalso. apply Hns. by exists rs, now.
  - destruct (phase w); try discriminate. injection Hstep as <-.
    unfold onDestroy. by destruct (refreshInterval w).
Qed.

Lemma widget_data_frame_witness :
  let w := mkWidget shown_state (Some 1%positive) Mounted {[ 1%positive ]} 1 in
  exists w',
    step sample_config (ESettle (rejected NonError) 1754000030000) w = Some w'
    /\ data (state w') = data (state w)
    /\ lastUpdated (state w') = lastUpdated (state w).
Proof.
  cbn zeta. eexists. split; [reflexivity |].
  eapply (widget_data_frame sample_config
            (ESettle (rejected NonError) 1754000030000)).
  - reflexivity.
  - intros (rs & now & H). discriminate.
Defined.

(** ** getCellColor *)

Lemma property_SCORE_COLORS_None (z : Z) :
  z ∉ [-2; -1; 0; 1; 2] -> property (pretty z) SCORE_COLORS = None.
Proof.
  intros Hz. unfold SCORE_COLORS. cbn [property].
  change "-2"%string with (pretty (-2)).
  change "-1"%string with (pretty (-1)).
  change "0"%string with (pretty 0).
  change "1"%string with (pretty 1).
  change "2"%string with (pretty 2).
  repeat match goal with
         | |- context [String.eqb (pretty ?k) (pretty z)] =>
             destruct (String.eqb_spec (pretty k) (pretty z)) as [E | _];
             [apply (inj pretty) in E; subst z; exfalso; apply Hz; set_solver |]
         end.
  reflexivity.
Qed.

Lemma getCellColor_bucket (z : Z) :
  z ∈ [-2; -1; 0; 1; 2] ->
  getCellColor z = property (pretty z) SCORE_COLORS /\ is_Some (getCellColor z).
Proof.
  intros H.
  repeat (apply elem_of_cons in H as [-> | H]; [split; [reflexivity | by eexists] |]).
  by inversion H.
Qed.

(** The five buckets have five different colour classes, each the entry of
    the table under the numeral of the bucket; every other integer falls
    back to the class of 0. *)
Theorem getCellColor_classes (z1 z2 : Z) :
  (z1 ∈ [-2; -1; 0; 1; 2] ->
     getCellColor z1 = property (pretty z1) SCORE_COLORS
     /\ is_Some (getCellColor z1))
  /\ (z1 ∉ [-2; -1; 0; 1; 2] -> getCellColor z1 = getCellColor 0)
  /\ (z1 ∈ [-2; -1; 0; 1; 2] -> z2 ∈ [-2; -1; 0; 1; 2] ->
      getCellColor z1 = getCellColor z2 -> z1 = z2).
Proof.
  split; [| split].
  - apply getCellColor_bucket.
  - intros H1. unfold getCellColor. cbn zeta.
    rewrite (property_SCORE_COLORS_None z1 H1). reflexivity.
  - intros H1 H2.
    repeat (apply elem_of_cons in H1 as [-> | H1]);
      try (by inversion H1);
      repeat (apply elem_of_cons in H2 as [-> | H2]);
      try (by inversion H2);
      intros H; try reflexivity; discriminate H.
Qed.

Lemma getCellColor_classes_witness :
  getCellColor 7 = getCellColor 0.
Proof.
  apply (proj1 (proj2 (getCellColor_classes 7 0))).
  intros H. repeat (apply elem_of_cons in H as [H | H]; [discriminate |]).
  by inversion H.
Defined.

Lemma cell_value_own (m : gmap string ScoreRange) (key : string) (v : ScoreRange) :
  m !! key = Some v -> cell_value m key = Some v.
Proof.
  unfold cell_value, read_property, ScoreRange in *. intros ->.
  by destruct (Z.eqb_spec v 0) as [-> |].
Qed.

Lemma cell_value_absent (m : gmap string ScoreRange) (key : string) :
  m !! key = None ->
  cell_value m key = if bool_decide (key ∈ Object_prototype) then None else Some 0.
Proof.
  unfold cell_value, read_property, ScoreRange in *. intros ->.
  by case_bool_decide.
Qed.

(** In the table a cell of a transformed response, in a column whose key is
    not a name of [Object.prototype] or is a key of the asset itself, holds
    a bucket and is drawn with the class of this bucket, never with the
    fallback; a component that the asset does not have is drawn exactly like
    a component in bucket 0.  In a column whose key is a name of
    [Object.prototype] (a key such as [constructor], sent for another asset)
    the cell of an asset without this component holds the inherited value,
    not a number. *)
Theorem cell_colour_of_transformed (response : HeatmapResponse)
    (label key : string) :
  label ∈ labels ->
  let m := asset_map label (transformBackendResponse response) in
  (key ∉ Object_prototype \/ is_Some (m !! key) ->
     exists v, cell_value m key = Some v
       /\ v ∈ [-2; -1; 0; 1; 2]
       /\ getCellColor v = property (pretty v) SCORE_COLORS
       /\ (m !! key = None -> v = 0)
       /\ (forall v', m !! key = Some v' -> v = v'))
  /\ (key ∈ Object_prototype -> m !! key = None -> cell_value m key = None).
Proof.
  intros Hin. cbv zeta.
  set (m := asset_map label (transformBackendResponse response)).
  split.
  - intros Hkey. destruct (m !! key) as [v |] eqn:E.
    + exists v. split; [by apply cell_value_own |].
      assert (Hv : v ∈ [-2; -1; 0; 1; 2]).
      { unfold m in E. rewrite asset_map_lookup in E by exact Hin.
        by apply last_write_range in E. }
      split; [exact Hv |]. split; [by apply getCellColor_bucket |].
      split; [discriminate | by intros v' [= ->]].
    + destruct Hkey as [Hkey | [v Hv]]; [| discriminate].
      exists 0. rewrite (cell_value_absent m key E).
      rewrite bool_decide_false by exact Hkey.
      split; [reflexivity |]. split; [repeat constructor |].
      split; [reflexivity |]. split; [reflexivity | discriminate].
  - intros Hkey E. rewrite (cell_value_absent m key E).
    by rewrite bool_decide_true.
Qed.

Lemma cell_colour_of_transformed_witness :
  let m := asset_map "sentiment"
             (transformBackendResponse
                (with_pillars [ mkPillar "sentiment" (int 4)
                                  [ mkComponent "cot" (int 24) ] ]
                   (mkHeatmapResponse "USOIL" (int 13) (int (-24), int 24) []
                      "2025-08-01T00:00:00Z" "2025.08.1"))) in
  cell_value m "cot" = Some 2
  /\ cell_value m "retailPos" = Some 0
  /\ cell_value m "constructor" = None.
Proof.
  cbv zeta.
  pose proof (cell_colour_of_transformed
                (with_pillars [ mkPillar "sentiment" (int 4)
                                  [ mkComponent "cot" (int 24) ] ]
                   (mkHeatmapResponse "USOIL" (int 13) (int (-24), int 24) []
                      "2025-08-01T00:00:00Z" "2025.08.1"))
                "sentiment" "constructor" ltac:(unfold labels; set_solver))
    as [_ H].
  split; [reflexivity |]. split; [reflexivity |].
  apply H; [| reflexivity].
  unfold Object_prototype. apply list_elem_of_here.
Defined.

(** ** sortedData *)

Lemma sort_insert_Permutation {A} (compareFn : A -> A -> number) (x : A) (l : list A) :
  sort_insert compareFn x l ≡ₚ x :: l.
Proof.
  induction l as [| y l IH]; cbn; [reflexivity |].
  destruct (positive_number (compareFn x y)); [| reflexivity].
  rewrite IH. apply Permutation_swap.
Qed.

Lemma sort_Permutation {A} (compareFn : A -> A -> number) (l : list A) :
  sort compareFn l ≡ₚ l.
Proof.
  induction l as [| x l IH]; cbn; [reflexivity |].
  rewrite sort_insert_Permutation. by constructor.
Qed.

Lemma positive_difference (qa qb : Q) :
  positive_number (Fin qb - Fin qa)%num = true <-> (qa < qb)%Q.
Proof.
  cbn. rewrite negb_true_iff, Qle_bool_false. split; intros H; lra.
Qed.

Lemma sort_insert_sorted (x : HeatmapAsset) (l : list HeatmapAsset) :
  finite_score x -> Forall finite_score l ->
  StronglySorted not_below l ->
  StronglySorted not_below
    (sort_insert (fun a b => (score b - score a)%num) x l).
Proof.
  intros [qx Hx] Hfin Hs.
  induction l as [| y l IH]; cbn.
  - repeat constructor.
  - apply Forall_cons in Hfin as [[qy Hy] Hfin].
    apply StronglySorted_inv in Hs as [Hs Hy_all].
    rewrite Hx, Hy.
    destruct (positive_number (Fin qy - Fin qx)%num) eqn:E.
    + apply positive_difference in E. constructor; [by apply IH |].
      rewrite sort_insert_Permutation. constructor; [| exact Hy_all].
      exists qy, qx. repeat split; try assumption. lra.
    + assert (Hle : (qy <= qx)%Q).
      { destruct (Qlt_le_dec qx qy) as [Hlt | Hle]; [| exact Hle].
        apply positive_difference in Hlt. congruence. }
      constructor; [by constructor |].
      constructor; [exists qx, qy; by repeat split |].
      eapply Forall_impl; [exact Hy_all |].
      intros z (qy' & qz & Hy' & Hz & Hzy). exists qx, qz.
      rewrite Hy in Hy'. injection Hy' as <-.
      repeat split; try assumption. lra.
Qed.

Lemma sort_insert_stable (q : Q) (x : HeatmapAsset) (l : list HeatmapAsset) :
  finite_score x -> Forall finite_score l ->
  List.filter (has_score q) (sort_insert (fun a b => (score b - score a)%num) x l)
  = List.filter (has_score q) (x :: l).
Proof.
  intros [qx Hx] Hfin.
  induction l as [| y l IH]; [reflexivity |].
  apply Forall_cons in Hfin as [[qy Hy] Hfin]. cbn [sort_insert].
  rewrite Hx, Hy.
  destruct (positive_number (Fin qy - Fin qx)%num) eqn:E; [| reflexivity].
  apply positive_difference in E.
  cbn [List.filter]. rewrite (IH Hfin). cbn [List.filter].
  assert (Hy' : has_score q y = Qeq_bool qy q) by (unfold has_score; by rewrite Hy).
  assert (Hx' : has_score q x = Qeq_bool qx q) by (unfold has_score; by rewrite Hx).
  rewrite Hx', Hy'.
  destruct (Qeq_bool qy q) eqn:Ey, (Qeq_bool qx q) eqn:Ex; try reflexivity.
  apply Qeq_bool_iff in Ey, Ex. lra.
Qed.

(** For assets with finite scores the rows are the assets of the state in
    the order of their scores, highest first, and assets with equal scores
    keep the order in which they were in the state. *)
Theorem sortedData_descending_stable (data : list HeatmapAsset) :
  Forall finite_score data ->
  sortedData data ≡ₚ data
  /\ StronglySorted not_below (sortedData data)
  /\ (forall q, List.filter (has_score q) (sortedData data)
                = List.filter (has_score q) data).
Proof.
  intros Hfin. split; [apply sort_Permutation |].
  unfold sortedData. induction data as [| x data IH].
  - split; [constructor | reflexivity].
  - change (sort (fun a b => (score b - score a)%num) (x :: data))
      with (sort_insert (fun a b => (score b - score a)%num) x
              (sort (fun a b => (score b - score a)%num) data)).
    apply Forall_cons in Hfin as [Hx Hfin].
    destruct (IH Hfin) as [Hsorted Hstable].
    assert (Hfin' : Forall finite_score
                      (sort (fun a b => (score b - score a)%num) data)).
    { by rewrite sort_Permutation. }
    split.
    + by apply sort_insert_sorted.
    + intros q. rewrite sort_insert_stable by assumption.
      cbn [List.filter]. rewrite (Hstable q). reflexivity.
Qed.

Lemma sortedData_descending_stable_witness :
  let data := transformBackendResponse <$>
                (mockData (mkMockApiClient "2025-08-01T00:00:00.000Z")).*2 in
  sortedData data ≡ₚ data
  /\ StronglySorted not_below (sortedData data)
  /\ (forall q, List.filter (has_score q) (sortedData data)
                = List.filter (has_score q) data).
Proof.
  apply sortedData_descending_stable.
  repeat constructor; by eexists.
Defined.
